(** * kafkaignite: synthetic event producers

    A shallow embedding of the producers under [src/kafkaigniterep]
    (random stock walk, live stock lookup, metrics, pizza orders, bets,
    user behaviour) and of the emission loop every script ends with.

    Conventions of the embedding.
    - Python floats are modelled by their exact values in [Q], and the
      arithmetic on them is exact.  The conversions [float(s)] of a
      string and [float(n)] of an [int] do round, to the nearest binary64
      number.
    - Strings are ASCII text, one character per byte.
    - The module-global generator of [random] is a stream of raw words
      with a read position; every draw consumes one word.
    - Effects (global lists, the generator, the clock, the log, sleeping,
      calls to the price services) are threaded through one state-and-
      exception monad.  A raised exception keeps the mutations done so
      far, as in Python. *)

From Stdlib Require Import ZArith QArith Qround Lqa String Ascii List Sorted Lia.
From stdpp Require Import base gmap list strings pretty.

Set Warnings "-register-all,-clear-no-such-hyp".

(* ===================================================================== *)
(** * Python values, exceptions and the effect monad                      *)
(* ===================================================================== *)

Module Py.

(** The values that occur in the rendered messages. *)
Inductive pyval : Type :=
  | VNone
  | VInt (z : Z)
  | VNum (q : Q)
  | VStr (s : string)
  | VList (l : list pyval)
  | VDict (d : gmap string pyval).

(** The exception classes that the modelled code can meet.  The last two
    derive from [BaseException] only, so [except Exception] lets them
    pass. *)
Inductive exn : Type :=
  | ValueError
  | KeyError
  | TypeError
  | IndexError
  | OverflowError
  | AssertionError
  | ConnectionError
  | RetryError
  | KeyboardInterrupt
  | SystemExit.

Definition is_Exception (e : exn) : bool :=
  match e with
  | KeyboardInterrupt | SystemExit => false
  | _ => true
  end.

Inductive outcome (A : Type) : Type :=
  | Ok (a : A)
  | Raise (e : exn).
Arguments Ok {A} a.
Arguments Raise {A} e.

Inductive level : Type := INFO | WARNING | ERROR | CRITICAL.

(** The two price services of the live stock producer. *)
Inductive source : Type := YahooFin | YFinance.

(** What the process does to the outside, in order. *)
Inductive event : Type :=
  | LogMessage (lvl : level) (m : gmap string pyval)
  | LogFailure (lvl : level) (e : exn)
  | Sleep (seconds : Q)
  | Query (src : source) (symbol : string).

(** The generator of the [random] module. *)
Record rng : Type := { raw : nat -> N; pos : nat }.

(** Process state: the script's module globals [G], the generator, the
    wall clock in seconds, and the trace of events (oldest first). *)
Record world (G : Type) : Type := World {
  globals : G;
  gen : rng;
  now : Q;
  trace : list event
}.
Arguments World {G} _ _ _ _.
Arguments globals {G} _.
Arguments gen {G} _.
Arguments now {G} _.
Arguments trace {G} _.

Definition M (G A : Type) : Type := world G -> outcome A * world G.

Definition ret {G A} (a : A) : M G A := fun w => (Ok a, w).

Definition bind {G A B} (c : M G A) (k : A -> M G B) : M G B :=
  fun w =>
    match c w with
    | (Ok a, w') => k a w'
    | (Raise e, w') => (Raise e, w')
    end.

Definition raise {G A} (e : exn) : M G A := fun w => (Raise e, w).

(** [try: body / except Exception as e: handler e]. *)
Definition try_except {G A} (body : M G A) (handler : exn -> M G A) : M G A :=
  fun w =>
    match body w with
    | (Ok a, w') => (Ok a, w')
    | (Raise e, w') =>
        if is_Exception e then handler e w' else (Raise e, w')
    end.

(** [try: body / except <class>: handler] for the classes selected by
    [catches]. *)
Definition try_except_only {G A} (catches : exn -> bool)
    (body : M G A) (handler : exn -> M G A) : M G A :=
  fun w =>
    match body w with
    | (Ok a, w') => (Ok a, w')
    | (Raise e, w') =>
        if catches e then handler e w' else (Raise e, w')
    end.

#[global] Instance M_ret {G} : MRet (M G) := fun A a => ret a.
#[global] Instance M_bind {G} : MBind (M G) := fun A B k c => bind c k.

Definition get_globals {G} : M G G := fun w => (Ok (globals w), w).

Definition put_globals {G} (g : G) : M G unit :=
  fun w => (Ok tt, World g (gen w) (now w) (trace w)).

Definition emit_event {G} (ev : event) : M G unit :=
  fun w => (Ok tt, World (globals w) (gen w) (now w) (trace w ++ [ev])).

(** ** The [logging] and [time] modules *)

Definition log_message {G} (lvl : level) (m : gmap string pyval) : M G unit :=
  emit_event (LogMessage lvl m).

Definition log_failure {G} (lvl : level) (e : exn) : M G unit :=
  emit_event (LogFailure lvl e).

Definition time_time {G} : M G Q := fun w => (Ok (now w), w).

Definition time_sleep {G} (seconds : Q) : M G unit :=
  fun w =>
    (Ok tt, World (globals w) (gen w) (now w + seconds)%Q
                  (trace w ++ [Sleep seconds])).

(** ** The [random] module *)

Definition next_raw {G} : M G N :=
  fun w =>
    let g := gen w in
    (Ok (raw g (pos g)),
     World (globals w) {| raw := raw g; pos := S (pos g) |} (now w) (trace w)).

(** [random.random()]: 53 random bits scaled into [[0, 1)]. *)
Definition random_random {G} : M G Q :=
  k ← next_raw;
  mret (Qmake (Z.of_N (k mod 2 ^ 53)) (2 ^ 53)%positive).

Definition randbelow {G} (n : N) : M G N :=
  k ← next_raw; mret (k mod n)%N.

(** [random.choice(seq)]. *)
Definition random_choice {G A} (seq : list A) : M G A :=
  match seq with
  | [] => raise IndexError
  | _ =>
      i ← randbelow (N.of_nat (length seq));
      match seq !! N.to_nat i with
      | Some x => mret x
      | None => raise IndexError
      end
  end.

(** [random.uniform(a, b)]. *)
Definition random_uniform {G} (a b : Q) : M G Q :=
  r ← random_random; mret (a + (b - a) * r)%Q.

(** [random.randint(a, b)]: an empty range raises [ValueError]. *)
Definition random_randint {G} (a b : Z) : M G Z :=
  if (b <? a)%Z then raise ValueError
  else k ← randbelow (Z.to_N (b - a + 1)); mret (a + Z.of_N k)%Z.

(** Running sums of the weights, as [itertools.accumulate] gives them. *)
Fixpoint accumulate (acc : Q) (ws : list Q) : list Q :=
  match ws with
  | [] => []
  | x :: ws' => (acc + x)%Q :: accumulate (acc + x)%Q ws'
  end.

(** [bisect.bisect(a, x, 0, hi)] on a sorted list: the number of entries
    among the first [hi] that are [<= x]. *)
Fixpoint bisect (a : list Q) (x : Q) (hi : nat) : nat :=
  match hi, a with
  | S hi', y :: a' => if Qle_bool y x then S (bisect a' x hi') else 0
  | _, _ => 0
  end.

(** [random.choices(population, weights=weights)[0]]. *)
Definition random_choices1 {G A} (population : list A) (weights : list Q)
    : M G A :=
  let cum_weights := accumulate 0%Q weights in
  if negb (length cum_weights =? length population)%nat then raise ValueError
  else
    match last cum_weights with
    | None => raise IndexError
    | Some total =>
        if Qle_bool total 0 then raise ValueError
        else
          r ← random_random;
          let i := bisect cum_weights (r * total)%Q (length population - 1) in
          match population !! i with
          | Some x => mret x
          | None => raise IndexError
          end
    end.

(** ** Builtins *)

(** [int(x)] for a float: truncation towards zero. *)
Definition py_int (q : Q) : Z := Z.quot (Qnum q) (Z.pos (Qden q)).

(** [round(x)] for a float: nearest integer, ties to the even one. *)
Definition py_round (q : Q) : Z :=
  let f := Qfloor q in
  match Qcompare (q - inject_Z f) (1 # 2) with
  | Lt => f
  | Gt => (f + 1)%Z
  | Eq => if Z.even f then f else (f + 1)%Z
  end.

(** [round(x, 2)] for a float. *)
Definition py_round2 (q : Q) : Q := Qmake (py_round (q * 100)) 100.

(** [round(v, 2)] on a value: numbers are rounded, anything else has no
    [__round__] and raises [TypeError]. *)
Definition builtin_round2 {G} (v : pyval) : M G pyval :=
  match v with
  | VNum q => mret (VNum (py_round2 q))
  | VInt z => mret (VInt z)
  | _ => raise TypeError
  end.

(** ** [float(x)] and [round(x)]

    A float is a finite number, an infinity or a NaN.  A finite float is
    carried by its exact value. *)
Inductive pyfloat : Type :=
  | Finite (q : Q)
  | Infinite (negative : bool)
  | NaN.

Definition is_finite (f : pyfloat) : bool :=
  match f with Finite _ => true | _ => false end.

(** The [k] with [2^k <= a < 2^(k+1)], for a positive [a]. *)
Definition binade (a : Q) : Z :=
  let k := (Z.log2 (Qnum a) - Z.log2 (Z.pos (Qden a)))%Z in
  if Qle_bool (2 ^ k) a then k else (k - 1)%Z.

(** Conversion of an exact value into a float, as [float(n)] for an
    [int] and the reading of a decimal numeral do it: the nearest number
    with a significand of 53 bits and an exponent of at least [-1074],
    a tie going to the even significand; what rounds to [2^1024] or
    beyond becomes an infinity. *)
Definition nearest_double (q : Q) : pyfloat :=
  let a := if Qle_bool 0 q then q else (- q)%Q in
  if Qeq_bool a 0 then Finite 0
  else
    let e := Z.max (binade a - 52) (-1074) in
    let r := Qred (inject_Z (py_round (a / 2 ^ e)) * 2 ^ e) in
    if Qle_bool (2 ^ 1024) r then Infinite (negb (Qle_bool 0 q))
    else Finite (if Qle_bool 0 q then r else (- r)%Q).

(** Whether a string holds ASCII characters only. *)
Fixpoint is_ascii_text (s : string) : bool :=
  match s with
  | EmptyString => true
  | String c s' => (nat_of_ascii c <? 128)%nat && is_ascii_text s'
  end.

(** The white space that [float] strips from both ends of a string. *)
Definition is_float_space (c : ascii) : bool :=
  let n := nat_of_ascii c in
  ((9 <=? n) && (n <=? 13) || (n =? 32))%nat.

Fixpoint float_lstrip (s : string) : string :=
  match s with
  | String c s' => if is_float_space c then float_lstrip s' else s
  | EmptyString => EmptyString
  end.

Fixpoint float_rstrip (s : string) : string :=
  match s with
  | String c s' =>
      match float_rstrip s' with
      | EmptyString =>
          if is_float_space c then EmptyString else String c EmptyString
      | rest => String c rest
      end
  | EmptyString => EmptyString
  end.

Definition is_digit (c : ascii) : bool :=
  let n := nat_of_ascii c in ((48 <=? n) && (n <=? 57))%nat.

Definition digit_value (c : ascii) : Z := Z.of_nat (nat_of_ascii c - 48).

Definition starts_with_digit (s : string) : bool :=
  match s with
  | String c _ => is_digit c
  | EmptyString => false
  end.

(** A run of digits that continues the number [acc]; [n] counts the
    digits read so far.  An underscore is passed over only between two
    digits.  The result is the number, the count and the text left. *)
Fixpoint numeral_digits (acc : Z) (n : nat) (s : string) : Z * nat * string :=
  match s with
  | String c rest =>
      if is_digit c then numeral_digits (acc * 10 + digit_value c) (S n) rest
      else if Ascii.eqb c "_" && (0 <? n)%nat && starts_with_digit rest
           then numeral_digits acc n rest
           else (acc, n, s)
  | EmptyString => (acc, n, s)
  end.

(** An optional sign: whether it is a minus, and the text left. *)
Definition numeral_sign (s : string) : bool * string :=
  match s with
  | String "-" rest => (true, rest)
  | String "+" rest => (false, rest)
  | _ => (false, s)
  end.

(** [digits], [digits.], [digits.digits] or [.digits]: all digits read
    as one integer, how many of them stand behind the point, and the
    text left. *)
Definition numeral_mantissa (s : string) : option (Z * nat * string) :=
  let '(i, ni, r1) := numeral_digits 0 0 s in
  match r1 with
  | String "." r2 =>
      let '(m, nf, r3) := numeral_digits i 0 r2 in
      if (ni + nf =? 0)%nat then None else Some (m, nf, r3)
  | _ => if (ni =? 0)%nat then None else Some (i, 0%nat, r1)
  end.

(** An optional exponent: [e] or [E], an optional sign, digits. *)
Definition numeral_exponent (s : string) : option (Z * string) :=
  match s with
  | String c r =>
      if Ascii.eqb c "e" || Ascii.eqb c "E" then
        let '(negative, r1) := numeral_sign r in
        let '(e, n, r2) := numeral_digits 0 0 r1 in
        if (n =? 0)%nat then None
        else Some (if negative then (- e)%Z else e, r2)
      else Some (0%Z, s)
  | EmptyString => Some (0%Z, s)
  end.

Definition lower_ascii (c : ascii) : ascii :=
  let n := nat_of_ascii c in
  if ((65 <=? n) && (n <=? 90))%nat then ascii_of_nat (n + 32) else c.

Fixpoint lower (s : string) : string :=
  match s with
  | EmptyString => EmptyString
  | String c s' => String (lower_ascii c) (lower s')
  end.

(** [float(s)] for a string: white space around the text is dropped; a
    sign may be followed by [inf], [infinity] or [nan] in any case, or
    by a decimal numeral with an optional exponent, whose value is
    rounded to the nearest float.  [None] stands for the [ValueError]
    that any other text gets. *)
Definition float_of_string (s : string) : option pyfloat :=
  let '(negative, body) := numeral_sign (float_rstrip (float_lstrip s)) in
  let word := lower body in
  if String.eqb word "inf" || String.eqb word "infinity"
  then Some (Infinite negative)
  else if String.eqb word "nan" then Some NaN
  else
    match numeral_mantissa body with
    | Some (m, nf, r) =>
        match numeral_exponent r with
        | Some (e, EmptyString) =>
            let value := (inject_Z m * 10 ^ (e - Z.of_nat nf))%Q in
            Some (nearest_double (if negative then (- value)%Q else value))
        | _ => None
        end
    | None => None
    end.

(** [float(v)]: a float is returned as it is, an [int] is rounded to the
    nearest float and raises [OverflowError] beyond the range, a string
    is read as a numeral or raises [ValueError]; [None] and containers
    raise [TypeError]. *)
Definition builtin_float {G} (v : pyval) : M G pyfloat :=
  match v with
  | VNum q => mret (Finite q)
  | VInt z =>
      match nearest_double (inject_Z z) with
      | Finite q => mret (Finite q)
      | _ => raise OverflowError
      end
  | VStr s =>
      match float_of_string s with
      | Some f => mret f
      | None => raise ValueError
      end
  | _ => raise TypeError
  end.

(** [round(x)] for a float, without digits: the nearest integer; an
    infinity raises [OverflowError], a NaN [ValueError]. *)
Definition builtin_round {G} (f : pyfloat) : M G pyval :=
  match f with
  | Finite q => mret (VInt (py_round q))
  | Infinite _ => raise OverflowError
  | NaN => raise ValueError
  end.

Definition is_None (v : pyval) : bool :=
  match v with VNone => true | _ => false end.

(** [v == ""]. *)
Definition eq_empty_str (v : pyval) : bool :=
  match v with VStr EmptyString => true | _ => false end.

(** Truth value of a dict: non-empty. *)
Definition truthy (m : gmap string pyval) : bool := negb (size m =? 0)%nat.

(** [l.index(x)]: first position of [x], [ValueError] when absent. *)
Fixpoint list_index (x : string) (l : list string) : option nat :=
  match l with
  | [] => None
  | y :: l' => if String.eqb y x then Some 0%nat else S <$> list_index x l'
  end.

Definition index_of {G} (l : list string) (x : string) : M G nat :=
  match list_index x l with
  | Some i => mret i
  | None => raise ValueError
  end.

(** [l[i]] for a non-negative index. *)
Definition getitem {G A} (l : list A) (i : nat) : M G A :=
  match l !! i with
  | Some x => mret x
  | None => raise IndexError
  end.

(** [str.upper()] on ASCII letters. *)
Definition upper_ascii (c : ascii) : ascii :=
  let n := nat_of_ascii c in
  if ((97 <=? n) && (n <=? 122))%nat then ascii_of_nat (n - 32) else c.

Fixpoint upper (s : string) : string :=
  match s with
  | EmptyString => EmptyString
  | String c s' => String (upper_ascii c) (upper s')
  end.

(** ** Calling a method through an instance

    A plain function stored in a class is bound on attribute access, so
    the instance is passed as first positional argument; a [staticmethod]
    is handed out unbound and receives only the written arguments. *)
Inductive method_kind : Type := InstanceMethod | StaticMethod.

Record signature : Type := {
  kind : method_kind;
  required : list string;
  optional : list string
}.

Definition passed_args (sg : signature) (written : nat) : nat :=
  match kind sg with
  | InstanceMethod => S written
  | StaticMethod => written
  end.

(** Argument binding of a call [self.f(a1, ..., an)] with positional
    arguments only. *)
Definition call_method {G A} (sg : signature) (written : nat) (body : M G A)
    : M G A :=
  let n := passed_args sg written in
  if (n <? length (required sg))%nat then raise TypeError
  else if (length (required sg) + length (optional sg) <? n)%nat
       then raise TypeError
       else body.

End Py.
Import Py.

(* ===================================================================== *)
(** * random_stock_producer.py                                            *)
(* ===================================================================== *)

Module RandomStock.

(** The three module-level lists; the last two are mutated in place. *)
Record stocks : Type := Stocks {
  StockNames : list string;
  StockCurrentValues : list Q;
  StockUpProb : list Q
}.

Definition initial_stocks : stocks := {|
  StockNames :=
    ["Deja Brew"; "Jurassic Pork"; "Lawn & Order"; "Pita Pan"; "Bread Pitt";
     "Indiana Jeans"; "Thai Tanic"];
  StockCurrentValues :=
    [10 # 1; 201 # 10; 202 # 10; 121 # 10; 251 # 10; 251 # 10; 275 # 10]%Q;
  StockUpProb := [5 # 10; 6 # 10; 7 # 10; 8 # 10; 9 # 10; 4 # 10; 3 # 10]%Q
|}.

Definition ShuffleProb : Q := 2 # 10.
Definition ChangeAmount : Q := 8 # 10.

(** [StockCurrentValues[i] = v]. *)
Definition set_current_value (i : nat) (v : Q) : M stocks unit :=
  g ← get_globals;
  if (i <? length (StockCurrentValues g))%nat
  then put_globals (Stocks (StockNames g) (<[i := v]> (StockCurrentValues g))
                           (StockUpProb g))
  else raise IndexError.

(** [StockUpProb[i] = p]. *)
Definition set_up_prob (i : nat) (p : Q) : M stocks unit :=
  g ← get_globals;
  if (i <? length (StockUpProb g))%nat
  then put_globals (Stocks (StockNames g) (StockCurrentValues g)
                           (<[i := p]> (StockUpProb g)))
  else raise IndexError.

Definition stock_name : M stocks string :=
  g ← get_globals; random_choice (StockNames g).

Definition stock_value (stockname : string) : M stocks Q :=
  g ← get_globals;
  indexStock ← index_of (StockNames g) stockname;
  currentval ← getitem (StockCurrentValues g) indexStock;
  draw ← random_random;
  up ← getitem (StockUpProb g) indexStock;
  let goesup : Q := (if Qle_bool draw up then 1 else -1)%Q in
  magnitude ← random_random;
  let nextval := (currentval + magnitude * ChangeAmount * goesup)%Q in
  set_current_value indexStock nextval;;
  mret nextval.

Definition reshuffle_probs (stockname : string) : M stocks unit :=
  g ← get_globals;
  indexStock ← index_of (StockNames g) stockname;
  fresh ← random_random;
  set_up_prob indexStock fresh.

Definition produce_msg : M stocks (gmap string pyval * gmap string pyval) :=
  stockname ← stock_name;
  ts ← time_time;
  trigger ← random_random;
  (if negb (Qle_bool trigger ShuffleProb)
   then reshuffle_probs stockname
   else mret tt);;
  value ← stock_value stockname;
  let message : gmap string pyval :=
    <["timestamp" := VInt (py_int (ts * 1000))]>
      (<["stock_value" := VNum value]>
         (<["stock_name" := VStr stockname]> ∅)) in
  let key : gmap string pyval := <["user" := VStr "all_users"]> ∅ in
  mret (message, key).

(** [T] calls of [stock_value] on one stock, collecting what they return. *)
Fixpoint walk (T : nat) (stockname : string) : M stocks (list Q) :=
  match T with
  | O => mret []
  | S T' =>
      v ← stock_value stockname;
      vs ← walk T' stockname;
      mret (v :: vs)
  end.

(** The state of one stock, read by name as the code does. *)
Definition current_value_of (g : stocks) (stockname : string) : option Q :=
  i ← list_index stockname (StockNames g); StockCurrentValues g !! i.

Definition up_prob_of (g : stocks) (stockname : string) : option Q :=
  i ← list_index stockname (StockNames g); StockUpProb g !! i.

End RandomStock.

(* ===================================================================== *)
(** * user_behaviour_pattern.py                                           *)
(* ===================================================================== *)

Module UserBehaviour.

(** The pools that [__init__] stores on the instance. *)
Record provider : Type := {
  user_ids : list Z;
  item_ids : list Z;
  behavior_names : list string;
  group_names : list string;
  view_ids : list Z
}.

Definition new_provider : provider := {|
  user_ids := [1; 2; 3; 4; 5; 6; 7; 8; 9]%Z;
  item_ids := [21; 22; 23; 24; 25; 26; 27; 28; 29]%Z;
  behavior_names := ["view"; "cart"; "buy"];
  group_names := ["A"; "B"];
  view_ids := [111; 222; 555]%Z
|}.

(** [def m(self)]: a plain method without further parameters. *)
Definition plain_method : signature :=
  {| kind := InstanceMethod; required := ["self"]; optional := [] |}.

(** [@staticmethod def generate_timestamp(self, offset_seconds=0)]. *)
Definition generate_timestamp_sig : signature :=
  {| kind := StaticMethod;
     required := ["self"];
     optional := ["offset_seconds"] |}.

Section WithClock.

(** [datetime.datetime.fromtimestamp(ts).strftime("%Y-%m-%d %H:%M:%S")];
    the calendar and the local time zone are left to the caller. *)
Variable strftime : Q -> string.

Definition user_id (self : provider) : M unit Z :=
  random_choice (user_ids self).

Definition item_id (self : provider) : M unit Z :=
  random_choice (item_ids self).

Definition behavior (self : provider) : M unit string :=
  random_choices1 (behavior_names self) [5 # 10; 3 # 10; 2 # 10]%Q.

Definition group_name (self : provider) : M unit string :=
  random_choice (group_names self).

Definition view_id (self : provider) : M unit Z :=
  random_choice (view_ids self).

Definition generate_timestamp (offset_seconds : Q) : M unit string :=
  t ← time_time;
  jitter ← random_uniform (-5) 5;
  mret (strftime (t + jitter + offset_seconds)%Q).

Definition produce_msg (self : provider) (include_view_id : bool)
    : M unit (gmap string pyval * gmap string pyval) :=
  b ← call_method plain_method 0 (behavior self);
  view ← (if String.eqb b "view" && include_view_id
          then v ← call_method plain_method 0 (view_id self); mret (VInt v)
          else mret VNone);
  uid ← call_method plain_method 0 (user_id self);
  iid ← call_method plain_method 0 (item_id self);
  grp ← call_method plain_method 0 (group_name self);
  occurred ← call_method generate_timestamp_sig 0 (generate_timestamp 0);
  let message : gmap string pyval :=
    <["occurred_at" := VStr occurred]>
      (<["group_name" := VStr grp]>
         (<["view_id" := view]>
            (<["behavior" := VStr b]>
               (<["item_id" := VInt iid]>
                  (<["user_id" := VInt uid]> ∅))))) in
  let key : gmap string pyval := <["user" := VStr "all_users"]> ∅ in
  mret (message, key).

End WithClock.

End UserBehaviour.

(* ===================================================================== *)
(** * real_stock_producer.py                                              *)
(* ===================================================================== *)

Module RealStock.

Definition STOCK_SYMBOLS : list string :=
  ["BTC-USD"; "ETH-USD"; "BNB-USD"; "ADA-USD"; "DOGE-USD"; "SOL-USD";
   "XRP-USD"; "LTC-USD"; "DOT-USD"].

(** The value returned when no price could be fetched. *)
Definition sentinel : pyval := VNum (-1 # 10).

Definition is_query (src : source) (ev : event) : bool :=
  match ev, src with
  | Query YahooFin _, YahooFin => true
  | Query YFinance _, YFinance => true
  | _, _ => false
  end.

(** How many calls a service has received so far. *)
Definition count_queries (src : source) (tr : list event) : nat :=
  length (List.filter (is_query src) tr).

Section WithServices.

(** The two remote services: what the [n]-th call for a symbol gives.
    [get_live_price] stands for [si.get_live_price(symbol)], [last_close]
    for [yf.Ticker(symbol).history(period='1d')['Close'].iloc[-1]]. *)
Variable get_live_price : string -> nat -> outcome pyval.
Variable last_close : string -> nat -> outcome pyval.

Definition query (src : source) (symbol : string) : M unit pyval :=
  fun w =>
    let n := count_queries src (trace w) in
    let answer :=
      match src with
      | YahooFin => get_live_price symbol n
      | YFinance => last_close symbol n
      end in
    (answer,
     World (globals w) (gen w) (now w) (trace w ++ [Query src symbol])).

Definition stock_name : M unit string := random_choice STOCK_SYMBOLS.

Definition _fetch_from_yfinance (stock_name : string) : M unit pyval :=
  try_except
    (stock_value ← query YFinance stock_name;
     f ← builtin_float stock_value;
     builtin_round f)
    (fun e => log_failure WARNING e;; mret sentinel).

(** The decorated function body: one attempt. *)
Definition stock_value_attempt (stock_name : string) : M unit pyval :=
  try_except
    (stock_value ← query YahooFin (upper stock_name);
     if is_None stock_value || eq_empty_str stock_value
     then raise ValueError
     else builtin_round2 stock_value)
    (fun e =>
       match e with
       | ValueError | KeyError =>
           log_failure WARNING e;; _fetch_from_yfinance stock_name
       | _ => log_failure WARNING e;; mret sentinel
       end).

(** [tenacity.retry(stop=stop_after_attempt(n), wait=wait_fixed(d))]:
    an attempt that raises an [Exception] is repeated after [d] seconds
    until [n] attempts are used up, then [RetryError] is raised. *)
Fixpoint retry_loop {A} (wait : Q) (remaining : nat) (f : M unit A)
    {struct remaining} : M unit A :=
  fun w =>
    match f w with
    | (Ok a, w') => (Ok a, w')
    | (Raise e, w') =>
        if is_Exception e then
          match remaining with
          | O => (Raise RetryError, w')
          | S r => (time_sleep wait;; retry_loop wait r f) w'
          end
        else (Raise e, w')
    end.

Definition retry {A} (attempts : nat) (wait : Q) (f : M unit A) : M unit A :=
  retry_loop wait (attempts - 1) f.

Definition stock_value (stock_name : string) : M unit pyval :=
  retry 15 2 (stock_value_attempt stock_name).

Definition is_RetryError (e : exn) : bool :=
  match e with RetryError => true | _ => false end.

Definition produce_msg : M unit (gmap string pyval * gmap string pyval) :=
  name ← stock_name;
  value ← try_except_only is_RetryError (stock_value name)
            (fun _ => mret (VStr "Data Unavailable"));
  t ← time_time;
  let message : gmap string pyval :=
    <["timestamp" := VInt (py_int (t * 1000))]>
      (<["stock_value" := value]>
         (<["stock_name" := VStr name]> ∅)) in
  let key : gmap string pyval := <["stock_name" := VStr name]> ∅ in
  mret (message, key).

End WithServices.

(** Answers of the first service after which the code turns to the
    second: [None], the empty string, or a raised [ValueError] or
    [KeyError]. *)
Definition triggers_fallback (o : outcome pyval) : bool :=
  match o with
  | Ok VNone | Ok (VStr EmptyString) => true
  | Raise ValueError | Raise KeyError => true
  | _ => false
  end.

(** The first service fails when it raises an [Exception] or answers with
    something that is not a number: [None] and the empty string send the
    code to the second service, any other answer has no [round(_, 2)]. *)
Definition primary_fails (o : outcome pyval) : bool :=
  match o with
  | Raise e => is_Exception e
  | Ok (VNum _) | Ok (VInt _) => false
  | Ok _ => true
  end.

(** The second service fails when it raises an [Exception] or answers
    with something that [round(float(_))] has no integer for: [None], a
    container, an [int] beyond the range of floats, or a string that is
    not the numeral of a finite number. *)
Definition secondary_fails (o : outcome pyval) : bool :=
  match o with
  | Raise e => is_Exception e
  | Ok (VNum _) => false
  | Ok (VInt z) => negb (is_finite (nearest_double (inject_Z z)))
  | Ok (VStr s) =>
      is_ascii_text s &&
      match float_of_string s with
      | Some (Finite _) => false
      | _ => true
      end
  | Ok _ => true
  end.

End RealStock.

(* ===================================================================== *)
(** * metric_provider.py and metricadvancedproducer.py                    *)
(* ===================================================================== *)

Module Metric.

Definition _VALID_HOSTNAMES : list string :=
  ["doc"; "grumpy"; "sleepy"; "bashful"; "happy"; "sneezy"; "dopey"].

Definition _VALID_CPUS : list string :=
  ["cpu1"; "cpu2"; "cpu3"; "cpu4"; "cpu5"].

Definition hostname : M unit string := random_choice _VALID_HOSTNAMES.

Definition cpu_id : M unit string := random_choice _VALID_CPUS.

Definition usage : M unit Q :=
  u ← random_uniform 70 100; mret (py_round2 u).

Definition produce_msg : M unit (gmap string pyval * gmap string pyval) :=
  t ← time_time;
  let ts := py_int (t * 1000) in
  host ← hostname;
  cpu ← cpu_id;
  use ← usage;
  let message : gmap string pyval :=
    <["occurred_at" := VInt ts]>
      (<["usage" := VNum use]>
         (<["cpu" := VStr cpu]>
            (<["hostname" := VStr host]> ∅))) in
  let key : gmap string pyval := <["hostname" := VStr host]> ∅ in
  mret (message, key).

End Metric.

Module MetricAdvanced.

(** The instance: the two bounds given on the command line. *)
Record provider : Type := { host : Z; cpu : Z }.

Definition hostname (self : provider) : M unit string :=
  n ← random_randint 0 (host self); mret ("hostname" +:+ pretty n).

Definition cpu_id (self : provider) : M unit string :=
  n ← random_randint 0 (cpu self); mret ("cpu" +:+ pretty n).

Definition usage : M unit Q :=
  u ← random_uniform 70 100; mret (py_round2 u).

(** The statements under [try:]. *)
Definition produce_msg_body (self : provider)
    : M unit (gmap string pyval * gmap string pyval) :=
  name ← hostname self;
  t ← time_time;
  let ts := py_int (t * 1000) in
  c ← cpu_id self;
  use ← usage;
  let message : gmap string pyval :=
    <["occurred_at" := VInt ts]>
      (<["usage" := VNum use]>
         (<["cpu" := VStr c]>
            (<["hostname" := VStr name]> ∅))) in
  let key : gmap string pyval := <["hostname" := VStr name]> ∅ in
  log_message INFO message;;
  mret (message, key).

Definition produce_msg (self : provider)
    : M unit (gmap string pyval * gmap string pyval) :=
  try_except (produce_msg_body self)
    (fun e => log_failure ERROR e;; mret (∅, ∅)).

End MetricAdvanced.

(* ===================================================================== *)
(** * pizza_producer.py                                                   *)
(* ===================================================================== *)

Module Pizza.

Definition PIZZA_NAMES : list string :=
  ["Margherita"; "Marinara"; "Diavola"; "Mari & Monti"; "Salami"; "Peperoni"].

Definition TOPPINGS : list string :=
  ["🍅 tomato"; "🧀 blue cheese"; "🥚 egg"; "🫑 green peppers";
   "🌶️ hot pepper"; "🥓 bacon"; "🫒 olives"; "🧄 garlic"; "🐟 tuna";
   "🧅 onion"; "🍍 pineapple"; "🍓 strawberry"; "🍌 banana"].

Definition PIZZA_SHOPS : list string :=
  ["Mario's Pizza"; "Luigi's Pizza"; "Circular Pi Pizzeria";
   "I'll Make You a Pizza You Can't Refuse"; "Mammamia Pizza";
   "It's-a me! Mario Pizza!"].

Definition pizza_name : M unit string := random_choice PIZZA_NAMES.
Definition pizza_topping : M unit string := random_choice TOPPINGS.
Definition pizza_shop : M unit string := random_choice PIZZA_SHOPS.

(** [[c for _ in range(n)]]. *)
Fixpoint comprehension {A} (n : nat) (c : M unit A) : M unit (list A) :=
  match n with
  | O => mret []
  | S n' => x ← c; xs ← comprehension n' c; mret (x :: xs)
  end.

(** [m[k]] on a dict. *)
Definition dict_get (m : gmap string pyval) (k : string) : M unit pyval :=
  match m !! k with
  | Some v => mret v
  | None => raise KeyError
  end.

Section WithFaker.

(** The three generators of the [Faker] instance passed by the caller. *)
Variable unique_name : M unit string.
Variable unique_phone_number : M unit string.
Variable address : M unit string.

Definition one_pizza (max_toppings_in_pizza : Z) : M unit pyval :=
  name ← pizza_name;
  k ← random_randint 0 max_toppings_in_pizza;
  toppings ← comprehension (Z.to_nat k) pizza_topping;
  mret (VDict (<["additional_toppings" := VList (VStr <$> toppings)]>
                 (<["pizza_name" := VStr name]> ∅))).

Definition produce_msg (order_count max_pizzas_in_order
                         max_toppings_in_pizza : Z)
    : M unit (gmap string pyval * gmap string pyval) :=
  n ← random_randint 1 max_pizzas_in_order;
  pizzas ← comprehension (Z.to_nat n) (one_pizza max_toppings_in_pizza);
  shop ← pizza_shop;
  name ← unique_name;
  phone ← unique_phone_number;
  addr ← address;
  t ← time_time;
  let message : gmap string pyval :=
    <["timestamp" := VInt (py_int (t * 1000))]>
      (<["pizzas" := VList pizzas]>
         (<["address" := VStr addr]>
            (<["phone_number" := VStr phone]>
               (<["name" := VStr name]>
                  (<["shop" := VStr shop]>
                     (<["id" := VInt order_count]> ∅)))))) in
  shop_field ← dict_get message "shop";
  let key : gmap string pyval := <["shop" := shop_field]> ∅ in
  mret (message, key).

End WithFaker.

End Pizza.

(* ===================================================================== *)
(** * bet_data_producer.py                                                *)
(* ===================================================================== *)

Module Bets.

Definition MIN_AMOUNT : Q := 2.
Definition MAX_AMOUNT : Q := 1000.

Definition RISK_FACTORS : gmap string Q :=
  <["low_risk" := (3 # 10)%Q]>
    (<["casual" := (5 # 10)%Q]> (<["high_risk" := (8 # 10)%Q]> ∅)).

Definition bet_event (category subcategory event : string)
    : gmap string pyval :=
  <["event" := VStr event]>
    (<["subcategory" := VStr subcategory]>
       (<["category" := VStr category]> ∅)).

Record provider : Type := {
  valid_usernames : list string;
  valid_events : list (gmap string pyval)
}.

Definition new_provider : provider := {|
  valid_usernames :=
    ["nopineappleonpizza"; "catanzaro99"; "thedoctor"; "bettingexpert01";
     "losingmoney66"; "manutd007"; "manutd009"; "citylife1"; "lysa_X";
     "aiventest"];
  valid_events :=
    [bet_event "Sport" "Football" "ManUTD vs Chelsea";
     bet_event "Sport" "Box" "Chicken Legs vs Power Kick";
     bet_event "Sport" "Curling" "Italy vs England";
     bet_event "Sport" "Netball" "Sydney vs Canberra";
     bet_event "Lottery" "Bingo" "UK Bingo";
     bet_event "Lottery" "WinForLife" "Win For Life America";
     bet_event "Event" "Music" "Rick Astley #1 in World Charts";
     bet_event "Event" "Politics" "Mickey Mouse new Italian President";
     bet_event "Event" "Celebrities" "Donald Duck and Marge Simpson Wedding"]
|}.

Definition dict_get (m : gmap string pyval) (k : string) : M unit pyval :=
  match m !! k with
  | Some v => mret v
  | None => raise KeyError
  end.

Definition username (self : provider) : M unit string :=
  random_choice (valid_usernames self).

Definition bet_amount (risk_profile : string) : M unit Q :=
  let risk_factor := default (5 # 10)%Q (RISK_FACTORS !! risk_profile) in
  base_amount ← random_uniform MIN_AMOUNT (MAX_AMOUNT * risk_factor);
  mret (py_round2 base_amount).

Definition bet_category_event (self : provider) : M unit (gmap string pyval) :=
  random_choice (valid_events self).

(** [@staticmethod def generate_timestamp(offset_seconds=0)]. *)
Definition generate_timestamp_sig : signature :=
  {| kind := StaticMethod; required := []; optional := ["offset_seconds"] |}.

Definition generate_timestamp (offset_seconds : Q) : M unit Z :=
  t ← time_time; mret (py_int ((t + offset_seconds) * 1000)).

Definition dynamic_key (event : gmap string pyval)
    : M unit (gmap string pyval) :=
  e ← dict_get event "event";
  c ← dict_get event "category";
  s ← dict_get event "subcategory";
  mret (<["subcategory" := s]> (<["category" := c]> (<["event" := e]> ∅))).

Definition produce_msg (self : provider) (risk_profile : string)
    : M unit (gmap string pyval * gmap string pyval) :=
  user ← username self;
  amount ← bet_amount risk_profile;
  event ← bet_category_event self;
  c ← dict_get event "category";
  s ← dict_get event "subcategory";
  e ← dict_get event "event";
  ts ← call_method generate_timestamp_sig 0 (generate_timestamp 0);
  let message : gmap string pyval :=
    <["timestamp" := VInt ts]>
      (<["amount" := VNum amount]>
         (<["event" := VDict (<["name" := e]>
                               (<["subcategory" := s]>
                                  (<["category" := c]> ∅)))]>
            (<["username" := VStr user]> ∅))) in
  key ← dynamic_key event;
  mret (message, key).

End Bets.

(* ===================================================================== *)
(** * The emission loop at the end of every script                        *)
(* ===================================================================== *)

Module Loop.

Section WithProducer.

Context {G : Type}.

(** [produce_msg] of the script, and the call that hands the message on
    ([logger.info] in every script). *)
Variable produce : M G (gmap string pyval * gmap string pyval).
Variable hand_over : gmap string pyval -> M G unit.

(** The statements under [try:] of one pass. *)
Definition iteration_body : M G unit :=
  '(message, key) ← produce;
  (if truthy message then hand_over message else mret tt);;
  pause ← random_uniform 1 5;
  time_sleep pause.

(** One pass of [while True]. *)
Definition iteration : M G unit :=
  try_except iteration_body
    (fun e => log_failure CRITICAL e;; time_sleep 5).

(** The first [n] passes.  [Ok] means that the loop is about to start
    pass [n + 1]; [Raise e] means that [e] left the loop and ended it. *)
Fixpoint run (n : nat) : M G unit :=
  match n with
  | O => mret tt
  | S n' => iteration;; run n'
  end.

End WithProducer.

(** Number of lines logged at level [CRITICAL]. *)
Definition is_critical (ev : event) : bool :=
  match ev with
  | LogFailure CRITICAL _ => true
  | _ => false
  end.

Definition count_critical (tr : list event) : nat :=
  length (List.filter is_critical tr).

(** The world after the [except] branch has handled [e] raised in world
    [w]: one critical log line, then five seconds of sleep. *)
Definition recovered {G} (e : exn) (w : world G) : world G :=
  World (globals w) (gen w) (now w + 5)%Q
        (trace w ++ [LogFailure CRITICAL e; Sleep 5]).

End Loop.

(** The loops of the scripts. *)
Definition random_stock_main (n : nat) : M RandomStock.stocks unit :=
  Loop.run RandomStock.produce_msg (log_message INFO) n.

Definition user_behaviour_main (strftime : Q -> string) (n : nat)
    : M unit unit :=
  Loop.run (UserBehaviour.produce_msg strftime UserBehaviour.new_provider true)
           (log_message INFO) n.

Definition real_stock_main (get_live_price last_close : string -> nat -> outcome pyval)
    (n : nat) : M unit unit :=
  Loop.run (RealStock.produce_msg get_live_price last_close)
           (log_message INFO) n.

Definition metric_advanced_main (host cpu : Z) (n : nat) : M unit unit :=
  Loop.run (MetricAdvanced.produce_msg
              {| MetricAdvanced.host := host; MetricAdvanced.cpu := cpu |})
           (log_message INFO) n.

(* ===================================================================== *)
(** * Reading the generator                                               *)
(* ===================================================================== *)

(** The number that the next [random.random()] returns, and the generator
    after one draw. *)
Definition unit_draw (g : rng) : Q :=
  Qmake (Z.of_N (raw g (pos g) mod 2 ^ 53)) (2 ^ 53)%positive.

Definition advance (g : rng) : rng := {| raw := raw g; pos := S (pos g) |}.

(** A generator whose every raw word is [k]. *)
Definition constant_rng (k : N) : rng := {| raw := fun _ => k; pos := 0 |}.

(** The world [w] after one more event. *)
Definition record_event {G} (w : world G) (ev : event) : world G :=
  World (globals w) (gen w) (now w) (trace w ++ [ev]).

(** The world at process start for globals [g]. *)
Definition start {G} (g : G) (r : rng) : world G := World g r 0 [].

(* ===================================================================== *)
(** * read_server_config (the same function in every script)              *)
(* ===================================================================== *)

Module ServerConfig.

(** The state of a [ConfigParser]: the options of the DEFAULT section
    and the options of every other section, option names already in
    lower case as the parser stores them. *)
Record config : Type := Config {
  cp_defaults : gmap string string;
  cp_sections : gmap string (gmap string string)
}.


(** The dict [defaults] of the function, in its written order. *)
Definition defaults : list (string * string) :=
  [("user", "KAFKA_USER");
   ("password", "KAFKA_PASSWORD");
   ("cafile", "KAFKA_CA_CRT");
   ("bootstrap_servers", "localhost:9092");
   ("ssl_check_hostname", "true");
   ("topic", "debug-tool-01");
   ("topic_replication_factor", "1");
   ("topic_retention_ms", "15552000000");
   ("flush_timeout_s", "60.0")].

(** [d[key]] on the dict above. *)
Fixpoint dict_item (key : string) (d : list (string * string))
    : option string :=
  match d with
  | [] => None
  | (k, v) :: d' => if String.eqb k key then Some v else dict_item key d'
  end.

(** [name in cfg]. *)
Definition contains (cfg : config) (name : string) : bool :=
  String.eqb name "DEFAULT" ||
  match cp_sections cfg !! name with Some _ => true | None => false end.

(** [cfg[name] = {}] for a section that is not there yet. *)
Definition add_empty_section (cfg : config) (name : string) : config :=
  Config (cp_defaults cfg) (<[name := ∅]> (cp_sections cfg)).

(** [cfg.has_option(section, option)] for a section other than DEFAULT:
    the option may also come from the DEFAULT section. *)
Definition has_option (cfg : config) (section opt : string) : bool :=
  match cp_sections cfg !! section with
  | None => false
  | Some d =>
      match d !! opt, cp_defaults cfg !! opt with
      | None, None => false
      | _, _ => true
      end
  end.

(** The stored text of an option: the section's own entry, else the one
    of DEFAULT. *)
Definition raw_option (cfg : config) (section opt : string)
    : option string :=
  match cp_sections cfg !! section with
  | None => None
  | Some d =>
      match d !! opt with
      | Some v => Some v
      | None => cp_defaults cfg !! opt
      end
  end.

Section WithInterpolation.

(** The interpolation of [ConfigParser]: [before_get] expands the
    [%(name)s] references of a stored text ([None] when it cannot, which
    raises [interpolation_error]); [before_set] tells whether a text may
    be stored (it may not when it has a stray [%]). *)
Variable before_get : config -> string -> string -> string -> option string.
Variable interpolation_error : exn.
Variable before_set : string -> bool.

(** [cfg.get(section, option)]. *)
Definition get_option (cfg : config) (section opt : string)
    : outcome string :=
  match raw_option cfg section opt with
  | None => Raise KeyError
  | Some raw =>
      match before_get cfg section opt raw with
      | Some v => Ok v
      | None => Raise interpolation_error
      end
  end.

(** [cfg.set(section, option, value)]. *)
Definition set_option (cfg : config) (section opt value : string)
    : outcome config :=
  match cp_sections cfg !! section with
  | None => Raise KeyError
  | Some d =>
      if negb (String.eqb value "") && negb (before_set value)
      then Raise ValueError
      else Ok (Config (cp_defaults cfg)
                      (<[section := <[opt := value]> d]> (cp_sections cfg)))
  end.

Definition is_KeyError (e : exn) : bool :=
  match e with KeyError => true | _ => false end.

(** [cfg['kafka'].setdefault(key, default)]: read the option; only when
    that raises [KeyError], store the default. *)
Definition setdefault (cfg : config) (key default : string)
    : outcome config :=
  let read :=
    if has_option cfg "kafka" key then get_option cfg "kafka" key
    else Raise KeyError in
  match read with
  | Ok _ => Ok cfg
  | Raise e =>
      if is_KeyError e then set_option cfg "kafka" key default
      else Raise e
  end.

(** The [for] loop over [defaults.items()]. *)
Fixpoint fill (environ : gmap string string) (items : list (string * string))
    (cfg : config) : outcome config :=
  match items with
  | [] => Ok cfg
  | (key, env_var) :: rest =>
      match dict_item key defaults with
      | None => Raise KeyError
      | Some fallback =>
          match setdefault cfg key (default fallback (environ !! env_var)) with
          | Ok cfg' => fill environ rest cfg'
          | Raise e => Raise e
          end
      end
  end.

Definition lift {A} (o : outcome A) : M unit A := fun w => (o, w).

(** [read_server_config]: [parsed] is what [cfg.read(config_file)] made
    of the file (the empty state for a missing file, an exception for a
    file that does not parse). *)
Definition read_server_config (parsed : outcome config)
    (environ : gmap string string) : M unit config :=
  try_except
    (cfg ← lift parsed;
     let cfg := if contains cfg "kafka" then cfg
                else add_empty_section cfg "kafka" in
     lift (fill environ defaults cfg))
    (fun e => log_failure ERROR e;; raise e).

End WithInterpolation.

End ServerConfig.

(* ===================================================================== *)
(** * utils/use_version.py                                                *)
(* ===================================================================== *)

Module UseVersion.

(** Text is taken as ASCII, one character per byte. *)

(** [s.startswith(p)]. *)
Fixpoint startswith (p s : string) : bool :=
  match p, s with
  | EmptyString, _ => true
  | String a p', String b s' => Ascii.eqb a b && startswith p' s'
  | String _ _, EmptyString => false
  end.

(** [s.split(sep)] for a separator of one character: the pieces between
    the separators, never an empty list. *)
Fixpoint split (sep : ascii) (s : string) : list string :=
  match s with
  | EmptyString => [EmptyString]
  | String a s' =>
      if Ascii.eqb a sep then EmptyString :: split sep s'
      else match split sep s' with
           | piece :: pieces => String a piece :: pieces
           | [] => [String a EmptyString]
           end
  end.

(** The white space that [str.strip()] removes. *)
Definition is_space (a : ascii) : bool :=
  let n := nat_of_ascii a in
  ((9 <=? n) && (n <=? 13) || (28 <=? n) && (n <=? 32))%nat.

Definition is_quote (a : ascii) : bool := Ascii.eqb a "'"%char.

Definition is_empty (s : string) : bool :=
  match s with EmptyString => true | String _ _ => false end.

Fixpoint lstrip_by (drop : ascii -> bool) (s : string) : string :=
  match s with
  | EmptyString => EmptyString
  | String a s' => if drop a then lstrip_by drop s' else s
  end.

Fixpoint rstrip_by (drop : ascii -> bool) (s : string) : string :=
  match s with
  | EmptyString => EmptyString
  | String a s' =>
      let rest := rstrip_by drop s' in
      if is_empty rest && drop a then EmptyString else String a rest
  end.

(** [s.strip()] and [s.strip(chars)]. *)
Definition strip_by (drop : ascii -> bool) (s : string) : string :=
  lstrip_by drop (rstrip_by drop s).

(** What [open('_version.py', 'r')] and reading the lines give. *)
Inductive opened : Type :=
  | Lines (lines : list string)
  | FileNotFound
  | ReadFails (e : exn).

(** What [version()] does: it returns the text found in the file, or
    logs an error and returns the time stamp (for a missing file, or
    after [IndexError] or [ValueError]), or lets an exception pass. *)
Inductive cause : Type :=
  | FileNotFoundError
  | Caught (e : exn).

Inductive version_result : Type :=
  | FromFile (text : string)
  | TimeStamp (logged : cause) (stamp : string)
  | Passes (e : exn).

(** [line.split('=')[1].strip().strip("'")]. *)
Definition version_of_line (line : string) : outcome string :=
  match split "="%char line !! 1%nat with
  | None => Raise IndexError
  | Some piece => Ok (strip_by is_quote (strip_by is_space piece))
  end.

(** The [for] loop with the [raise] after it. *)
Fixpoint scan (lines : list string) : outcome string :=
  match lines with
  | [] => Raise ValueError
  | line :: rest =>
      if startswith "__version__" line then version_of_line line
      else scan rest
  end.

Definition is_caught (e : exn) : bool :=
  match e with IndexError | ValueError => true | _ => false end.

(** [version()]; [stamp] is [datetime.now().strftime('%Y%m%d%H%M%S')]. *)
Definition version (file : opened) (stamp : string) : version_result :=
  let attempt :=
    match file with
    | Lines lines => Some (scan lines)
    | FileNotFound => None
    | ReadFails e => Some (Raise e)
    end in
  match attempt with
  | None => TimeStamp FileNotFoundError stamp
  | Some (Ok text) => FromFile text
  | Some (Raise e) =>
      if is_caught e then TimeStamp (Caught e) stamp else Passes e
  end.

(** The text that the caller gets, if any. *)
Definition returned (r : version_result) : option string :=
  match r with
  | FromFile text => Some text
  | TimeStamp _ stamp => Some stamp
  | Passes _ => None
  end.

End UseVersion.

(** The line feed. *)
Definition LF : string := String "010"%char EmptyString.

(** A text from which [drop] strips nothing. *)
Definition trimmed (drop : ascii -> bool) (s : string) : Prop :=
  UseVersion.lstrip_by drop s = s /\ UseVersion.rstrip_by drop s = s.

(** The characters of a text. *)
Fixpoint chars (s : string) : list ascii :=
  match s with
  | EmptyString => []
  | String a s' => a :: chars s'
  end.

(* ===================================================================== *)
(** * Reading the state and the trace                                     *)
(* ===================================================================== *)

(** The three lists of the random stock producer line up: one value and
    one probability per name, and there is a name to choose. *)
Definition lists_line_up (g : RandomStock.stocks) : Prop :=
  RandomStock.StockNames g <> [] /\
  length (RandomStock.StockCurrentValues g) = length (RandomStock.StockNames g) /\
  length (RandomStock.StockUpProb g) = length (RandomStock.StockNames g).

Definition level_eqb (a b : level) : bool :=
  match a, b with
  | INFO, INFO | WARNING, WARNING | ERROR, ERROR | CRITICAL, CRITICAL => true
  | _, _ => false
  end.

(** Is the event a log line of the given level? *)
Definition logged_at (lvl : level) (ev : event) : bool :=
  match ev with
  | LogMessage l _ | LogFailure l _ => level_eqb l lvl
  | _ => false
  end.

Definition count_logged (lvl : level) (tr : list event) : nat :=
  length (List.filter (logged_at lvl) tr).

Definition is_sleep (ev : event) : bool :=
  match ev with Sleep _ => true | _ => false end.

Definition count_sleeps (tr : list event) : nat :=
  length (List.filter is_sleep tr).

(** Is the value a number ([int] or [float])? *)
Definition is_number (v : pyval) : bool :=
  match v with VInt _ | VNum _ => true | _ => false end.

(** One entry of the "pizzas" list of a pizza order. *)
Definition pizza_entry (name : string) (toppings : list string) : pyval :=
  VDict (<["additional_toppings" := VList (VStr <$> toppings)]>
           (<["pizza_name" := VStr name]> ∅)).

(** An entry with a known pizza name and at most [max_toppings] known
    toppings. *)
Definition pizza_within (max_toppings : Z) (p : pyval) : Prop :=
  exists name toppings,
    p = pizza_entry name toppings /\
    name ∈ Pizza.PIZZA_NAMES /\
    (Z.of_nat (length toppings) <= max_toppings)%Z /\
    Forall (fun t => t ∈ Pizza.TOPPINGS) toppings.

(** The [kafka] section of a configuration is there. *)
Definition has_kafka (cfg : ServerConfig.config) : Prop :=
  is_Some (ServerConfig.cp_sections cfg !! "kafka").

(** A sample for [read_server_config]: a file with [topic] in its
    [kafka] section and [user] in DEFAULT, an environment that sets
    KAFKA_USER and KAFKA_PASSWORD, and an interpolation that finds
    nothing to expand and nothing to refuse. *)
Definition sample_file : ServerConfig.config :=
  ServerConfig.Config (<["user" := "from-default-section"]> ∅)
                      (<["kafka" := <["topic" := "orders"]> ∅]> ∅).

Definition sample_environ : gmap string string :=
  <["KAFKA_PASSWORD" := "secret"]> (<["KAFKA_USER" := "alice"]> ∅).

Definition sample_get
    : ServerConfig.config -> string -> string -> string -> option string :=
  fun _ _ _ raw => Some raw.

Definition sample_set : string -> bool := fun _ => true.

(* ===================================================================== *)
(** * Properties                                                          *)
(* ===================================================================== *)

Section MonadFacts.

Context {G : Type}.

Lemma random_random_run (w : world G) :
  random_random w =
  (Ok (unit_draw (gen w)),
   World (globals w) (advance (gen w)) (now w) (trace w)).
Proof. reflexivity. Qed.

Lemma bind_ok {A B} (c : M G A) (k : A -> M G B) w a w' :
  c w = (Ok a, w') -> (x ← c; k x) w = k a w'.
Proof. intros H. unfold mbind, M_bind, bind. now rewrite H. Qed.

Lemma bind_raise {A B} (c : M G A) (k : A -> M G B) w e w' :
  c w = (Raise e, w') -> (x ← c; k x) w = (Raise e, w').
Proof. intros H. unfold mbind, M_bind, bind. now rewrite H. Qed.

Lemma unit_draw_nonneg (g : rng) : (0 <= unit_draw g)%Q.
Proof.
  unfold unit_draw, Qle. cbn [Qnum Qden]. rewrite Z.mul_1_r.
  change (0 * _)%Z with 0%Z. apply N2Z.is_nonneg.
Qed.

Lemma unit_draw_lt_1 (g : rng) : (unit_draw g < 1)%Q.
Proof.
  unfold unit_draw, Qlt. cbn [Qnum Qden]. rewrite Z.mul_1_r, Z.mul_1_l.
  pose proof (N.mod_lt (raw g (pos g)) (2 ^ 53)) as H.
  assert (Hne : (2 ^ 53)%N <> 0%N) by (vm_compute; discriminate).
  specialize (H Hne).
  change (Z.pos (2 ^ 53)) with (Z.of_N (2 ^ 53)).
  apply N2Z.inj_lt. exact H.
Qed.

End MonadFacts.

Section RandomStockFacts.

Import RandomStock.

Implicit Types (w : world stocks) (name : string).

Lemma list_index_lookup x (l : list string) i :
  list_index x l = Some i -> l !! i = Some x.
Proof.
  revert i. induction l as [|y l IH]; intros i; simpl; [discriminate|].
  destruct (String.eqb y x) eqn:E.
  - intros [= <-]. apply String.eqb_eq in E. now subst.
  - destruct (list_index x l) as [j|]; simpl; [|discriminate].
    intros [= <-]. simpl. now apply IH.
Qed.

Lemma list_index_found x (l : list string) :
  x ∈ l -> exists i, list_index x l = Some i.
Proof.
  induction l as [|y l IH]; intros Hin; [inversion Hin|].
  simpl. destruct (String.eqb y x) eqn:E; [eauto|].
  apply String.eqb_neq in E. inversion Hin; subst; [congruence|].
  destruct IH as [i ->]; eauto.
Qed.

Lemma list_index_distinct x y (l : list string) i j :
  x <> y -> list_index x l = Some i -> list_index y l = Some j -> i <> j.
Proof.
  intros Hne Hx Hy ->.
  apply list_index_lookup in Hx, Hy. congruence.
Qed.

(** What one call of [stock_value] does when the stock is known. *)
Lemma stock_value_run name w i v p :
  list_index name (StockNames (globals w)) = Some i ->
  StockCurrentValues (globals w) !! i = Some v ->
  StockUpProb (globals w) !! i = Some p ->
  let nextval :=
    (v + unit_draw (advance (gen w)) * ChangeAmount *
         (if Qle_bool (unit_draw (gen w)) p then 1 else -1))%Q in
  stock_value name w =
  (Ok nextval,
   World (Stocks (StockNames (globals w))
                 (<[i := nextval]> (StockCurrentValues (globals w)))
                 (StockUpProb (globals w)))
         (advance (advance (gen w))) (now w) (trace w)).
Proof.
  intros Hi Hv Hp nextval.
  assert (Hlen : (i <? length (StockCurrentValues (globals w)))%nat = true).
  { apply Nat.ltb_lt. eapply lookup_lt_Some; eauto. }
  unfold stock_value, index_of, getitem, set_current_value.
  unfold mbind, M_bind, bind, get_globals.
  rewrite Hi. unfold mret, M_ret, ret. rewrite Hv.
  rewrite random_random_run. cbn [gen globals now trace].
  rewrite Hp. rewrite random_random_run. cbn [gen globals now trace].
  rewrite Hlen. reflexivity.
Qed.

End RandomStockFacts.

Section RandomStockClaims.

Import RandomStock.

Implicit Types (w : world stocks) (name : string).

Lemma Qle_bool_false (x y : Q) : ~ (x <= y)%Q -> Qle_bool x y = false.
Proof.
  intros H. destruct (Qle_bool x y) eqn:E; [|reflexivity].
  apply Qle_bool_iff in E. contradiction.
Qed.

Lemma magnitude_bounds (g : rng) :
  (0 <= unit_draw g * ChangeAmount <= ChangeAmount)%Q.
Proof.
  pose proof (unit_draw_nonneg g). pose proof (unit_draw_lt_1 g).
  unfold ChangeAmount. split; lra.
Qed.

(** C6: a call of [stock_value] on a stock with current value [v] and
    up-probability [p] returns and stores [v + m * s]: the sign [s] is [1]
    exactly when the first draw is at most [p] and [-1] otherwise, the
    magnitude [m] is the second draw scaled by [ChangeAmount] and lies in
    [[0, ChangeAmount]].  Nothing clamps the result: starting from the
    initial lists, seventeen downward steps take "Deja Brew" below zero. *)
Theorem stock_value_signed_step :
  (forall name w i v p,
     list_index name (StockNames (globals w)) = Some i ->
     StockCurrentValues (globals w) !! i = Some v ->
     StockUpProb (globals w) !! i = Some p ->
     exists (s m : Q) w',
       stock_value name w = (Ok (v + m * s)%Q, w') /\
       current_value_of (globals w') name = Some (v + m * s)%Q /\
       ((unit_draw (gen w) <= p)%Q -> s = 1%Q) /\
       (~ (unit_draw (gen w) <= p)%Q -> s = (-1)%Q) /\
       m = (unit_draw (advance (gen w)) * ChangeAmount)%Q /\
       (0 <= m <= ChangeAmount)%Q) /\
  (exists vs w' v,
     walk 17 "Deja Brew"
          (start initial_stocks (constant_rng 6755399441055744)) = (Ok vs, w') /\
     current_value_of (globals w') "Deja Brew" = Some v /\
     last vs = Some v /\
     (v < 0)%Q).
Proof.
  split.
  - intros name w i v p Hi Hv Hp.
    eexists _, _, _. split; [apply (stock_value_run name w i v p Hi Hv Hp)|].
    cbn [globals]. split; [|split; [|split; [|split; [reflexivity|]]]].
    + unfold current_value_of. cbn [StockNames StockCurrentValues].
      rewrite Hi. simpl. apply list_lookup_insert_eq.
      eapply lookup_lt_Some; eauto.
    + intros Hle. apply Qle_bool_iff in Hle. now rewrite Hle.
    + intros Hnle. now rewrite (Qle_bool_false _ _ Hnle).
    + apply magnitude_bounds.
  - eexists _, _, _. split; [vm_compute; reflexivity|].
    split; [vm_compute; reflexivity|].
    split; [vm_compute; reflexivity|].
    vm_compute. reflexivity.
Qed.

Lemma stock_value_signed_step_witness :
  exists (s m : Q) w',
    stock_value "Pita Pan" (start initial_stocks (constant_rng 0)) =
      (Ok ((121 # 10) + m * s)%Q, w') /\
    current_value_of (globals w') "Pita Pan" = Some ((121 # 10) + m * s)%Q /\
    ((unit_draw (constant_rng 0) <= 8 # 10)%Q -> s = 1%Q) /\
    (~ (unit_draw (constant_rng 0) <= 8 # 10)%Q -> s = (-1)%Q) /\
    m = (unit_draw (advance (constant_rng 0)) * ChangeAmount)%Q /\
    (0 <= m <= ChangeAmount)%Q.
Proof.
  apply (proj1 stock_value_signed_step "Pita Pan"
           (start initial_stocks (constant_rng 0)) 3%nat (121 # 10)%Q (8 # 10)%Q);
    reflexivity.
Defined.

(** After a successful step only the slot of the stock differs. *)
Lemma stock_value_keeps_state name w i v p :
  list_index name (StockNames (globals w)) = Some i ->
  StockCurrentValues (globals w) !! i = Some v ->
  StockUpProb (globals w) !! i = Some p ->
  exists v' w',
    stock_value name w = (Ok v', w') /\
    (p == 1 -> v <= v')%Q /\
    StockNames (globals w') = StockNames (globals w) /\
    StockUpProb (globals w') = StockUpProb (globals w) /\
    StockCurrentValues (globals w') !! i = Some v'.
Proof.
  intros Hi Hv Hp. eexists _, _.
  split; [apply (stock_value_run name w i v p Hi Hv Hp)|].
  cbn [globals StockNames StockUpProb StockCurrentValues].
  split; [|split; [reflexivity|split; [reflexivity|]]].
  - intros Hone.
    assert (Hle : Qle_bool (unit_draw (gen w)) p = true).
    { apply Qle_bool_iff. rewrite Hone. apply Qlt_le_weak, unit_draw_lt_1. }
    rewrite Hle. pose proof (unit_draw_nonneg (advance (gen w))).
    unfold ChangeAmount. lra.
  - apply list_lookup_insert_eq. eapply lookup_lt_Some; eauto.
Qed.

(** C7: for a stock whose up-probability is 1, any number [T] of
    successive calls of [stock_value], whatever the generator gives,
    returns a sequence that never decreases (starting from the value the
    stock had before the first call). *)
Theorem walk_nondecreasing T name w i v0 p :
  list_index name (StockNames (globals w)) = Some i ->
  StockCurrentValues (globals w) !! i = Some v0 ->
  StockUpProb (globals w) !! i = Some p ->
  (p == 1)%Q ->
  exists vs w',
    walk T name w = (Ok vs, w') /\
    length vs = T /\
    Sorted Qle (v0 :: vs).
Proof.
  revert w v0. induction T as [|T IH]; intros w v0 Hi Hv Hp Hone.
  - exists [], w. repeat split. repeat constructor.
  - destruct (stock_value_keeps_state name w i v0 p Hi Hv Hp)
      as (v1 & w1 & Hrun & Hup & Hnames & Hprobs & Hv1).
    destruct (IH w1 v1) as (vs & w2 & Hwalk & Hlen & Hsorted).
    + now rewrite Hnames.
    + exact Hv1.
    + now rewrite Hprobs.
    + exact Hone.
    + exists (v1 :: vs), w2. split; [|split].
      * cbn [walk]. rewrite (bind_ok _ _ _ _ _ Hrun).
        rewrite (bind_ok _ _ _ _ _ Hwalk). reflexivity.
      * simpl. now rewrite Hlen.
      * constructor; [exact Hsorted|]. constructor. now apply Hup.
Qed.

Lemma walk_nondecreasing_witness :
  exists vs w',
    walk 3 "Deja Brew"
      (start (Stocks ["Deja Brew"] [10 # 1]%Q [1 # 1]%Q) (constant_rng 7)) =
      (Ok vs, w') /\
    length vs = 3%nat /\
    Sorted Qle ((10 # 1)%Q :: vs).
Proof.
  apply (walk_nondecreasing 3 "Deja Brew"
           (start (Stocks ["Deja Brew"] [10 # 1]%Q [1 # 1]%Q) (constant_rng 7))
           0%nat (10 # 1)%Q (1 # 1)%Q); reflexivity.
Defined.

End RandomStockClaims.

Section RandomStockFrame.

Import RandomStock.

Implicit Types (w : world stocks) (name : string).

(** In every case, failing ones included, [stock_value] leaves the names,
    the probabilities and all value slots but the stock's own as they
    were. *)
Lemma stock_value_frame name w :
  let g := globals w in
  let g' := globals (stock_value name w).2 in
  StockNames g' = StockNames g /\
  StockUpProb g' = StockUpProb g /\
  length (StockCurrentValues g') = length (StockCurrentValues g) /\
  forall j, list_index name (StockNames g) <> Some j ->
            StockCurrentValues g' !! j = StockCurrentValues g !! j.
Proof.
  intros g g'. subst g g'.
  destruct (list_index name (StockNames (globals w))) as [i|] eqn:Hi.
  - destruct (StockCurrentValues (globals w) !! i) as [v|] eqn:Hv.
    + destruct (StockUpProb (globals w) !! i) as [p|] eqn:Hp.
      * rewrite (stock_value_run name w i v p Hi Hv Hp).
        cbn [snd globals StockNames StockUpProb StockCurrentValues].
        repeat split; [apply length_insert|].
        intros j Hj. apply list_lookup_insert_ne. congruence.
      * unfold stock_value, index_of, getitem, mbind, M_bind, bind, get_globals.
        rewrite Hi. unfold mret, M_ret, ret. rewrite Hv.
        rewrite random_random_run. cbn [globals]. rewrite Hp.
        unfold raise. cbn [snd globals]. repeat split.
    + unfold stock_value, index_of, getitem, mbind, M_bind, bind, get_globals.
      rewrite Hi. unfold mret, M_ret, ret. rewrite Hv.
      unfold raise. cbn [snd globals]. repeat split.
  - unfold stock_value, index_of, mbind, M_bind, bind, get_globals.
    rewrite Hi. unfold raise. cbn [snd globals]. repeat split.
Qed.

(** The same for [reshuffle_probs], with the roles of the two lists
    exchanged. *)
Lemma reshuffle_probs_frame name w :
  let g := globals w in
  let g' := globals (reshuffle_probs name w).2 in
  StockNames g' = StockNames g /\
  StockCurrentValues g' = StockCurrentValues g /\
  length (StockUpProb g') = length (StockUpProb g) /\
  forall j, list_index name (StockNames g) <> Some j ->
            StockUpProb g' !! j = StockUpProb g !! j.
Proof.
  intros g g'. subst g g'.
  unfold reshuffle_probs, index_of, set_up_prob, mbind, M_bind, bind, get_globals.
  destruct (list_index name (StockNames (globals w))) as [i|] eqn:Hi.
  - unfold mret, M_ret, ret. rewrite random_random_run. cbn [globals].
    destruct (i <? length (StockUpProb (globals w)))%nat eqn:Hlt.
    + unfold put_globals.
      cbn [snd globals StockNames StockUpProb StockCurrentValues].
      repeat split; [apply length_insert|].
      intros j Hj. apply list_lookup_insert_ne. congruence.
    + unfold raise. cbn [snd globals]. repeat split.
  - unfold raise. cbn [snd globals]. repeat split.
Qed.

(** C8: [stock_value] and [reshuffle_probs] called for one stock change
    nothing that belongs to another stock: its current value and its
    up-probability read as before, and the list of names is untouched.
    [stock_value] leaves every up-probability alone and
    [reshuffle_probs] every current value. *)
Theorem only_named_stock_changes name other w :
  other <> name ->
  (let g' := globals (stock_value name w).2 in
   StockNames g' = StockNames (globals w) /\
   StockUpProb g' = StockUpProb (globals w) /\
   current_value_of g' other = current_value_of (globals w) other /\
   up_prob_of g' other = up_prob_of (globals w) other /\
   up_prob_of g' name = up_prob_of (globals w) name) /\
  (let g' := globals (reshuffle_probs name w).2 in
   StockNames g' = StockNames (globals w) /\
   StockCurrentValues g' = StockCurrentValues (globals w) /\
   up_prob_of g' other = up_prob_of (globals w) other /\
   current_value_of g' other = current_value_of (globals w) other /\
   current_value_of g' name = current_value_of (globals w) name).
Proof.
  intros Hne. split.
  - destruct (stock_value_frame name w) as (Hn & Hp & _ & Hv).
    cbn zeta. unfold current_value_of, up_prob_of.
    rewrite Hn, Hp. repeat split.
    destruct (list_index other (StockNames (globals w))) as [j|] eqn:Hj;
      [|reflexivity].
    simpl. apply Hv. intros Hi.
    exact (list_index_distinct other name _ j j Hne Hj Hi eq_refl).
  - destruct (reshuffle_probs_frame name w) as (Hn & Hv & _ & Hp).
    cbn zeta. unfold current_value_of, up_prob_of.
    rewrite Hn, Hv. repeat split.
    destruct (list_index other (StockNames (globals w))) as [j|] eqn:Hj;
      [|reflexivity].
    simpl. apply Hp. intros Hi.
    exact (list_index_distinct other name _ j j Hne Hj Hi eq_refl).
Qed.

Lemma only_named_stock_changes_witness :
  let w := start initial_stocks (constant_rng 5) in
  (let g' := globals (stock_value "Pita Pan" w).2 in
   StockNames g' = StockNames (globals w) /\
   StockUpProb g' = StockUpProb (globals w) /\
   current_value_of g' "Thai Tanic" = current_value_of (globals w) "Thai Tanic" /\
   up_prob_of g' "Thai Tanic" = up_prob_of (globals w) "Thai Tanic" /\
   up_prob_of g' "Pita Pan" = up_prob_of (globals w) "Pita Pan") /\
  (let g' := globals (reshuffle_probs "Pita Pan" w).2 in
   StockNames g' = StockNames (globals w) /\
   StockCurrentValues g' = StockCurrentValues (globals w) /\
   up_prob_of g' "Thai Tanic" = up_prob_of (globals w) "Thai Tanic" /\
   current_value_of g' "Thai Tanic" = current_value_of (globals w) "Thai Tanic" /\
   current_value_of g' "Pita Pan" = current_value_of (globals w) "Pita Pan").
Proof.
  apply (only_named_stock_changes "Pita Pan" "Thai Tanic"
           (start initial_stocks (constant_rng 5))).
  discriminate.
Defined.

End RandomStockFrame.

Section RandomStockRender.

Import RandomStock.

Implicit Types (w : world stocks) (name : string).

Lemma random_choice_run {G A} (seq : list A) (w : world G) :
  seq <> [] ->
  exists x,
    x ∈ seq /\
    random_choice seq w =
    (Ok x, World (globals w) (advance (gen w)) (now w) (trace w)).
Proof.
  intros Hne.
  set (k := (raw (gen w) (pos (gen w)) mod N.of_nat (length seq))%N).
  assert (Hlt : (N.to_nat k < length seq)%nat).
  { assert (N.of_nat (length seq) <> 0%N) by (destruct seq; [done|simpl; lia]).
    pose proof (N.mod_lt (raw (gen w) (pos (gen w))) _ H). subst k. lia. }
  destruct (lookup_lt_is_Some_2 seq _ Hlt) as [x Hx].
  exists x. split; [eapply list_elem_of_lookup_2; eauto|].
  destruct seq as [|a seq]; [done|].
  unfold random_choice, randbelow, next_raw, mbind, M_bind, bind.
  unfold mret, M_ret, ret. cbn [fst snd gen globals now trace].
  fold k. rewrite Hx. reflexivity.
Qed.

Lemma reshuffle_probs_run name w i :
  list_index name (StockNames (globals w)) = Some i ->
  (i < length (StockUpProb (globals w)))%nat ->
  reshuffle_probs name w =
  (Ok tt,
   World (Stocks (StockNames (globals w)) (StockCurrentValues (globals w))
                 (<[i := unit_draw (gen w)]> (StockUpProb (globals w))))
         (advance (gen w)) (now w) (trace w)).
Proof.
  intros Hi Hlt. apply Nat.ltb_lt in Hlt.
  unfold reshuffle_probs, index_of, set_up_prob, mbind, M_bind, bind, get_globals.
  rewrite Hi. unfold mret, M_ret, ret. rewrite random_random_run.
  cbn [globals]. rewrite Hlt. reflexivity.
Qed.

(** One render of the random stock producer, statement by statement. *)
Lemma random_stock_produce_run w :
  StockNames (globals w) <> [] ->
  length (StockCurrentValues (globals w)) = length (StockNames (globals w)) ->
  length (StockUpProb (globals w)) = length (StockNames (globals w)) ->
  exists name i v p message key w',
    produce_msg w = (Ok (message, key), w') /\
    message !! "stock_name" = Some (VStr name) /\
    list_index name (StockNames (globals w)) = Some i /\
    StockCurrentValues (globals w) !! i = Some v /\
    StockUpProb (globals w) !! i = Some p /\
    let g1 := advance (gen w) in
    let trigger := unit_draw g1 in
    let fresh := unit_draw (advance g1) in
    (0 <= trigger < 1)%Q /\
    ((ShuffleProb < trigger)%Q ->
       let g3 := advance (advance g1) in
       StockUpProb (globals w') = <[i := fresh]> (StockUpProb (globals w)) /\
       message !! "stock_value" =
         Some (VNum (v + unit_draw (advance g3) * ChangeAmount *
                         (if Qle_bool (unit_draw g3) fresh then 1 else -1))%Q)) /\
    (~ (ShuffleProb < trigger)%Q ->
       let g2 := advance g1 in
       StockUpProb (globals w') = StockUpProb (globals w) /\
       message !! "stock_value" =
         Some (VNum (v + unit_draw (advance g2) * ChangeAmount *
                         (if Qle_bool (unit_draw g2) p then 1 else -1))%Q)).
Proof.
  intros Hne Hlv Hlp.
  destruct (random_choice_run (StockNames (globals w)) w Hne) as (name & Hin & Hpick).
  destruct (list_index_found name _ Hin) as [i Hi].
  assert (Hlt : (i < length (StockNames (globals w)))%nat).
  { eapply lookup_lt_Some, list_index_lookup, Hi. }
  destruct (lookup_lt_is_Some_2 (StockCurrentValues (globals w)) i) as [v Hv];
    [lia|].
  destruct (lookup_lt_is_Some_2 (StockUpProb (globals w)) i) as [p Hp]; [lia|].
  set (w1 := World (globals w) (advance (gen w)) (now w) (trace w)) in *.
  set (w2 := World (globals w) (advance (advance (gen w))) (now w) (trace w)).
  assert (Hname : stock_name w = (Ok name, w1)).
  { unfold stock_name, mbind, M_bind, bind, get_globals. exact Hpick. }
  destruct (Qle_bool (unit_draw (advance (gen w))) ShuffleProb) eqn:Htrig.
  - (* no redraw *)
    pose proof (stock_value_run name w2 i v p Hi Hv Hp) as Hstep.
    cbn zeta in Hstep. cbn [gen globals now trace w2] in Hstep.
    eexists name, i, v, p, _, _, _. split.
    { unfold produce_msg. rewrite (bind_ok _ _ _ _ _ Hname).
      unfold time_time at 1. unfold mbind at 1, M_bind at 1, bind at 1.
      rewrite (bind_ok _ _ w1 _ _ (random_random_run w1)).
      cbn [gen globals now trace w1]. rewrite Htrig. cbn [negb].
      unfold mbind at 1, M_bind at 1, bind at 1.
      unfold mret at 1, M_ret at 1, ret at 1.
      fold w2. rewrite (bind_ok _ _ _ _ _ Hstep). reflexivity. }
    split; [reflexivity|]. repeat (split; [assumption|]).
    cbn zeta. split; [split; [apply unit_draw_nonneg|apply unit_draw_lt_1]|].
    split.
    + intros Hlt'. apply Qle_bool_iff in Htrig. exfalso.
      apply (Qlt_not_le _ _ Hlt'). exact Htrig.
    + intros _. cbn [globals StockUpProb]. split; reflexivity.
  - (* redraw *)
    assert (Hlt2 : (i < length (StockUpProb (globals w2)))%nat)
      by (cbn [globals w2]; lia).
    pose proof (reshuffle_probs_run name w2 i Hi Hlt2) as Hre.
    cbn [gen globals now trace w2] in Hre.
    set (fresh := unit_draw (advance (advance (gen w)))) in *.
    set (w3 := World (Stocks (StockNames (globals w))
                             (StockCurrentValues (globals w))
                             (<[i := fresh]> (StockUpProb (globals w))))
                     (advance (advance (advance (gen w)))) (now w) (trace w))
      in *.
    assert (Hp3 : StockUpProb (globals w3) !! i = Some fresh).
    { cbn [globals w3 StockUpProb]. apply list_lookup_insert_eq. lia. }
    pose proof (stock_value_run name w3 i v fresh Hi Hv Hp3) as Hstep.
    cbn zeta in Hstep. cbn [gen globals now trace w3] in Hstep.
    eexists name, i, v, p, _, _, _. split.
    { unfold produce_msg. rewrite (bind_ok _ _ _ _ _ Hname).
      unfold time_time at 1. unfold mbind at 1, M_bind at 1, bind at 1.
      rewrite (bind_ok _ _ w1 _ _ (random_random_run w1)).
      cbn [gen globals now trace w1]. rewrite Htrig. cbn [negb].
      fold w2. rewrite (bind_ok _ _ _ _ _ Hre).
      rewrite (bind_ok _ _ _ _ _ Hstep). reflexivity. }
    split; [reflexivity|]. repeat (split; [assumption|]).
    cbn zeta. split; [split; [apply unit_draw_nonneg|apply unit_draw_lt_1]|].
    split.
    + intros _. cbn [globals StockUpProb StockNames StockCurrentValues].
      split; reflexivity.
    + intros Hnlt. exfalso. apply Hnlt. apply Qnot_le_lt. intros Hle.
      apply Qle_bool_iff in Hle. congruence.
Qed.

(** C9: in [produce_msg] of the random stock producer the up-probability
    of the chosen stock is redrawn exactly when the trigger draw is
    strictly greater than [ShuffleProb]; the draws in [[0, 1)] that do so
    fill an interval of length [1 - ShuffleProb = 0.8].  The redraw comes
    before the price step: the step's sign is decided against the fresh
    probability when there was a redraw and against the stored one
    otherwise. *)
Theorem produce_msg_reshuffles_above_ShuffleProb w :
  StockNames (globals w) <> [] ->
  length (StockCurrentValues (globals w)) = length (StockNames (globals w)) ->
  length (StockUpProb (globals w)) = length (StockNames (globals w)) ->
  (1 - ShuffleProb == 8 # 10)%Q /\
  exists name i v p message key w',
    produce_msg w = (Ok (message, key), w') /\
    message !! "stock_name" = Some (VStr name) /\
    list_index name (StockNames (globals w)) = Some i /\
    StockCurrentValues (globals w) !! i = Some v /\
    StockUpProb (globals w) !! i = Some p /\
    let g1 := advance (gen w) in
    let trigger := unit_draw g1 in
    let fresh := unit_draw (advance g1) in
    (0 <= trigger < 1)%Q /\
    ((ShuffleProb < trigger)%Q ->
       let g3 := advance (advance g1) in
       StockUpProb (globals w') = <[i := fresh]> (StockUpProb (globals w)) /\
       message !! "stock_value" =
         Some (VNum (v + unit_draw (advance g3) * ChangeAmount *
                         (if Qle_bool (unit_draw g3) fresh then 1 else -1))%Q)) /\
    (~ (ShuffleProb < trigger)%Q ->
       let g2 := advance g1 in
       StockUpProb (globals w') = StockUpProb (globals w) /\
       message !! "stock_value" =
         Some (VNum (v + unit_draw (advance g2) * ChangeAmount *
                         (if Qle_bool (unit_draw g2) p then 1 else -1))%Q)).
Proof.
  intros Hne Hlv Hlp. split; [reflexivity|].
  exact (random_stock_produce_run w Hne Hlv Hlp).
Qed.

Lemma produce_msg_reshuffles_above_ShuffleProb_witness :
  let w := start initial_stocks (constant_rng 6755399441055744) in
  (1 - ShuffleProb == 8 # 10)%Q /\
  exists name i v p message key w',
    produce_msg w = (Ok (message, key), w') /\
    message !! "stock_name" = Some (VStr name) /\
    list_index name (StockNames (globals w)) = Some i /\
    StockCurrentValues (globals w) !! i = Some v /\
    StockUpProb (globals w) !! i = Some p /\
    let g1 := advance (gen w) in
    let trigger := unit_draw g1 in
    let fresh := unit_draw (advance g1) in
    (0 <= trigger < 1)%Q /\
    ((ShuffleProb < trigger)%Q ->
       let g3 := advance (advance g1) in
       StockUpProb (globals w') = <[i := fresh]> (StockUpProb (globals w)) /\
       message !! "stock_value" =
         Some (VNum (v + unit_draw (advance g3) * ChangeAmount *
                         (if Qle_bool (unit_draw g3) fresh then 1 else -1))%Q)) /\
    (~ (ShuffleProb < trigger)%Q ->
       let g2 := advance g1 in
       StockUpProb (globals w') = StockUpProb (globals w) /\
       message !! "stock_value" =
         Some (VNum (v + unit_draw (advance g2) * ChangeAmount *
                         (if Qle_bool (unit_draw g2) p then 1 else -1))%Q)).
Proof.
  apply (produce_msg_reshuffles_above_ShuffleProb
           (start initial_stocks (constant_rng 6755399441055744)));
    [discriminate | reflexivity | reflexivity].
Defined.

End RandomStockRender.

Section LoopFacts.

Import Loop.

Context {G : Type}.
Variable produce : M G (gmap string pyval * gmap string pyval).
Variable hand_over : gmap string pyval -> M G unit.

Implicit Types (w : world G) (e : exn).

Lemma iteration_recovers w e w1 :
  iteration_body produce hand_over w = (Raise e, w1) ->
  is_Exception e = true ->
  iteration produce hand_over w = (Ok tt, recovered e w1).
Proof.
  intros Hbody He. unfold iteration, try_except. rewrite Hbody, He.
  unfold recovered, log_failure, emit_event, time_sleep, mbind, M_bind, bind.
  cbn [globals gen now trace]. now rewrite <- app_assoc.
Qed.

Lemma iteration_passes w w1 :
  iteration_body produce hand_over w = (Ok tt, w1) ->
  iteration produce hand_over w = (Ok tt, w1).
Proof. intros Hbody. unfold iteration, try_except. now rewrite Hbody. Qed.

Lemma body_raises_in_render w e w1 :
  produce w = (Raise e, w1) ->
  iteration_body produce hand_over w = (Raise e, w1).
Proof. intros H. unfold iteration_body. now rewrite (bind_raise _ _ _ _ _ H). Qed.

Lemma body_raises_in_hand_over w message key w1 e w2 :
  produce w = (Ok (message, key), w1) ->
  truthy message = true ->
  hand_over message w1 = (Raise e, w2) ->
  iteration_body produce hand_over w = (Raise e, w2).
Proof.
  intros Hp Ht Hh. unfold iteration_body. rewrite (bind_ok _ _ _ _ _ Hp).
  rewrite Ht. now rewrite (bind_raise _ _ _ _ _ Hh).
Qed.

Lemma count_critical_recovered e w :
  count_critical (trace (recovered e w)) = S (count_critical (trace w)).
Proof.
  unfold count_critical, recovered. cbn [trace].
  rewrite List.filter_app, length_app. simpl. lia.
Qed.

(** C4: an exception (of class [Exception]) raised while rendering or
    while handing the message over is caught by the loop: the pass logs it
    at level CRITICAL, sleeps 5 seconds and ends normally, so that the
    next pass starts.  Hence no pass ends the loop as long as what is
    raised is an [Exception]; and when every pass fails (without logging
    anything critical itself), [n] passes leave [n] critical log lines
    and the loop still running. *)
Theorem loop_survives_exceptions :
  (forall w e w1,
     produce w = (Raise e, w1) ->
     is_Exception e = true ->
     iteration produce hand_over w = (Ok tt, recovered e w1)) /\
  (forall w message key w1 e w2,
     produce w = (Ok (message, key), w1) ->
     truthy message = true ->
     hand_over message w1 = (Raise e, w2) ->
     is_Exception e = true ->
     iteration produce hand_over w = (Ok tt, recovered e w2)) /\
  (forall n w,
     (forall w0 e w1,
        iteration_body produce hand_over w0 = (Raise e, w1) ->
        is_Exception e = true) ->
     exists w', run produce hand_over n w = (Ok tt, w')) /\
  (forall n w,
     (forall w0, exists e w1,
        iteration_body produce hand_over w0 = (Raise e, w1) /\
        is_Exception e = true /\
        count_critical (trace w1) = count_critical (trace w0)) ->
     exists w',
       run produce hand_over n w = (Ok tt, w') /\
       count_critical (trace w') = (count_critical (trace w) + n)%nat).
Proof.
  split; [|split; [|split]].
  - intros w e w1 Hp He.
    apply iteration_recovers; [now apply body_raises_in_render|exact He].
  - intros w message key w1 e w2 Hp Ht Hh He.
    apply iteration_recovers; [|exact He].
    eapply body_raises_in_hand_over; eauto.
  - intros n. induction n as [|n IH]; intros w Hexc.
    + exists w. reflexivity.
    + destruct (iteration_body produce hand_over w) as [[[]|e] w1] eqn:Hbody.
      * destruct (IH w1 Hexc) as [w' Hrun]. exists w'.
        cbn [run]. now rewrite (bind_ok _ _ _ _ _ (iteration_passes _ _ Hbody)).
      * pose proof (Hexc _ _ _ Hbody) as He.
        destruct (IH (recovered e w1) Hexc) as [w' Hrun]. exists w'.
        cbn [run].
        now rewrite (bind_ok _ _ _ _ _ (iteration_recovers _ _ _ Hbody He)).
  - intros n. induction n as [|n IH]; intros w Hexc.
    + exists w. split; [reflexivity|lia].
    + destruct (Hexc w) as (e & w1 & Hbody & He & Htr).
      destruct (IH (recovered e w1) Hexc) as (w' & Hrun & Hcount).
      exists w'. split.
      * cbn [run].
        now rewrite (bind_ok _ _ _ _ _ (iteration_recovers _ _ _ Hbody He)).
      * rewrite Hcount, count_critical_recovered, Htr. lia.
Qed.

End LoopFacts.

Lemma loop_survives_exceptions_witness :
  let w0 := start tt (constant_rng 0) in
  let message : gmap string pyval := <["id" := VInt 1]> ∅ in
  Loop.iteration (raise ValueError) (log_message INFO) w0
    = (Ok tt, Loop.recovered ValueError w0) /\
  Loop.iteration (mret (message, ∅)) (fun _ => raise ConnectionError) w0
    = (Ok tt, Loop.recovered ConnectionError w0) /\
  (exists w',
     Loop.run (raise ValueError) (log_message INFO) 100 w0 = (Ok tt, w')) /\
  (exists w',
     Loop.run (raise ValueError) (log_message INFO) 100 w0 = (Ok tt, w') /\
     Loop.count_critical (trace w') = (0 + 100)%nat).
Proof.
  intros w0 message.
  pose proof (loop_survives_exceptions (G := unit) (raise ValueError)
                (log_message INFO)) as (Hrender & _ & Hrun & Hcount).
  pose proof (loop_survives_exceptions (G := unit) (mret (message, ∅))
                (fun _ => raise ConnectionError)) as (_ & Hhand & _).
  split; [|split; [|split]].
  - apply (Hrender w0 ValueError w0); reflexivity.
  - apply (Hhand w0 message ∅ w0 ConnectionError w0); reflexivity.
  - apply (Hrun 100%nat w0). intros w1 e w2 [= <- _]. reflexivity.
  - apply (Hcount 100%nat w0). intros w1. exists ValueError, w1.
    repeat split.
Defined.

Section UserBehaviourFacts.

Import UserBehaviour.

Variable strftime : Q -> string.

Implicit Types (w : world unit).

Lemma length_accumulate acc ws : length (accumulate acc ws) = length ws.
Proof. revert acc. induction ws as [|x ws IH]; intros acc; simpl; auto. Qed.

Lemma bisect_le_hi a x hi : (bisect a x hi <= hi)%nat.
Proof.
  revert a. induction hi as [|hi IH]; intros [|y a]; simpl; try lia.
  destruct (Qle_bool y x); [|lia]. specialize (IH a). lia.
Qed.

Lemma random_choices1_run {G A} (population : list A) weights total
    (w : world G) :
  length weights = length population ->
  last (accumulate 0 weights) = Some total ->
  Qle_bool total 0 = false ->
  exists x,
    x ∈ population /\
    random_choices1 population weights w =
    (Ok x, World (globals w) (advance (gen w)) (now w) (trace w)).
Proof.
  intros Hlen Hlast Hpos.
  assert (Hne : (0 < length population)%nat).
  { rewrite <- Hlen, <- (length_accumulate 0%Q).
    destruct (accumulate 0 weights); [discriminate|simpl; lia]. }
  set (i := bisect (accumulate 0 weights) (unit_draw (gen w) * total)
                   (length population - 1)).
  assert (Hi : (i < length population)%nat).
  { pose proof (bisect_le_hi (accumulate 0 weights)
                  (unit_draw (gen w) * total)%Q (length population - 1)).
    subst i. lia. }
  destruct (lookup_lt_is_Some_2 population i Hi) as [x Hx].
  exists x. split; [eapply list_elem_of_lookup_2; eauto|].
  unfold random_choices1. rewrite length_accumulate, Hlen, Nat.eqb_refl.
  cbn [negb]. rewrite Hlast, Hpos.
  rewrite (bind_ok _ _ _ _ _ (random_random_run w)).
  fold i. rewrite Hx. reflexivity.
Qed.

Lemma behavior_run w :
  exists b,
    behavior new_provider w =
    (Ok b, World (globals w) (advance (gen w)) (now w) (trace w)).
Proof.
  destruct (random_choices1_run (behavior_names new_provider)
              [5 # 10; 3 # 10; 2 # 10]%Q
              (0 + (5 # 10) + (3 # 10) + (2 # 10))%Q w)
    as (b & _ & Hb); [reflexivity..|].
  exists b. exact Hb.
Qed.

Lemma plain_call {A} (body : M unit A) :
  call_method plain_method 0 body = body.
Proof. reflexivity. Qed.

(** The call [self.generate_timestamp()] binds no argument to the
    required parameter [self] of the static method. *)
Lemma generate_timestamp_call {A} (body : M unit A) :
  call_method generate_timestamp_sig 0 body = raise TypeError.
Proof. reflexivity. Qed.

Lemma choice_Z_run (pool : list Z) w :
  pool <> [] ->
  exists x, random_choice pool w =
            (Ok x, World (globals w) (advance (gen w)) (now w) (trace w)).
Proof.
  intros Hne. destruct (random_choice_run pool w Hne) as (x & _ & Hx). eauto.
Qed.

Lemma produce_msg_raises include_view_id w :
  exists w',
    produce_msg strftime new_provider include_view_id w = (Raise TypeError, w') /\
    trace w' = trace w /\ now w' = now w.
Proof.
  unfold produce_msg. rewrite !plain_call, generate_timestamp_call.
  destruct (behavior_run w) as [b Hb]. rewrite (bind_ok _ _ _ _ _ Hb).
  set (w1 := World (globals w) (advance (gen w)) (now w) (trace w)) in *.
  assert (Hview : exists v w2,
    (if String.eqb b "view" && include_view_id
     then v ← view_id new_provider; mret (VInt v)
     else mret VNone) w1 = (Ok v, w2) /\ trace w2 = trace w /\ now w2 = now w).
  { destruct (String.eqb b "view" && include_view_id).
    - destruct (choice_Z_run (view_ids new_provider) w1) as [v Hv]; [done|].
      eexists _, _. split; [rewrite (bind_ok _ _ _ _ _ Hv); reflexivity|].
      split; reflexivity.
    - eexists _, _. split; [reflexivity|]. split; reflexivity. }
  destruct Hview as (v & w2 & Hv & Htr2 & Hnow2).
  rewrite (bind_ok _ _ _ _ _ Hv).
  destruct (choice_Z_run (user_ids new_provider) w2) as [uid Hu]; [done|].
  unfold user_id. rewrite (bind_ok _ _ _ _ _ Hu).
  set (w3 := World (globals w2) (advance (gen w2)) (now w2) (trace w2)) in *.
  destruct (choice_Z_run (item_ids new_provider) w3) as [iid Hi]; [done|].
  unfold item_id. rewrite (bind_ok _ _ _ _ _ Hi).
  set (w4 := World (globals w3) (advance (gen w3)) (now w3) (trace w3)) in *.
  destruct (random_choice_run (group_names new_provider) w4) as (grp & _ & Hg);
    [done|].
  unfold group_name. rewrite (bind_ok _ _ _ _ _ Hg).
  eexists. split; [reflexivity|]. cbn [trace now w4 w3]. split; assumption.
Qed.

(** C2: [UserBehaviorProvider.produce_msg] raises [TypeError] on every
    call, whatever [include_view_id] and the generator are: the call
    [self.generate_timestamp()] reaches a static method that still
    requires the parameter [self].  It therefore never returns a
    (message, key) pair, and every pass of the script's loop ends in the
    recovery branch: one critical log line for the [TypeError], five
    seconds of sleep, nothing logged at level INFO. *)
Theorem user_behaviour_always_raises :
  (forall include_view_id w,
     exists w',
       produce_msg strftime new_provider include_view_id w
         = (Raise TypeError, w')) /\
  (forall w,
     exists w',
       Loop.iteration (produce_msg strftime new_provider true)
                      (log_message INFO) w = (Ok tt, w') /\
       trace w' = trace w ++ [LogFailure CRITICAL TypeError; Sleep 5]) /\
  (forall n w,
     exists w',
       user_behaviour_main strftime n w = (Ok tt, w') /\
       Loop.count_critical (trace w') = (Loop.count_critical (trace w) + n)%nat).
Proof.
  split; [|split].
  - intros include_view_id w.
    destruct (produce_msg_raises include_view_id w) as (w' & H & _). eauto.
  - intros w. destruct (produce_msg_raises true w) as (w' & H & Htr & _).
    exists (Loop.recovered TypeError w'). split.
    + apply iteration_recovers; [|reflexivity].
      now apply body_raises_in_render.
    + unfold Loop.recovered. cbn [trace]. now rewrite Htr.
  - intros n. induction n as [|n IH]; intros w.
    + exists w. split; [reflexivity|lia].
    + destruct (produce_msg_raises true w) as (w1 & H & Htr & _).
      destruct (IH (Loop.recovered TypeError w1)) as (w' & Hrun & Hcount).
      exists w'. split.
      * unfold user_behaviour_main in *. cbn [Loop.run].
        rewrite (bind_ok _ _ _ _ _
                   (iteration_recovers _ _ _ _ _
                      (body_raises_in_render _ _ _ _ _ H) eq_refl)).
        exact Hrun.
      * rewrite Hcount, count_critical_recovered, Htr. lia.
Qed.

End UserBehaviourFacts.

Section RealStockFacts.

Import RealStock.

Variable get_live_price : string -> nat -> outcome pyval.
Variable last_close : string -> nat -> outcome pyval.

Implicit Types (w : world unit) (name : string).

Lemma count_queries_app src tr tr' :
  count_queries src (tr ++ tr') =
  (count_queries src tr + count_queries src tr')%nat.
Proof. unfold count_queries. now rewrite List.filter_app, length_app. Qed.

Lemma retry_first_attempt {A} (f : M unit A) attempts wait w a w' :
  f w = (Ok a, w') -> retry attempts wait f w = (Ok a, w').
Proof.
  intros H. unfold retry. destruct (attempts - 1)%nat; simpl; now rewrite H.
Qed.

Lemma py_round_whole (q : Q) (V : Z) : (q == inject_Z V)%Q -> py_round q = V.
Proof.
  intros Hq. unfold py_round.
  assert (Hfloor : Qfloor q = V) by (rewrite Hq; apply Qfloor_Z).
  rewrite Hfloor.
  assert (Hlt : (q - inject_Z V < 1 # 2)%Q) by (rewrite Hq; lra).
  assert (Hc : Qcompare (q - inject_Z V) (1 # 2) = Lt) by now apply Qlt_alt.
  now rewrite Hc.
Qed.

(** The second service, asked in world [w]. *)
Lemma fetch2_number name w q :
  last_close name (count_queries YFinance (trace w)) = Ok (VNum q) ->
  _fetch_from_yfinance get_live_price last_close name w = (Ok (VInt (py_round q)), record_event w (Query YFinance name)).
Proof.
  intros H. unfold _fetch_from_yfinance, try_except, query.
  unfold mbind, M_bind, bind. now rewrite H.
Qed.

(** Everything the fallback can do: the second service is asked once,
    and the answer is returned as an integer, or an [Exception] is logged
    and the sentinel returned, or another exception passes. *)
Lemma fetch2_outcome name w :
  let w1 := record_event w (Query YFinance name) in
  let r := _fetch_from_yfinance get_live_price last_close name w in
  (exists z, r = (Ok (VInt z), w1)) \/
  (exists e, is_Exception e = true /\
             r = (Ok sentinel, record_event w1 (LogFailure WARNING e))) \/
  (exists e, is_Exception e = false /\ r = (Raise e, w1)).
Proof.
  cbv zeta. unfold _fetch_from_yfinance, try_except, query.
  unfold mbind, M_bind, bind.
  destruct (last_close name _) as [v|e].
  - destruct v as [|z|q|s|l|d]; cbn [builtin_float].
    + right; left. exists TypeError. split; reflexivity.
    + destruct (nearest_double (inject_Z z)) as [q|b|].
      * left. eexists. reflexivity.
      * right; left. exists OverflowError. split; reflexivity.
      * right; left. exists OverflowError. split; reflexivity.
    + left. eexists. reflexivity.
    + destruct (float_of_string s) as [[q|b|]|].
      * left. eexists. reflexivity.
      * right; left. exists OverflowError. split; reflexivity.
      * right; left. exists ValueError. split; reflexivity.
      * right; left. exists ValueError. split; reflexivity.
    + right; left. exists TypeError. split; reflexivity.
    + right; left. exists TypeError. split; reflexivity.
  - destruct (is_Exception e) eqn:He.
    + right; left. exists e. split; [exact He|]. reflexivity.
    + right; right. exists e. split; [exact He|]. reflexivity.
Qed.

Lemma fetch2_fails name w :
  secondary_fails (last_close name (count_queries YFinance (trace w))) = true ->
  exists w', _fetch_from_yfinance get_live_price last_close name w = (Ok sentinel, w').
Proof.
  intros H. unfold _fetch_from_yfinance, try_except, query.
  unfold mbind, M_bind, bind.
  destruct (last_close name _) as [v|e]; simpl in H.
  - destruct v as [|z|q|s|l|d]; try discriminate; cbn [builtin_float].
    + eexists. reflexivity.
    + destruct (nearest_double (inject_Z z)) as [q|b|];
        try discriminate; eexists; reflexivity.
    + apply andb_true_iff in H as [_ H].
      destruct (float_of_string s) as [[q|b|]|];
        try discriminate; eexists; reflexivity.
    + eexists. reflexivity.
    + eexists. reflexivity.
  - simpl. rewrite H. simpl. eauto.
Qed.

(** One attempt when the first service gives an answer that sends the
    code to the second one. *)
Lemma attempt_falls_back name w :
  triggers_fallback
    (get_live_price (upper name) (count_queries YahooFin (trace w))) = true ->
  exists e,
    (e = ValueError \/ e = KeyError) /\
    stock_value_attempt get_live_price last_close name w =
    _fetch_from_yfinance get_live_price last_close name
      (record_event (record_event w (Query YahooFin (upper name)))
                    (LogFailure WARNING e)).
Proof.
  intros H. unfold stock_value_attempt, try_except, query.
  unfold mbind at 1, M_bind at 1, bind at 1.
  destruct (get_live_price (upper name) _) as [v|e]; simpl in H.
  - destruct v as [| | |s| |]; try discriminate.
    + exists ValueError. split; [now left|reflexivity].
    + destruct s; [|discriminate]. exists ValueError.
      split; [now left|reflexivity].
  - destruct e; try discriminate; [exists ValueError|exists KeyError];
      (split; [auto|reflexivity]).
Qed.

(** One attempt when the first service raises something else. *)
Lemma attempt_gives_up name w e :
  get_live_price (upper name) (count_queries YahooFin (trace w)) = Raise e ->
  is_Exception e = true ->
  triggers_fallback (Raise e) = false ->
  stock_value_attempt get_live_price last_close name w =
  (Ok sentinel,
   record_event (record_event w (Query YahooFin (upper name)))
                (LogFailure WARNING e)).
Proof.
  intros H He Hno. unfold stock_value_attempt, try_except, query.
  unfold mbind at 1, M_bind at 1, bind at 1. rewrite H, He.
  destruct e; try discriminate; reflexivity.
Qed.

Lemma attempt_primary_fails name w :
  primary_fails
    (get_live_price (upper name) (count_queries YahooFin (trace w))) = true ->
  triggers_fallback
    (get_live_price (upper name) (count_queries YahooFin (trace w))) = false ->
  exists w', stock_value_attempt get_live_price last_close name w = (Ok sentinel, w').
Proof.
  intros Hf Hno. unfold stock_value_attempt, try_except, query.
  unfold mbind at 1, M_bind at 1, bind at 1.
  destruct (get_live_price (upper name) _) as [v|e]; simpl in Hf.
  - destruct v as [| | |s| |]; try discriminate; simpl; eauto.
    destruct s; [discriminate|]. simpl. eauto.
  - rewrite Hf. destruct e; try discriminate; simpl; eauto.
Qed.

Lemma stock_value_first_attempt name w v w' :
  stock_value_attempt get_live_price last_close name w = (Ok v, w') ->
  stock_value get_live_price last_close name w = (Ok v, w').
Proof. apply retry_first_attempt. Qed.

(** One attempt without fallback: what the first [try] block and its
    second handler do. *)
Lemma attempt_alone name w :
  triggers_fallback
    (get_live_price (upper name) (count_queries YahooFin (trace w))) = false ->
  let w1 := record_event w (Query YahooFin (upper name)) in
  let r := stock_value_attempt get_live_price last_close name w in
  (exists v, is_number v = true /\ r = (Ok v, w1)) \/
  (exists e, is_Exception e = true /\
             r = (Ok sentinel, record_event w1 (LogFailure WARNING e))) \/
  (exists e, is_Exception e = false /\ r = (Raise e, w1)).
Proof.
  intros Hno. cbv zeta.
  assert (Hrun : stock_value_attempt get_live_price last_close name w =
            match get_live_price (upper name) (count_queries YahooFin (trace w))
            with
            | Ok v =>
                try_except
                  (if is_None v || eq_empty_str v then raise ValueError
                   else builtin_round2 v)
                  (fun e =>
                     match e with
                     | ValueError | KeyError =>
                         log_failure WARNING e;;
                         _fetch_from_yfinance get_live_price last_close name
                     | _ => log_failure WARNING e;; mret sentinel
                     end)
                  (record_event w (Query YahooFin (upper name)))
            | Raise e =>
                if is_Exception e then
                  match e with
                  | ValueError | KeyError =>
                      (log_failure WARNING e;;
                       _fetch_from_yfinance get_live_price last_close name)
                        (record_event w (Query YahooFin (upper name)))
                  | _ =>
                      (log_failure WARNING e;; mret sentinel)
                        (record_event w (Query YahooFin (upper name)))
                  end
                else (Raise e, record_event w (Query YahooFin (upper name)))
            end).
  { unfold stock_value_attempt, try_except, query.
    unfold mbind at 1, M_bind at 1, bind at 1.
    destruct (get_live_price (upper name) _) as [v|e]; [reflexivity|].
    destruct e; reflexivity. }
  rewrite Hrun. clear Hrun.
  destruct (get_live_price (upper name) _) as [v|e]; simpl in Hno.
  - destruct v as [|z|q|s|l|d]; try discriminate.
    + left. eexists. split; [|reflexivity]. reflexivity.
    + left. eexists. split; [|reflexivity]. reflexivity.
    + destruct s; [discriminate|].
      right; left. exists TypeError. split; reflexivity.
    + right; left. exists TypeError. split; reflexivity.
    + right; left. exists TypeError. split; reflexivity.
  - destruct (is_Exception e) eqn:He.
    + right; left. exists e. split; [exact He|].
      destruct e; try discriminate; reflexivity.
    + right; right. exists e. split; [exact He|reflexivity].
Qed.

(** Everything one attempt can do, read off its two [try] blocks. *)
Lemma attempt_outcome name w :
  let r := stock_value_attempt get_live_price last_close name w in
  ((exists v, r.1 = Ok v /\ is_number v = true) \/
   (exists e, r.1 = Raise e /\ is_Exception e = false)) /\
  count_sleeps (trace r.2) = count_sleeps (trace w) /\
  count_queries YahooFin (trace r.2) = S (count_queries YahooFin (trace w)) /\
  (count_queries YFinance (trace r.2) <= S (count_queries YFinance (trace w)))%nat /\
  now r.2 = now w /\ gen r.2 = gen w.
Proof.
  cbv zeta.
  destruct (triggers_fallback
              (get_live_price (upper name) (count_queries YahooFin (trace w))))
    eqn:Hfb.
  - destruct (attempt_falls_back name w Hfb) as (e & _ & ->).
    destruct (fetch2_outcome name
                (record_event (record_event w (Query YahooFin (upper name)))
                              (LogFailure WARNING e)))
      as [(z & ->)|[(e2 & He2 & ->)|(e2 & He2 & ->)]];
      cbn [fst snd];
      (split; [first [left; eexists; split; reflexivity
                     |right; eexists; split; [reflexivity|assumption]]|]);
      unfold record_event; cbn [trace now gen];
      unfold count_sleeps, count_queries;
      rewrite ?List.filter_app, ?length_app; cbn;
      repeat split; lia.
  - destruct (attempt_alone name w Hfb)
      as [(v & Hv & ->)|[(e2 & He2 & ->)|(e2 & He2 & ->)]];
      cbn [fst snd];
      (split; [first [left; eexists; split; [reflexivity|assumption]
                     |left; eexists; split; reflexivity
                     |right; eexists; split; [reflexivity|assumption]]|]);
      unfold record_event; cbn [trace now gen];
      unfold count_sleeps, count_queries;
      rewrite ?List.filter_app, ?length_app; cbn;
      repeat split; lia.
Qed.

(** The body catches every [Exception] itself, so the decorator has
    nothing to repeat. *)
Lemma stock_value_is_attempt name w :
  stock_value get_live_price last_close name w
  = stock_value_attempt get_live_price last_close name w.
Proof.
  pose proof (attempt_outcome name w) as (Hres & _). cbv zeta in Hres.
  unfold stock_value, retry. cbn [retry_loop Nat.sub].
  destruct (stock_value_attempt get_live_price last_close name w)
    as [[v|e] w1]; [reflexivity|].
  destruct Hres as [(v & Hv & _)|(e' & He & Hbase)]; [discriminate|].
  cbn in He. injection He as <-. now rewrite Hbase.
Qed.

(** C3 (as the code has it): when the first service answers [None] or
    the empty string, or raises [ValueError] or [KeyError], the second
    service is queried, once and whatever it then answers; if it
    answers with a whole number [V] then [stock_value] returns [V].
    When the first service raises any other [Exception], the second one
    is not queried and [stock_value] returns the sentinel. *)
Theorem fallback_after_empty_or_lookup_error name w :
  (triggers_fallback
     (get_live_price (upper name) (count_queries YahooFin (trace w))) = true ->
   exists e r w' rest,
     (e = ValueError \/ e = KeyError) /\
     stock_value get_live_price last_close name w = (r, w') /\
     trace w' =
       trace w ++ [Query YahooFin (upper name); LogFailure WARNING e;
                   Query YFinance name] ++ rest /\
     count_queries YFinance rest = 0%nat /\
     count_queries YFinance (trace w')
       = S (count_queries YFinance (trace w))) /\
  (forall q V,
     triggers_fallback
       (get_live_price (upper name) (count_queries YahooFin (trace w))) = true ->
     last_close name (count_queries YFinance (trace w)) = Ok (VNum q) ->
     (q == inject_Z V)%Q ->
     exists e w',
       stock_value get_live_price last_close name w = (Ok (VInt V), w') /\
       trace w' =
         trace w ++ [Query YahooFin (upper name); LogFailure WARNING e;
                     Query YFinance name] /\
       Query YFinance name ∈ trace w') /\
  (forall e,
     get_live_price (upper name) (count_queries YahooFin (trace w)) = Raise e ->
     is_Exception e = true ->
     triggers_fallback (Raise e) = false ->
     exists w',
       stock_value get_live_price last_close name w = (Ok sentinel, w') /\
       trace w' =
         trace w ++ [Query YahooFin (upper name); LogFailure WARNING e]).
Proof.
  split; [|split].
  - intros Hprimary.
    destruct (attempt_falls_back name w Hprimary) as (e & Hclass & He).
    exists e. rewrite stock_value_is_attempt, He.
    destruct (fetch2_outcome name
                (record_event (record_event w (Query YahooFin (upper name)))
                              (LogFailure WARNING e)))
      as [(z & ->)|[(e2 & He2 & ->)|(e2 & He2 & ->)]].
    + eexists _, _, []. split; [exact Hclass|]. split; [reflexivity|].
      unfold record_event. cbn [trace].
      split; [now rewrite <- !app_assoc|]. split; [reflexivity|].
      rewrite !count_queries_app. cbn. lia.
    + eexists _, _, [LogFailure WARNING e2]. split; [exact Hclass|].
      split; [reflexivity|].
      unfold record_event. cbn [trace].
      split; [now rewrite <- !app_assoc|]. split; [reflexivity|].
      rewrite !count_queries_app. cbn. lia.
    + eexists _, _, []. split; [exact Hclass|]. split; [reflexivity|].
      unfold record_event. cbn [trace].
      split; [now rewrite <- !app_assoc|]. split; [reflexivity|].
      rewrite !count_queries_app. cbn. lia.
  - intros q V Hprimary Hsecondary Hwhole.
    destruct (attempt_falls_back name w Hprimary) as (e & _ & He).
    exists e. eexists. split; [|split].
    + apply stock_value_first_attempt. rewrite He.
      rewrite (fetch2_number _ _ q).
      * rewrite (py_round_whole q V Hwhole). reflexivity.
      * unfold record_event. cbn [trace].
        rewrite !count_queries_app. cbn. now rewrite !Nat.add_0_r.
    + unfold record_event. cbn [trace]. now rewrite <- !app_assoc.
    + unfold record_event. cbn [trace]. set_solver.
  - intros e He Hexc Hno. eexists. split.
    + apply stock_value_first_attempt.
      apply (attempt_gives_up name w e He Hexc Hno).
    + unfold record_event. cbn [trace]. now rewrite <- app_assoc.
Qed.

(** C5: when both services fail, [stock_value] returns the sentinel
    [-0.1] and raises nothing; [produce_msg] then carries the sentinel in
    the message.  The first service fails when it raises an [Exception]
    or gives no number; the second when it raises an [Exception] or
    gives nothing that [round(float(_))] turns into an integer. *)
Theorem both_sources_fail_gives_sentinel :
  (forall name w,
     primary_fails
       (get_live_price (upper name) (count_queries YahooFin (trace w))) = true ->
     secondary_fails
       (last_close name (count_queries YFinance (trace w))) = true ->
     exists w',
       stock_value get_live_price last_close name w = (Ok sentinel, w')) /\
  ((forall symbol n, primary_fails (get_live_price symbol n) = true) ->
   (forall symbol n, secondary_fails (last_close symbol n) = true) ->
   forall w,
     exists message key w',
       produce_msg get_live_price last_close w = (Ok (message, key), w') /\
       message !! "stock_value" = Some sentinel) /\
  sentinel = VNum (-1 # 10).
Proof.
  assert (Hone : forall name w,
     primary_fails
       (get_live_price (upper name) (count_queries YahooFin (trace w))) = true ->
     secondary_fails
       (last_close name (count_queries YFinance (trace w))) = true ->
     exists w',
       stock_value get_live_price last_close name w = (Ok sentinel, w')).
  { intros name w Hp Hs.
    destruct (triggers_fallback
                (get_live_price (upper name)
                   (count_queries YahooFin (trace w)))) eqn:Hfb.
    - destruct (attempt_falls_back name w Hfb) as (e & _ & He).
      destruct (fetch2_fails name
                  (record_event (record_event w (Query YahooFin (upper name)))
                                (LogFailure WARNING e))) as [w' Hw'].
      + unfold record_event. cbn [trace].
        rewrite !count_queries_app. cbn. now rewrite !Nat.add_0_r.
      + exists w'. apply stock_value_first_attempt. now rewrite He.
    - destruct (attempt_primary_fails name w Hp Hfb) as [w' Hw'].
      exists w'. now apply stock_value_first_attempt. }
  split; [exact Hone|]. split; [|reflexivity].
  intros Hp Hs w.
  destruct (random_choice_run STOCK_SYMBOLS w) as (name & _ & Hname); [done|].
  destruct (Hone name
              (World (globals w) (advance (gen w)) (now w) (trace w))
              (Hp _ _) (Hs _ _)) as [w' Hw'].
  eexists _, _, _. split.
  - unfold produce_msg, stock_name. rewrite (bind_ok _ _ _ _ _ Hname).
    assert (Htry : try_except_only is_RetryError
                     (stock_value get_live_price last_close name)
                     (fun _ => mret (VStr "Data Unavailable"))
                     (World (globals w) (advance (gen w)) (now w) (trace w))
                   = (Ok sentinel, w')).
    { unfold try_except_only. now rewrite Hw'. }
    rewrite (bind_ok _ _ _ _ _ Htry). reflexivity.
  - reflexivity.
Qed.

End RealStockFacts.

(** C3 as stated fails.  With a first service that raises
    [ConnectionError] and a second one that would answer 100,
    [stock_value] returns the sentinel and never asks the second
    service.  With a first service that answers [None] and a second one
    that answers 123.45, it returns the integer 123. *)
Lemma fallback_not_after_every_failure :
  let w0 := start tt (constant_rng 0) in
  let refused :=
    RealStock.stock_value (fun _ _ => Raise ConnectionError)
                          (fun _ _ => Ok (VNum 100)) "BTC-USD" w0 in
  let rounded :=
    RealStock.stock_value (fun _ _ => Ok VNone)
                          (fun _ _ => Ok (VNum (12345 # 100))) "BTC-USD" w0 in
  (refused =
     (Ok (VNum (-1 # 10)),
      World tt (constant_rng 0) 0
            [Query YahooFin "BTC-USD"; LogFailure WARNING ConnectionError]) /\
   refused.1 <> Ok (VNum 100) /\
   Query YFinance "BTC-USD" ∉ trace refused.2) /\
  (rounded =
     (Ok (VInt 123),
      World tt (constant_rng 0) 0
            [Query YahooFin "BTC-USD"; LogFailure WARNING ValueError;
             Query YFinance "BTC-USD"]) /\
   rounded.1 <> Ok (VNum (12345 # 100))).
Proof.
  intros w0 refused rounded.
  assert (H1 : refused =
     (Ok (VNum (-1 # 10)),
      World tt (constant_rng 0) 0
            [Query YahooFin "BTC-USD"; LogFailure WARNING ConnectionError]))
    by reflexivity.
  assert (H2 : rounded =
     (Ok (VInt 123),
      World tt (constant_rng 0) 0
            [Query YahooFin "BTC-USD"; LogFailure WARNING ValueError;
             Query YFinance "BTC-USD"])) by reflexivity.
  split; (split; [assumption|]).
  - rewrite H1. cbn [fst snd trace]. split; [discriminate|].
    intros Hin. apply elem_of_cons in Hin as [Hin|Hin]; [discriminate|].
    apply elem_of_cons in Hin as [Hin|Hin]; [discriminate|]. inversion Hin.
  - rewrite H2. cbn [fst]. discriminate.
Qed.

Lemma fallback_after_empty_or_lookup_error_witness :
  let w0 := start tt (constant_rng 0) in
  (exists e r w' rest,
     (e = ValueError \/ e = KeyError) /\
     RealStock.stock_value (fun _ _ => Ok VNone)
                           (fun _ _ => Raise IndexError) "btc-usd" w0
       = (r, w') /\
     trace w' =
       trace w0 ++ [Query YahooFin (upper "btc-usd"); LogFailure WARNING e;
                    Query YFinance "btc-usd"] ++ rest /\
     RealStock.count_queries YFinance rest = 0%nat /\
     RealStock.count_queries YFinance (trace w')
       = S (RealStock.count_queries YFinance (trace w0))) /\
  (exists e w',
     RealStock.stock_value (fun _ _ => Raise KeyError)
                           (fun _ _ => Ok (VNum 100)) "btc-usd" w0
       = (Ok (VInt 100), w') /\
     trace w' =
       trace w0 ++ [Query YahooFin (upper "btc-usd"); LogFailure WARNING e;
                    Query YFinance "btc-usd"] /\
     Query YFinance "btc-usd" ∈ trace w') /\
  (exists w',
     RealStock.stock_value (fun _ _ => Raise ConnectionError)
                           (fun _ _ => Ok (VNum 100)) "btc-usd" w0
       = (Ok RealStock.sentinel, w') /\
     trace w' =
       trace w0 ++ [Query YahooFin (upper "btc-usd");
                    LogFailure WARNING ConnectionError]).
Proof.
  intros w0. split; [|split].
  - apply (proj1 (fallback_after_empty_or_lookup_error
                    (fun _ _ => Ok VNone) (fun _ _ => Raise IndexError)
                    "btc-usd" w0)).
    reflexivity.
  - apply (proj1 (proj2 (fallback_after_empty_or_lookup_error
                           (fun _ _ => Raise KeyError)
                           (fun _ _ => Ok (VNum 100)) "btc-usd" w0))
             100%Q 100%Z); reflexivity.
  - apply (proj2 (proj2 (fallback_after_empty_or_lookup_error
                           (fun _ _ => Raise ConnectionError)
                           (fun _ _ => Ok (VNum 100)) "btc-usd" w0))
             ConnectionError); reflexivity.
Defined.

Lemma both_sources_fail_gives_sentinel_witness :
  let w0 := start tt (constant_rng 3) in
  (exists w',
     RealStock.stock_value (fun _ _ => Ok VNone) (fun _ _ => Ok (VStr "n/a"))
                           "ETH-USD" w0 = (Ok RealStock.sentinel, w')) /\
  (exists message key w',
     RealStock.produce_msg (fun _ _ => Raise ConnectionError)
                           (fun _ _ => Raise IndexError) w0
       = (Ok (message, key), w') /\
     message !! "stock_value" = Some RealStock.sentinel).
Proof.
  intros w0. split.
  - pose proof (both_sources_fail_gives_sentinel
                  (fun _ _ => Ok VNone) (fun _ _ => Ok (VStr "n/a")))
      as (Hone & _ & _).
    apply (Hone "ETH-USD" w0); reflexivity.
  - pose proof (both_sources_fail_gives_sentinel
                  (fun _ _ => Raise ConnectionError)
                  (fun _ _ => Raise IndexError))
      as (_ & Hall & _).
    apply (Hall (fun _ _ => eq_refl) (fun _ _ => eq_refl) w0).
Defined.

(** An answer of the second service that is the text of a number is
    converted like the number: [float] reads it, [round] gives the
    nearest integer.  Texts that stand for no finite number give the
    sentinel. *)
Lemma text_answers_of_second_service :
  let asked v :=
    (RealStock.stock_value (fun _ _ => Ok VNone) (fun _ _ => Ok v)
                           "BTC-USD" (start tt (constant_rng 0))).1 in
  asked (VStr "100") = Ok (VInt 100) /\
  asked (VStr " 12.5e1 ") = Ok (VInt 125) /\
  asked (VStr "1_000.49") = Ok (VInt 1000) /\
  asked (VStr "2.5") = Ok (VInt 2) /\
  asked (VStr "3.4999999999999999999") = Ok (VInt 4) /\
  asked (VStr "-.5") = Ok (VInt 0) /\
  asked (VInt 9007199254740993) = Ok (VInt 9007199254740992) /\
  asked (VStr "nan") = Ok RealStock.sentinel /\
  asked (VStr "1e400") = Ok RealStock.sentinel /\
  asked (VStr "1,5") = Ok RealStock.sentinel /\
  RealStock.secondary_fails (Ok (VStr "100")) = false /\
  RealStock.secondary_fails (Ok (VStr "1,5")) = true.
Proof. vm_compute. repeat split. Qed.

Section MonadInversion.

Lemma bind_inv {G A B} (c : M G A) (k : A -> M G B) (w : world G) r w' :
  (x ← c; k x) w = (Ok r, w') ->
  exists a w1, c w = (Ok a, w1) /\ k a w1 = (Ok r, w').
Proof.
  unfold mbind, M_bind, bind. destruct (c w) as [[a|e] w1]; [eauto|discriminate].
Qed.

Lemma bind_raise_inv {G A B} (c : M G A) (k : A -> M G B) (w : world G) e w' :
  (x ← c; k x) w = (Raise e, w') ->
  c w = (Raise e, w') \/
  exists a w1, c w = (Ok a, w1) /\ k a w1 = (Raise e, w').
Proof.
  unfold mbind, M_bind, bind. destruct (c w) as [[a|e1] w1]; [eauto|].
  intros [= -> ->]. now left.
Qed.

Lemma random_randint_empty {G} (a b : Z) (w : world G) :
  (b < a)%Z -> random_randint a b w = (Raise ValueError, w).
Proof.
  intros H. unfold random_randint. apply Z.ltb_lt in H. now rewrite H.
Qed.

Lemma random_randint_run {G} (a b : Z) (w : world G) :
  (a <= b)%Z ->
  exists n,
    (a <= n <= b)%Z /\
    random_randint a b w =
    (Ok n, World (globals w) (advance (gen w)) (now w) (trace w)).
Proof.
  intros H. unfold random_randint.
  assert (Hltb : (b <? a)%Z = false) by (apply Z.ltb_ge; lia).
  rewrite Hltb.
  exists (a + Z.of_N (raw (gen w) (pos (gen w)) mod Z.to_N (b - a + 1)))%Z.
  split; [|reflexivity].
  assert (Hne : Z.to_N (b - a + 1) <> 0%N).
  { intros Heq. apply (f_equal Z.of_N) in Heq.
    rewrite Z2N.id in Heq; simpl in Heq; lia. }
  pose proof (N.mod_lt (raw (gen w) (pos (gen w))) _ Hne) as Hlt.
  apply N2Z.inj_lt in Hlt. rewrite Z2N.id in Hlt by lia.
  pose proof (N2Z.is_nonneg
                (raw (gen w) (pos (gen w)) mod Z.to_N (b - a + 1))).
  lia.
Qed.

Lemma random_randint_raises {G} (a b : Z) (w : world G) e w' :
  random_randint a b w = (Raise e, w') -> e = ValueError /\ (b < a)%Z.
Proof.
  destruct (Z.lt_ge_cases b a) as [Hlt|Hge].
  - rewrite (random_randint_empty a b w Hlt). now intros [= <- _].
  - destruct (random_randint_run a b w Hge) as (n & _ & Hn). rewrite Hn.
    discriminate.
Qed.

End MonadInversion.

Section MetricAdvancedFacts.

Import MetricAdvanced.

Implicit Types (w : world unit) (self : provider).

(** Only the two [randint] calls can fail in the body. *)
Lemma produce_msg_body_raises self w e w1 :
  produce_msg_body self w = (Raise e, w1) ->
  e = ValueError /\ (host self < 0 \/ cpu self < 0)%Z.
Proof.
  unfold produce_msg_body, hostname, cpu_id, usage. intros H.
  apply bind_raise_inv in H as [H|(name & w2 & _ & H)].
  { apply bind_raise_inv in H as [H|(n & w2 & _ & H)]; [|discriminate].
    apply random_randint_raises in H as [-> Hlt]. split; [reflexivity|lia]. }
  apply bind_raise_inv in H as [H|(t & w3 & _ & H)]; [discriminate|].
  cbv zeta in H.
  apply bind_raise_inv in H as [H|(c & w4 & _ & H)].
  { apply bind_raise_inv in H as [H|(n & w5 & _ & H)]; [|discriminate].
    apply random_randint_raises in H as [-> Hlt]. split; [reflexivity|lia]. }
  apply bind_raise_inv in H as [H|(u & w5 & _ & H)].
  { apply bind_raise_inv in H as [H|(n & w6 & _ & H)]; discriminate. }
  apply bind_raise_inv in H as [H|(u' & w6 & _ & H)]; discriminate.
Qed.

Lemma produce_msg_body_fails self w :
  (host self < 0 \/ cpu self < 0)%Z ->
  exists w1, produce_msg_body self w = (Raise ValueError, w1).
Proof.
  intros Hneg. unfold produce_msg_body, hostname, cpu_id.
  destruct (Z.lt_ge_cases (host self) 0) as [Hh|Hh].
  - eexists.
    rewrite (bind_raise _ _ w ValueError w); [reflexivity|].
    now rewrite (bind_raise _ _ w ValueError w (random_randint_empty 0 _ w Hh)).
  - assert (Hc : (cpu self < 0)%Z) by lia.
    destruct (random_randint_run 0 (host self) w Hh) as (n & _ & Hn).
    eexists.
    erewrite (bind_ok _ _ w); [|now rewrite (bind_ok _ _ _ _ _ Hn)].
    unfold time_time at 1. unfold mbind at 1, M_bind at 1, bind at 1.
    cbv zeta.
    erewrite bind_raise; [reflexivity|].
    now rewrite (bind_raise _ _ _ ValueError _ (random_randint_empty 0 _ _ Hc)).
Qed.

(** C10: [MetricAdvancedProvider.produce_msg] never raises.  Whatever is
    raised while the message is built is caught inside, logged as an
    error, and the pair of two empty dicts is returned in place of a
    (message, key) pair; a negative host or cpu bound makes that
    happen. *)
Theorem metric_advanced_never_raises :
  (forall self w,
     exists message key w', produce_msg self w = (Ok (message, key), w')) /\
  (forall self w e w1,
     produce_msg_body self w = (Raise e, w1) ->
     produce_msg self w = (Ok (∅, ∅), record_event w1 (LogFailure ERROR e))) /\
  (forall self w,
     (host self < 0 \/ cpu self < 0)%Z ->
     exists w', produce_msg self w = (Ok (∅, ∅), w')).
Proof.
  assert (Hcaught : forall self w e w1,
     produce_msg_body self w = (Raise e, w1) ->
     produce_msg self w = (Ok (∅, ∅), record_event w1 (LogFailure ERROR e))).
  { intros self w e w1 Hbody.
    destruct (produce_msg_body_raises self w e w1 Hbody) as [-> _].
    unfold produce_msg, try_except. now rewrite Hbody. }
  split; [|split; [exact Hcaught|]].
  - intros self w.
    destruct (produce_msg_body self w) as [[[message key]|e] w1] eqn:Hbody.
    + exists message, key, w1. unfold produce_msg, try_except. now rewrite Hbody.
    + eexists _, _, _. apply (Hcaught self w e w1 Hbody).
  - intros self w Hneg.
    destruct (produce_msg_body_fails self w Hneg) as [w1 Hbody].
    eexists. apply (Hcaught self w ValueError w1 Hbody).
Qed.

Lemma metric_advanced_never_raises_witness :
  let self := {| host := -1; cpu := 30 |} in
  let w0 := start tt (constant_rng 0) in
  produce_msg self w0 =
    (Ok (∅, ∅), record_event w0 (LogFailure ERROR ValueError)) /\
  (exists w', produce_msg self w0 = (Ok (∅, ∅), w')).
Proof.
  intros self w0.
  pose proof metric_advanced_never_raises as (_ & Hcaught & Hneg).
  split.
  - apply (Hcaught self w0 ValueError w0). reflexivity.
  - apply (Hneg self w0). left. reflexivity.
Defined.

End MetricAdvancedFacts.

Section RenderKeys.

(** Walks back through the statements of a producer that returned. *)
Ltac unwind H :=
  repeat (apply bind_inv in H as (? & ? & _ & H); cbv zeta in H).

Ltac returned H :=
  unfold mret, M_ret, ret in H; inversion H; subst; clear H.

Ltac domains := rewrite ?dom_insert_L, ?dom_empty_L.

Lemma metric_key_in_message (w : world unit) message key w' :
  Metric.produce_msg w = (Ok (message, key), w') -> dom key ⊆ dom message.
Proof.
  unfold Metric.produce_msg. intros H.
  apply bind_inv in H as (t & w1 & _ & H). cbv zeta in H.
  unwind H. returned H. domains. set_solver.
Qed.

Lemma metric_advanced_key_in_message self (w : world unit) message key w' :
  MetricAdvanced.produce_msg self w = (Ok (message, key), w') ->
  dom key ⊆ dom message.
Proof.
  unfold MetricAdvanced.produce_msg, try_except. intros H.
  destruct (MetricAdvanced.produce_msg_body self w) as [[[m k]|e] w1] eqn:Hbody.
  - injection H as <- <- <-. unfold MetricAdvanced.produce_msg_body in Hbody.
    unwind Hbody. returned Hbody. domains. set_solver.
  - destruct (is_Exception e); [|discriminate].
    unfold log_failure, emit_event, mbind, M_bind, bind in H.
    returned H. set_solver.
Qed.

Lemma pizza_key_in_message unique_name unique_phone_number address
    order_count max_pizzas max_toppings (w : world unit) message key w' :
  Pizza.produce_msg unique_name unique_phone_number address
                    order_count max_pizzas max_toppings w
    = (Ok (message, key), w') ->
  dom key ⊆ dom message.
Proof.
  unfold Pizza.produce_msg. intros H.
  unwind H. returned H. domains. set_solver.
Qed.

Lemma real_stock_key_in_message get_live_price last_close
    (w : world unit) message key w' :
  RealStock.produce_msg get_live_price last_close w = (Ok (message, key), w') ->
  dom key ⊆ dom message.
Proof.
  unfold RealStock.produce_msg. intros H.
  unwind H. returned H. domains. set_solver.
Qed.

Lemma random_stock_key_is_constant (w : world RandomStock.stocks)
    message key w' :
  RandomStock.produce_msg w = (Ok (message, key), w') ->
  key = (<["user" := VStr "all_users"]> ∅) /\
  dom message = {["stock_name"; "stock_value"; "timestamp"]} /\
  "user" ∉ dom message.
Proof.
  unfold RandomStock.produce_msg. intros H.
  unwind H. returned H. split; [reflexivity|].
  domains. split; set_solver.
Qed.

Lemma bets_dict_get_inv (m : gmap string pyval) k (w : world unit) v w' :
  Bets.dict_get m k w = (Ok v, w') -> m !! k = Some v /\ w' = w.
Proof.
  unfold Bets.dict_get. destruct (m !! k); [|discriminate].
  now intros [= -> ->].
Qed.

Lemma bets_key_fields_are_nested self risk_profile (w : world unit)
    message key w' :
  Bets.produce_msg self risk_profile w = (Ok (message, key), w') ->
  dom key = {["event"; "category"; "subcategory"]} /\
  dom message = {["username"; "event"; "amount"; "timestamp"]} /\
  ("category" ∉ dom message) /\
  ("subcategory" ∉ dom message) /\
  exists inner,
    message !! "event" = Some (VDict inner) /\
    {["category"; "subcategory"]} ⊆ dom inner.
Proof.
  unfold Bets.produce_msg. intros H.
  do 7 (apply bind_inv in H as (? & ? & _ & H)). cbv zeta in H.
  apply bind_inv in H as (k & w1 & Hkey & H). returned H.
  unfold Bets.dynamic_key in Hkey. unwind Hkey. returned Hkey.
  split; [domains; set_solver|].
  split; [domains; set_solver|].
  split; [domains; set_solver|].
  split; [domains; set_solver|].
  eexists. split; [reflexivity|]. domains. set_solver.
Qed.

Lemma metric_produce_returns (w : world unit) :
  exists message key w', Metric.produce_msg w = (Ok (message, key), w').
Proof.
  unfold Metric.produce_msg, time_time.
  unfold mbind at 1, M_bind at 1, bind at 1. cbv zeta.
  destruct (random_choice_run Metric._VALID_HOSTNAMES w) as (h & _ & Hh);
    [done|].
  unfold Metric.hostname. rewrite (bind_ok _ _ _ _ _ Hh).
  destruct (random_choice_run Metric._VALID_CPUS
              (World (globals w) (advance (gen w)) (now w) (trace w)))
    as (c & _ & Hc); [done|].
  unfold Metric.cpu_id. rewrite (bind_ok _ _ _ _ _ Hc).
  eexists _, _, _. reflexivity.
Qed.

(** C1 (as the code has it): for the metric, advanced metric, pizza and
    live stock producers, every field name of the key returned by
    [produce_msg] is a field name of the message returned with it.  The
    random stock producer returns the fixed key [{"user": "all_users"}],
    and "user" is no field of its message.  The bet producer's key has
    the fields event, category and subcategory; the last two are no
    fields of its message, they occur inside the message's nested event
    dict. *)
Theorem key_fields_per_producer :
  (forall (w : world unit),
     exists message key w', Metric.produce_msg w = (Ok (message, key), w')) /\
  (forall (w : world unit) message key w',
     Metric.produce_msg w = (Ok (message, key), w') ->
     dom key ⊆ dom message) /\
  (forall self (w : world unit) message key w',
     MetricAdvanced.produce_msg self w = (Ok (message, key), w') ->
     dom key ⊆ dom message) /\
  (forall unique_name unique_phone_number address order_count
          max_pizzas max_toppings (w : world unit) message key w',
     Pizza.produce_msg unique_name unique_phone_number address
                       order_count max_pizzas max_toppings w
       = (Ok (message, key), w') ->
     dom key ⊆ dom message) /\
  (forall get_live_price last_close (w : world unit) message key w',
     RealStock.produce_msg get_live_price last_close w
       = (Ok (message, key), w') ->
     dom key ⊆ dom message) /\
  (forall (w : world RandomStock.stocks) message key w',
     RandomStock.produce_msg w = (Ok (message, key), w') ->
     key = (<["user" := VStr "all_users"]> ∅) /\
     dom message = {["stock_name"; "stock_value"; "timestamp"]} /\
     "user" ∉ dom message) /\
  (forall self risk_profile (w : world unit) message key w',
     Bets.produce_msg self risk_profile w = (Ok (message, key), w') ->
     dom key = {["event"; "category"; "subcategory"]} /\
     dom message = {["username"; "event"; "amount"; "timestamp"]} /\
     ("category" ∉ dom message) /\
     ("subcategory" ∉ dom message) /\
     exists inner,
       message !! "event" = Some (VDict inner) /\
       {["category"; "subcategory"]} ⊆ dom inner).
Proof.
  split; [exact metric_produce_returns|].
  split; [exact metric_key_in_message|].
  split; [exact metric_advanced_key_in_message|].
  split; [exact pizza_key_in_message|].
  split; [exact real_stock_key_in_message|].
  split; [exact random_stock_key_is_constant|].
  exact bets_key_fields_are_nested.
Qed.

(** C1 as stated fails: the key that the random stock producer returns
    has the field "user", which its message does not have. *)
Lemma random_stock_key_not_in_message :
  exists message key w',
    RandomStock.produce_msg
      (start RandomStock.initial_stocks (constant_rng 0))
      = (Ok (message, key), w') /\
    "user" ∈ dom key /\
    ~ dom key ⊆ dom message.
Proof.
  destruct (random_stock_produce_run
              (start RandomStock.initial_stocks (constant_rng 0)))
    as (_ & _ & _ & _ & message & key & w' & Hrun & _);
    [discriminate | reflexivity | reflexivity |].
  exists message, key, w'. split; [exact Hrun|].
  destruct (random_stock_key_is_constant _ _ _ _ Hrun) as (-> & _ & Hout).
  assert (Hin : "user" ∈ dom (<["user" := VStr "all_users"]>
                                (∅ : gmap string pyval)))
    by (rewrite dom_insert_L; set_solver).
  split; [exact Hin|]. intros Hsub. apply Hout, Hsub, Hin.
Qed.

Lemma key_fields_per_producer_witness :
  (exists message key w',
     Metric.produce_msg (start tt (constant_rng 12)) = (Ok (message, key), w') /\
     dom key ⊆ dom message) /\
  (exists message key w',
     RandomStock.produce_msg
       (start RandomStock.initial_stocks (constant_rng 12))
       = (Ok (message, key), w') /\
     key = (<["user" := VStr "all_users"]> ∅) /\
     dom message = {["stock_name"; "stock_value"; "timestamp"]} /\
     "user" ∉ dom message).
Proof.
  pose proof key_fields_per_producer
    as (Hreturns & Hmetric & _ & _ & _ & Hstock & _).
  split.
  - destruct (Hreturns (start tt (constant_rng 12)))
      as (message & key & w' & Hrun).
    exists message, key, w'. split; [exact Hrun|].
    apply (Hmetric _ _ _ _ Hrun).
  - destruct (random_stock_produce_run
                (start RandomStock.initial_stocks (constant_rng 12)))
      as (_ & _ & _ & _ & message & key & w' & Hrun & _);
      [discriminate | reflexivity | reflexivity |].
    exists message, key, w'. split; [exact Hrun|].
    apply (Hstock _ _ _ _ Hrun).
Defined.

End RenderKeys.

(* ===================================================================== *)
(** * Further properties of the random stock producer                     *)
(* ===================================================================== *)

Section RandomStockMore.

Import RandomStock.

Implicit Types (w : world stocks) (name : string).

Lemma list_index_absent x (l : list string) :
  x ∉ l -> list_index x l = None.
Proof.
  induction l as [|y l IH]; intros Hout; [reflexivity|].
  simpl. destruct (String.eqb y x) eqn:E.
  - apply String.eqb_eq in E. subst. exfalso. apply Hout. left.
  - rewrite IH; [reflexivity|]. intros Hin. apply Hout. now right.
Qed.

(** X1: a stock name that is not in [StockNames] makes [stock_value] and
    [reshuffle_probs] raise [ValueError] before anything is drawn or
    stored: the world is left exactly as it was. *)
Theorem unknown_stock_name_raises name w :
  name ∉ StockNames (globals w) ->
  stock_value name w = (Raise ValueError, w) /\
  reshuffle_probs name w = (Raise ValueError, w).
Proof.
  intros Hout. apply list_index_absent in Hout.
  unfold stock_value, reshuffle_probs, index_of, mbind, M_bind, bind, get_globals.
  rewrite Hout. split; reflexivity.
Qed.

Lemma unknown_stock_name_raises_witness :
  let w := start initial_stocks (constant_rng 9) in
  stock_value "Tesla" w = (Raise ValueError, w) /\
  reshuffle_probs "Tesla" w = (Raise ValueError, w).
Proof.
  apply (unknown_stock_name_raises "Tesla"
           (start initial_stocks (constant_rng 9))).
  cbn. intros Hin.
  repeat (apply elem_of_cons in Hin as [Hin|Hin]; [discriminate|]).
  inversion Hin.
Defined.

(** X2: for a known stock, [reshuffle_probs] stores the number drawn as
    the stock's new up-probability; reading the probability back by name
    gives that number, which lies in [[0, 1)] (so it is never 1), and the
    stock's current value is as before. *)
Theorem reshuffle_probs_stores_draw name w i :
  list_index name (StockNames (globals w)) = Some i ->
  (i < length (StockUpProb (globals w)))%nat ->
  exists w',
    reshuffle_probs name w = (Ok tt, w') /\
    up_prob_of (globals w') name = Some (unit_draw (gen w)) /\
    (0 <= unit_draw (gen w) < 1)%Q /\
    current_value_of (globals w') name = current_value_of (globals w) name /\
    gen w' = advance (gen w).
Proof.
  intros Hi Hlt. eexists. split; [apply (reshuffle_probs_run name w i Hi Hlt)|].
  cbn [globals gen]. unfold up_prob_of, current_value_of.
  cbn [StockNames StockUpProb StockCurrentValues]. rewrite Hi. simpl.
  split; [now apply list_lookup_insert_eq|].
  split; [split; [apply unit_draw_nonneg|apply unit_draw_lt_1]|].
  split; reflexivity.
Qed.

Lemma reshuffle_probs_stores_draw_witness :
  let w := start initial_stocks (constant_rng 4503599627370496) in
  exists w',
    reshuffle_probs "Bread Pitt" w = (Ok tt, w') /\
    up_prob_of (globals w') "Bread Pitt" = Some (unit_draw (gen w)) /\
    (0 <= unit_draw (gen w) < 1)%Q /\
    current_value_of (globals w') "Bread Pitt"
      = current_value_of (globals w) "Bread Pitt" /\
    gen w' = advance (gen w).
Proof.
  apply (reshuffle_probs_stores_draw "Bread Pitt"
           (start initial_stocks (constant_rng 4503599627370496)) 4%nat).
  - reflexivity.
  - cbn. lia.
Defined.

End RandomStockMore.

(* ===================================================================== *)
(** * Further properties of the emission loop                             *)
(* ===================================================================== *)

Section LoopMore.

Import Loop.

Context {G : Type}.
Variable produce : M G (gmap string pyval * gmap string pyval).
Variable hand_over : gmap string pyval -> M G unit.

Implicit Types (w : world G) (e : exn).

Lemma random_uniform_run (a b : Q) w :
  random_uniform a b w =
  (Ok (a + (b - a) * unit_draw (gen w))%Q,
   World (globals w) (advance (gen w)) (now w) (trace w)).
Proof. reflexivity. Qed.

Lemma random_uniform_bounds (a b : Q) (g : rng) :
  (a <= b)%Q -> (a <= a + (b - a) * unit_draw g <= b)%Q.
Proof.
  intros Hab. pose proof (unit_draw_nonneg g). pose proof (unit_draw_lt_1 g).
  split; nra.
Qed.

(** The pause that a pass takes when nothing was raised. *)
Lemma pause_run w :
  (pause ← random_uniform 1 5; time_sleep pause) w =
  (Ok tt,
   World (globals w) (advance (gen w))
         (now w + (1 + (5 - 1) * unit_draw (gen w)))%Q
         (trace w ++ [Sleep (1 + (5 - 1) * unit_draw (gen w))%Q])).
Proof. reflexivity. Qed.

(** A pass in which nothing is raised, with the pause written out. *)
Lemma quiet_pass_run w message key w1 :
  produce w = (Ok (message, key), w1) ->
  (forall w2,
     truthy message = true ->
     hand_over message w1 = (Ok tt, w2) ->
     let d := (1 + (5 - 1) * unit_draw (gen w2))%Q in
     iteration produce hand_over w =
     (Ok tt,
      World (globals w2) (advance (gen w2)) (now w2 + d)%Q
            (trace w2 ++ [Sleep d]))) /\
  (truthy message = false ->
     let d := (1 + (5 - 1) * unit_draw (gen w1))%Q in
     iteration produce hand_over w =
     (Ok tt,
      World (globals w1) (advance (gen w1)) (now w1 + d)%Q
            (trace w1 ++ [Sleep d]))).
Proof.
  intros Hp. split.
  - intros w2 Ht Hh d. apply iteration_passes. unfold iteration_body.
    rewrite (bind_ok _ _ _ _ _ Hp). rewrite Ht.
    rewrite (bind_ok _ _ _ _ _ Hh). apply pause_run.
  - intros Ht d. apply iteration_passes. unfold iteration_body.
    rewrite (bind_ok _ _ _ _ _ Hp). rewrite Ht.
    unfold mbind at 1, M_bind at 1, bind at 1.
    unfold mret at 1, M_ret at 1, ret at 1. apply pause_run.
Qed.

Lemma pause_between_one_and_five (g : rng) :
  (1 <= 1 + (5 - 1) * unit_draw g <= 5)%Q.
Proof. apply random_uniform_bounds. lra. Qed.

(** X4: a pass of the loop in which nothing is raised ends with one
    sleep of at least 1 and at most 5 seconds, after the message was
    handed over, and the clock is then at least that much later; an
    empty message (as the advanced metric producer returns after an
    internal failure) is not handed over at all. *)
Theorem quiet_pass_sleeps_one_to_five w message key w1 :
  produce w = (Ok (message, key), w1) ->
  (forall w2,
     truthy message = true ->
     hand_over message w1 = (Ok tt, w2) ->
     exists d w',
       (1 <= d <= 5)%Q /\
       iteration produce hand_over w = (Ok tt, w') /\
       globals w' = globals w2 /\
       trace w' = trace w2 ++ [Sleep d] /\
       (now w2 + d <= now w')%Q) /\
  (truthy message = false ->
     exists d w',
       (1 <= d <= 5)%Q /\
       iteration produce hand_over w = (Ok tt, w') /\
       globals w' = globals w1 /\
       trace w' = trace w1 ++ [Sleep d] /\
       (now w1 + d <= now w')%Q).
Proof.
  intros Hp. destruct (quiet_pass_run w message key w1 Hp) as [Hfull Hempty].
  split.
  - intros w2 Ht Hh. eexists _, _.
    split; [apply (pause_between_one_and_five (gen w2))|].
    split; [apply (Hfull w2 Ht Hh)|].
    cbn [globals trace now]. split; [reflexivity|]. split; [reflexivity|].
    apply Qle_refl.
  - intros Ht. eexists _, _.
    split; [apply (pause_between_one_and_five (gen w1))|].
    split; [apply (Hempty Ht)|].
    cbn [globals trace now]. split; [reflexivity|]. split; [reflexivity|].
    apply Qle_refl.
Qed.

Lemma iteration_raises_only_base w e w' :
  iteration produce hand_over w = (Raise e, w') -> is_Exception e = false.
Proof.
  unfold iteration, try_except.
  destruct (iteration_body produce hand_over w) as [[[]|e1] w1]; [discriminate|].
  destruct (is_Exception e1) eqn:He1.
  - unfold log_failure, emit_event, time_sleep, mbind, M_bind, bind.
    discriminate.
  - now intros [= <- _].
Qed.

(** X5: the loop can only be left through an exception that is not an
    [Exception] (such as [KeyboardInterrupt]): whenever [n] passes end
    with something raised, it is of that kind.  And when the producer
    raises one, the loop ends in that very pass, without a critical log
    line and without the recovery sleep. *)
Theorem loop_ends_only_by_base_exception :
  (forall n w e w',
     run produce hand_over n w = (Raise e, w') -> is_Exception e = false) /\
  (forall n w e w1,
     produce w = (Raise e, w1) ->
     is_Exception e = false ->
     run produce hand_over (S n) w = (Raise e, w1)).
Proof.
  split.
  - intros n. induction n as [|n IH]; intros w e w'; [discriminate|].
    cbn [run]. intros H. apply bind_raise_inv in H as [H|(? & w1 & _ & H)].
    + now apply iteration_raises_only_base in H.
    + now apply IH in H.
  - intros n w e w1 Hp He. cbn [run].
    apply bind_raise. unfold iteration, try_except.
    now rewrite (body_raises_in_render _ _ _ _ _ Hp), He.
Qed.

End LoopMore.

Lemma quiet_pass_sleeps_one_to_five_witness :
  let w0 := start tt (constant_rng 0) in
  let message : gmap string pyval := <["id" := VInt 1]> ∅ in
  (exists d w',
     (1 <= d <= 5)%Q /\
     Loop.iteration (mret (message, ∅)) (log_message INFO) w0 = (Ok tt, w') /\
     globals w' = tt /\
     trace w' = [LogMessage INFO message] ++ [Sleep d] /\
     (0 + d <= now w')%Q) /\
  (exists d w',
     (1 <= d <= 5)%Q /\
     Loop.iteration (mret (∅, ∅)) (log_message INFO) w0 = (Ok tt, w') /\
     globals w' = tt /\
     trace w' = [] ++ [Sleep d] /\
     (0 + d <= now w')%Q).
Proof.
  intros w0 message. split.
  - apply (proj1 (quiet_pass_sleeps_one_to_five (G := unit)
                    (mret (message, ∅)) (log_message INFO)
                    w0 message ∅ w0 eq_refl)
             (World tt (constant_rng 0) 0 [LogMessage INFO message]));
      reflexivity.
  - apply (proj2 (quiet_pass_sleeps_one_to_five (G := unit)
                    (mret (∅, ∅)) (log_message INFO) w0 ∅ ∅ w0 eq_refl)).
    reflexivity.
Defined.

Lemma loop_ends_only_by_base_exception_witness :
  let w0 := start tt (constant_rng 0) in
  Loop.run (raise KeyboardInterrupt) (log_message INFO) 3 w0
    = (Raise KeyboardInterrupt, w0) /\
  is_Exception KeyboardInterrupt = false.
Proof.
  intros w0.
  pose proof (loop_ends_only_by_base_exception (G := unit)
                (raise KeyboardInterrupt) (log_message INFO)) as (Honly & Hends).
  assert (Hrun : Loop.run (raise KeyboardInterrupt) (log_message INFO) 3 w0
                 = (Raise KeyboardInterrupt, w0)).
  { apply (Hends 2%nat w0 KeyboardInterrupt w0); reflexivity. }
  split; [exact Hrun|]. exact (Honly 3%nat w0 KeyboardInterrupt w0 Hrun).
Defined.

Section RandomStockLoop.

Import RandomStock.

Implicit Types (w : world stocks) (name : string).

Lemma truthy_of_lookup (m : gmap string pyval) k v :
  m !! k = Some v -> truthy m = true.
Proof.
  intros Hk. unfold truthy. destruct (size m =? 0)%nat eqn:E; [|reflexivity].
  apply Nat.eqb_eq, map_size_empty_inv in E. subst m.
  rewrite lookup_empty in Hk. discriminate.
Qed.

(** The world after one render, with all that it keeps. *)
Lemma random_stock_render_keeps w :
  lists_line_up (globals w) ->
  exists name v message key w',
    produce_msg w = (Ok (message, key), w') /\
    name ∈ StockNames (globals w) /\
    message !! "stock_name" = Some (VStr name) /\
    message !! "stock_value" = Some (VNum v) /\
    message !! "timestamp" = Some (VInt (py_int (now w * 1000))) /\
    current_value_of (globals w') name = Some v /\
    StockNames (globals w') = StockNames (globals w) /\
    lists_line_up (globals w') /\
    now w' = now w /\
    trace w' = trace w.
Proof.
  intros (Hne & Hlv & Hlp).
  destruct (random_choice_run (StockNames (globals w)) w Hne)
    as (name & Hin & Hpick).
  destruct (list_index_found name _ Hin) as [i Hi].
  assert (Hlt : (i < length (StockNames (globals w)))%nat).
  { eapply lookup_lt_Some, list_index_lookup, Hi. }
  destruct (lookup_lt_is_Some_2 (StockCurrentValues (globals w)) i) as [v Hv];
    [lia|].
  destruct (lookup_lt_is_Some_2 (StockUpProb (globals w)) i) as [p Hp]; [lia|].
  set (w1 := World (globals w) (advance (gen w)) (now w) (trace w)) in *.
  set (w2 := World (globals w) (advance (advance (gen w))) (now w) (trace w)).
  assert (Hname : stock_name w = (Ok name, w1)).
  { unfold stock_name, mbind, M_bind, bind, get_globals. exact Hpick. }
  destruct (Qle_bool (unit_draw (advance (gen w))) ShuffleProb) eqn:Htrig.
  - pose proof (stock_value_run name w2 i v p Hi Hv Hp) as Hstep.
    cbn zeta in Hstep. cbn [gen globals now trace w2] in Hstep.
    eexists name, _, _, _, _. split.
    { unfold produce_msg. rewrite (bind_ok _ _ _ _ _ Hname).
      unfold time_time at 1. unfold mbind at 1, M_bind at 1, bind at 1.
      rewrite (bind_ok _ _ w1 _ _ (random_random_run w1)).
      cbn [gen globals now trace w1]. rewrite Htrig. cbn [negb].
      unfold mbind at 1, M_bind at 1, bind at 1.
      unfold mret at 1, M_ret at 1, ret at 1.
      fold w2. rewrite (bind_ok _ _ _ _ _ Hstep). reflexivity. }
    split; [exact Hin|]. do 3 (split; [reflexivity|]).
    cbn [globals now trace]. unfold current_value_of, lists_line_up.
    cbn [StockNames StockCurrentValues StockUpProb]. rewrite Hi. simpl.
    split; [apply list_lookup_insert_eq; lia|].
    split; [reflexivity|]. rewrite length_insert. repeat split; assumption.
  - assert (Hlt2 : (i < length (StockUpProb (globals w2)))%nat)
      by (cbn [globals w2]; lia).
    pose proof (reshuffle_probs_run name w2 i Hi Hlt2) as Hre.
    cbn [gen globals now trace w2] in Hre.
    set (fresh := unit_draw (advance (advance (gen w)))) in *.
    set (w3 := World (Stocks (StockNames (globals w))
                             (StockCurrentValues (globals w))
                             (<[i := fresh]> (StockUpProb (globals w))))
                     (advance (advance (advance (gen w)))) (now w) (trace w))
      in *.
    assert (Hp3 : StockUpProb (globals w3) !! i = Some fresh).
    { cbn [globals w3 StockUpProb]. apply list_lookup_insert_eq. lia. }
    pose proof (stock_value_run name w3 i v fresh Hi Hv Hp3) as Hstep.
    cbn zeta in Hstep. cbn [gen globals now trace w3] in Hstep.
    eexists name, _, _, _, _. split.
    { unfold produce_msg. rewrite (bind_ok _ _ _ _ _ Hname).
      unfold time_time at 1. unfold mbind at 1, M_bind at 1, bind at 1.
      rewrite (bind_ok _ _ w1 _ _ (random_random_run w1)).
      cbn [gen globals now trace w1]. rewrite Htrig. cbn [negb].
      fold w2. rewrite (bind_ok _ _ _ _ _ Hre).
      rewrite (bind_ok _ _ _ _ _ Hstep). reflexivity. }
    split; [exact Hin|]. do 3 (split; [reflexivity|]).
    cbn [globals now trace]. unfold current_value_of, lists_line_up.
    cbn [StockNames StockCurrentValues StockUpProb]. rewrite Hi. simpl.
    split; [apply list_lookup_insert_eq; lia|].
    split; [reflexivity|]. rewrite !length_insert. repeat split; assumption.
Qed.

(** X6: as long as the three lists line up, [produce_msg] of the random
    stock producer returns a message whose stock name is one of
    [StockNames], whose value is the one just stored for that stock, and
    whose timestamp is the clock in whole milliseconds; the message has
    exactly these three fields.  The lists still line up afterwards, the
    names are unchanged, and nothing is logged. *)
Theorem random_stock_render_reports_stored_value w :
  lists_line_up (globals w) ->
  exists name v message key w',
    produce_msg w = (Ok (message, key), w') /\
    name ∈ StockNames (globals w) /\
    message !! "stock_name" = Some (VStr name) /\
    message !! "stock_value" = Some (VNum v) /\
    message !! "timestamp" = Some (VInt (py_int (now w * 1000))) /\
    current_value_of (globals w') name = Some v /\
    StockNames (globals w') = StockNames (globals w) /\
    lists_line_up (globals w') /\
    now w' = now w /\
    trace w' = trace w /\
    dom message = {["stock_name"; "stock_value"; "timestamp"]}.
Proof.
  intros Hwf.
  destruct (random_stock_render_keeps w Hwf)
    as (name & v & message & key & w' & Hrun & Hrest).
  exists name, v, message, key, w'. split; [exact Hrun|].
  destruct (random_stock_key_is_constant w message key w' Hrun)
    as (_ & Hdom & _).
  repeat (destruct Hrest as (? & Hrest); split; [assumption|]).
  split; [exact Hrest|exact Hdom].
Qed.

Lemma random_stock_render_reports_stored_value_witness :
  let w := start initial_stocks (constant_rng 123456789) in
  exists name v message key w',
    produce_msg w = (Ok (message, key), w') /\
    name ∈ StockNames (globals w) /\
    message !! "stock_name" = Some (VStr name) /\
    message !! "stock_value" = Some (VNum v) /\
    message !! "timestamp" = Some (VInt (py_int (now w * 1000))) /\
    current_value_of (globals w') name = Some v /\
    StockNames (globals w') = StockNames (globals w) /\
    lists_line_up (globals w') /\
    now w' = now w /\
    trace w' = trace w /\
    dom message = {["stock_name"; "stock_value"; "timestamp"]}.
Proof.
  apply (random_stock_render_reports_stored_value
           (start initial_stocks (constant_rng 123456789))).
  unfold lists_line_up. cbn. repeat split; discriminate.
Defined.

Lemma count_logged_app lvl tr tr' :
  count_logged lvl (tr ++ tr') =
  (count_logged lvl tr + count_logged lvl tr')%nat.
Proof. unfold count_logged. now rewrite List.filter_app, length_app. Qed.

Lemma count_sleeps_app tr tr' :
  count_sleeps (tr ++ tr') = (count_sleeps tr + count_sleeps tr')%nat.
Proof. unfold count_sleeps. now rewrite List.filter_app, length_app. Qed.

(** X7: started with lists that line up, the loop of the random stock
    script never reaches its recovery branch: after [n] passes it is
    still running, has logged [n] messages at level INFO and nothing at
    level CRITICAL, has slept [n] times, and the clock has advanced by
    at least [n] seconds. *)
Theorem random_stock_main_never_recovers n w :
  lists_line_up (globals w) ->
  exists w',
    random_stock_main n w = (Ok tt, w') /\
    lists_line_up (globals w') /\
    count_logged INFO (trace w') = (count_logged INFO (trace w) + n)%nat /\
    count_logged CRITICAL (trace w') = count_logged CRITICAL (trace w) /\
    count_sleeps (trace w') = (count_sleeps (trace w) + n)%nat /\
    (now w + inject_Z (Z.of_nat n) <= now w')%Q.
Proof.
  revert w. induction n as [|n IH]; intros w Hwf.
  - exists w. split; [reflexivity|]. split; [exact Hwf|].
    split; [lia|]. split; [lia|]. split; [lia|].
    change (inject_Z (Z.of_nat 0)) with 0%Q. lra.
  - destruct (random_stock_render_keeps w Hwf)
      as (name & v & message & key & w1 & Hrun & _ & Hname & _ & _ & _ & _
          & Hwf1 & Hnow1 & Htr1).
    pose proof (truthy_of_lookup _ _ _ Hname) as Htruthy.
    pose proof (proj1 (quiet_pass_run produce_msg
                         (log_message INFO) w message key w1 Hrun)
                  (record_event w1 (LogMessage INFO message)) Htruthy eq_refl)
      as Hpass.
    cbv zeta in Hpass. cbn [record_event globals gen now trace] in Hpass.
    pose proof (pause_between_one_and_five (gen w1)) as Hd.
    set (d := (1 + (5 - 1) * unit_draw (gen w1))%Q) in *.
    destruct (IH (World (globals w1) (advance (gen w1)) (now w1 + d)%Q
                        ((trace w1 ++ [LogMessage INFO message]) ++ [Sleep d]))
                Hwf1)
      as (w' & Hmain & Hwf' & Hinfo & Hcrit & Hsleep & Hclock).
    cbn [globals gen now trace] in Hinfo, Hcrit, Hsleep, Hclock.
    exists w'. split.
    + unfold random_stock_main in *. cbn [Loop.run].
      rewrite (bind_ok _ _ _ _ _ Hpass). exact Hmain.
    + split; [exact Hwf'|].
      rewrite Hinfo, Hcrit, Hsleep, !count_logged_app, !count_sleeps_app, Htr1.
      cbn. split; [lia|]. split; [lia|]. split; [lia|].
      rewrite Hnow1 in Hclock.
      assert (Hs : (inject_Z (Z.of_nat (S n)) == inject_Z (Z.of_nat n) + 1)%Q).
      { rewrite Nat2Z.inj_succ. unfold Z.succ. rewrite inject_Z_plus.
        reflexivity. }
      rewrite Hs. lra.
Qed.

Lemma random_stock_main_never_recovers_witness :
  let w := start initial_stocks (constant_rng 123456789) in
  exists w',
    random_stock_main 10 w = (Ok tt, w') /\
    lists_line_up (globals w') /\
    count_logged INFO (trace w') = (count_logged INFO (trace w) + 10)%nat /\
    count_logged CRITICAL (trace w') = count_logged CRITICAL (trace w) /\
    count_sleeps (trace w') = (count_sleeps (trace w) + 10)%nat /\
    (now w + inject_Z (Z.of_nat 10) <= now w')%Q.
Proof.
  apply (random_stock_main_never_recovers 10
           (start initial_stocks (constant_rng 123456789))).
  unfold lists_line_up. cbn. repeat split; discriminate.
Defined.

End RandomStockLoop.

(* ===================================================================== *)
(** * Further properties of the live stock producer                       *)
(* ===================================================================== *)

Section Rounding.

Lemma inject_Z_succ (z : Z) : (inject_Z (z + 1) == inject_Z z + 1)%Q.
Proof. rewrite inject_Z_plus. reflexivity. Qed.

(** [round(x)] is within one half of [x]. *)
Lemma py_round_near (q : Q) :
  (- (1 # 2) <= inject_Z (py_round q) - q <= 1 # 2)%Q.
Proof.
  unfold py_round. pose proof (Qfloor_le q) as Hlo.
  pose proof (Qlt_floor q) as Hhi. rewrite inject_Z_succ in Hhi.
  destruct (Qcompare (q - inject_Z (Qfloor q)) (1 # 2)) eqn:E.
  - apply Qeq_alt in E. destruct (Z.even (Qfloor q)).
    + split; lra.
    + rewrite inject_Z_succ. split; lra.
  - apply Qlt_alt in E. split; lra.
  - apply Qgt_alt in E. rewrite inject_Z_succ. split; lra.
Qed.



End Rounding.

Section RealStockMore.

Import RealStock.

Variable get_live_price : string -> nat -> outcome pyval.
Variable last_close : string -> nat -> outcome pyval.

Implicit Types (w : world unit) (name : string).

Lemma count_sleeps_record (w : world unit) ev :
  count_sleeps (trace (record_event w ev)) =
  (count_sleeps (trace w) + if is_sleep ev then 1 else 0)%nat.
Proof.
  unfold record_event. cbn [trace]. rewrite count_sleeps_app.
  unfold count_sleeps. simpl. now destruct (is_sleep ev).
Qed.

(** X8: the retry decorator around [stock_value] never comes into play.
    The decorated body catches every [Exception] itself, so the first
    attempt is the only one: [stock_value] does what one attempt does,
    asks the first service exactly once and the second at most once,
    never sleeps, and never raises an [Exception] (in particular no
    [RetryError]).  What it returns is always a number. *)
Theorem stock_value_never_retries name w :
  let r := stock_value get_live_price last_close name w in
  r = stock_value_attempt get_live_price last_close name w /\
  ((exists v, r.1 = Ok v /\ is_number v = true) \/
   (exists e, r.1 = Raise e /\ is_Exception e = false)) /\
  count_sleeps (trace r.2) = count_sleeps (trace w) /\
  count_queries YahooFin (trace r.2) = S (count_queries YahooFin (trace w)) /\
  (count_queries YFinance (trace r.2) <= S (count_queries YFinance (trace w)))%nat.
Proof.
  cbv zeta.
  rewrite (stock_value_is_attempt get_live_price last_close name w).
  split; [reflexivity|].
  destruct (attempt_outcome get_live_price last_close name w)
    as (H1 & H2 & H3 & H4 & _).
  repeat split; assumption.
Qed.


(** X10: when the code falls back to the second service and that one
    answers with a number [q], the result is an integer nearest to [q],
    not [q] to hundredths: it differs from
    [q] by at most one half, and any answer below one half comes out as
    0.  The second service is asked with the symbol as given, the first
    with the symbol in upper case. *)
Theorem stock_value_fallback_rounds_to_integer name w q :
  triggers_fallback
    (get_live_price (upper name) (count_queries YahooFin (trace w))) = true ->
  last_close name (count_queries YFinance (trace w)) = Ok (VNum q) ->
  exists e w',
    stock_value get_live_price last_close name w
      = (Ok (VInt (py_round q)), w') /\
    trace w' = trace w ++ [Query YahooFin (upper name); LogFailure WARNING e;
                           Query YFinance name] /\
    (- (1 # 2) <= inject_Z (py_round q) - q <= 1 # 2)%Q /\
    ((0 <= q < 1 # 2)%Q -> py_round q = 0%Z).
Proof.
  intros Hprimary Hsecondary.
  destruct (attempt_falls_back get_live_price last_close name w Hprimary)
    as (e & _ & He).
  exists e. eexists. split; [|split; [|split]].
  - apply stock_value_first_attempt. rewrite He.
    apply (fetch2_number _ _ _ _ q).
    unfold record_event. cbn [trace].
    rewrite !count_queries_app. cbn. now rewrite !Nat.add_0_r.
  - unfold record_event. cbn [trace]. now rewrite <- !app_assoc.
  - apply py_round_near.
  - intros [Hlo Hhi].
    pose proof (py_round_near q) as [Hn1 Hn2].
    assert (Hb : (-1 < py_round q < 1)%Z).
    { split.
      - apply Z.lt_nge. intros Hle.
        assert ((inject_Z (py_round q) <= inject_Z (-1))%Q)
          by (rewrite <- Zle_Qle; exact Hle).
        change (inject_Z (-1)) with (-1 # 1)%Q in *. lra.
      - apply Z.lt_nge. intros Hle.
        assert ((inject_Z 1 <= inject_Z (py_round q))%Q)
          by (rewrite <- Zle_Qle; exact Hle).
        change (inject_Z 1) with 1%Q in *. lra. }
    lia.
Qed.

End RealStockMore.


Lemma stock_value_fallback_rounds_to_integer_witness :
  let w0 := start tt (constant_rng 0) in
  exists e w',
    RealStock.stock_value (fun _ _ => Raise KeyError)
                          (fun _ _ => Ok (VNum (8 # 100))) "DOGE-USD" w0
      = (Ok (VInt (py_round (8 # 100))), w') /\
    trace w' = trace w0 ++ [Query YahooFin (upper "DOGE-USD");
                            LogFailure WARNING e; Query YFinance "DOGE-USD"] /\
    (- (1 # 2) <= inject_Z (py_round (8 # 100)) - (8 # 100) <= 1 # 2)%Q /\
    ((0 <= 8 # 100 < 1 # 2)%Q -> py_round (8 # 100) = 0%Z).
Proof.
  apply (stock_value_fallback_rounds_to_integer (fun _ _ => Raise KeyError)
           (fun _ _ => Ok (VNum (8 # 100))) "DOGE-USD"
           (start tt (constant_rng 0)) (8 # 100)%Q); reflexivity.
Defined.

Section RenderValues.

Ltac unwind H :=
  repeat (apply bind_inv in H as (? & ? & _ & H); cbv zeta in H).

Ltac returned H :=
  unfold mret, M_ret, ret in H; inversion H; subst; clear H.

Lemma singleton_key_copied (message : gmap string pyval) k v :
  message !! k = Some v -> <[k := v]> (∅ : gmap string pyval) ⊆ message.
Proof.
  intros Hk. apply map_subseteq_spec. intros i x Hi.
  apply lookup_insert_Some in Hi as [[<- <-]|[_ Hi]]; [exact Hk|].
  rewrite lookup_empty in Hi. discriminate.
Qed.

Lemma symbols_are_upper_case :
  Forall (fun s => upper s = s) RealStock.STOCK_SYMBOLS.
Proof. repeat constructor. Qed.

(** X11: a render of the live stock producer either returns or is ended
    by an exception that is not an [Exception].  When it returns, the
    stock name is one of [STOCK_SYMBOLS] (already in upper case, so both
    services are asked for the same symbol), the stock value is a number
    (the text "Data Unavailable" never appears), and the key is the
    message's stock name entry. *)
Theorem real_stock_render_outcome get_live_price last_close (w : world unit) :
  let r := RealStock.produce_msg get_live_price last_close w in
  (exists name v message key,
     r.1 = Ok (message, key) /\
     name ∈ RealStock.STOCK_SYMBOLS /\
     upper name = name /\
     message !! "stock_name" = Some (VStr name) /\
     message !! "stock_value" = Some v /\
     is_number v = true /\
     v <> VStr "Data Unavailable" /\
     key = (<["stock_name" := VStr name]> ∅) /\
     key ⊆ message) \/
  (exists e, r.1 = Raise e /\ is_Exception e = false).
Proof.
  cbv zeta. unfold RealStock.produce_msg, RealStock.stock_name.
  destruct (random_choice_run RealStock.STOCK_SYMBOLS w) as (name & Hin & Hname);
    [done|].
  rewrite (bind_ok _ _ _ _ _ Hname).
  set (w1 := World (globals w) (advance (gen w)) (now w) (trace w)).
  pose proof (attempt_outcome get_live_price last_close name w1)
    as (Hres & _). cbv zeta in Hres.
  rewrite <- (stock_value_is_attempt get_live_price last_close name w1)
    in Hres.
  destruct (RealStock.stock_value get_live_price last_close name w1)
    as [[v|e] w2] eqn:Hsv.
  - destruct Hres as [(v' & Hv & Hnum)|(e & He & _)]; [|discriminate].
    cbn in Hv. injection Hv as <-.
    assert (Htry : try_except_only RealStock.is_RetryError
                     (RealStock.stock_value get_live_price last_close name)
                     (fun _ => mret (VStr "Data Unavailable")) w1
                   = (Ok v, w2)).
    { unfold try_except_only. now rewrite Hsv. }
    fold w1. rewrite (bind_ok _ _ _ _ _ Htry).
    left. exists name, v. eexists _, _. split; [reflexivity|].
    split; [exact Hin|]. split.
    { pose proof symbols_are_upper_case as Hup.
      rewrite Forall_forall in Hup. apply Hup, Hin. }
    split; [reflexivity|]. split; [reflexivity|]. split; [exact Hnum|].
    split; [intros ->; discriminate|]. split; [reflexivity|].
    apply singleton_key_copied. reflexivity.
  - destruct Hres as [(v' & Hv & _)|(e' & He & Hbase)]; [discriminate|].
    cbn in He. injection He as <-.
    assert (Htry : try_except_only RealStock.is_RetryError
                     (RealStock.stock_value get_live_price last_close name)
                     (fun _ => mret (VStr "Data Unavailable")) w1
                   = (Raise e, w2)).
    { unfold try_except_only. rewrite Hsv.
      destruct e; try discriminate; reflexivity. }
    fold w1. rewrite (bind_raise _ _ _ _ _ Htry).
    right. exists e. split; [reflexivity|exact Hbase].
Qed.

(** X12: in the metric, advanced metric and pizza producers the key is
    not only named after message fields: every key entry is a message
    entry, with the same value (the same host name, the same shop). *)
Theorem key_entries_are_message_entries :
  (forall (w : world unit) message key w',
     Metric.produce_msg w = (Ok (message, key), w') -> key ⊆ message) /\
  (forall self (w : world unit) message key w',
     MetricAdvanced.produce_msg self w = (Ok (message, key), w') ->
     key ⊆ message) /\
  (forall unique_name unique_phone_number address order_count
          max_pizzas max_toppings (w : world unit) message key w',
     Pizza.produce_msg unique_name unique_phone_number address
                       order_count max_pizzas max_toppings w
       = (Ok (message, key), w') ->
     key ⊆ message).
Proof.
  split; [|split].
  - unfold Metric.produce_msg. intros w message key w' H.
    apply bind_inv in H as (t & w1 & _ & H). cbv zeta in H.
    unwind H. returned H. apply singleton_key_copied. reflexivity.
  - unfold MetricAdvanced.produce_msg, try_except.
    intros self w message key w' H.
    destruct (MetricAdvanced.produce_msg_body self w) as [[[m k]|e] w1] eqn:Hbody.
    + injection H as <- <- <-. unfold MetricAdvanced.produce_msg_body in Hbody.
      unwind Hbody. returned Hbody. apply singleton_key_copied. reflexivity.
    + destruct (is_Exception e); [|discriminate].
      unfold log_failure, emit_event, mbind, M_bind, bind in H.
      returned H. apply map_empty_subseteq.
  - unfold Pizza.produce_msg.
    intros unique_name unique_phone_number address order_count
           max_pizzas max_toppings w message key w' H.
    do 7 (apply bind_inv in H as (? & ? & _ & H)). cbv zeta in H.
    apply bind_inv in H as (shop & w1 & Hshop & H). returned H.
    unfold Pizza.dict_get in Hshop.
    match type of Hshop with
    | context [?m !! "shop"] => destruct (m !! "shop") eqn:Hlook
    end; [|discriminate].
    injection Hshop as <- _. now apply singleton_key_copied.
Qed.

End RenderValues.

Lemma key_entries_are_message_entries_witness :
  exists message key w',
    Metric.produce_msg (start tt (constant_rng 12)) = (Ok (message, key), w') /\
    key ⊆ message.
Proof.
  destruct (metric_produce_returns (start tt (constant_rng 12)))
    as (message & key & w' & Hrun).
  exists message, key, w'. split; [exact Hrun|].
  exact (proj1 key_entries_are_message_entries _ _ _ _ Hrun).
Defined.

(* ===================================================================== *)
(** * Further properties of the metric producers                          *)
(* ===================================================================== *)

Section MetricMore.

Implicit Types (w : world unit).




End MetricMore.

Section RandintMore.

Lemma random_randint_inv {G} (a b : Z) (w : world G) n w' :
  random_randint a b w = (Ok n, w') ->
  (a <= n <= b)%Z /\
  w' = World (globals w) (advance (gen w)) (now w) (trace w).
Proof.
  destruct (Z.lt_ge_cases b a) as [Hlt|Hge].
  - rewrite (random_randint_empty a b w Hlt). discriminate.
  - destruct (random_randint_run a b w Hge) as (m & Hm & Hrun).
    rewrite Hrun. intros [= <- <-]. split; [exact Hm|reflexivity].
Qed.

Lemma random_randint_hits {G} (a b n : Z) (g : G) :
  (a <= n <= b)%Z ->
  random_randint a b (start g (constant_rng (Z.to_N (n - a)))) =
  (Ok n, World g (advance (constant_rng (Z.to_N (n - a)))) 0 []).
Proof.
  intros Hn. unfold random_randint.
  assert (Hltb : (b <? a)%Z = false) by (apply Z.ltb_ge; lia).
  rewrite Hltb. unfold randbelow, next_raw, mbind, M_bind, bind, mret, M_ret, ret.
  cbn [start globals gen now trace constant_rng raw pos advance].
  rewrite N.mod_small.
  - rewrite Z2N.id by lia. f_equal. f_equal. lia.
  - apply N2Z.inj_lt. rewrite !Z2N.id by lia. lia.
Qed.

End RandintMore.

Section MetricAdvancedMore.

Import MetricAdvanced.

Implicit Types (w : world unit) (self : provider).

(** X14: with a bound [host >= 0], [hostname()] returns "hostname"
    followed by the decimal digits of a number between 0 and [host],
    both included, and every number in that range can come out: the
    option counts one host name more than its value.  With a negative
    bound it raises [ValueError] and draws nothing.  [cpu_id()] does the
    same with prefix "cpu" and bound [cpu]. *)
Theorem hostname_range_is_inclusive self :
  (forall w,
     (0 <= host self)%Z ->
     exists n,
       (0 <= n <= host self)%Z /\
       hostname self w =
       (Ok ("hostname" +:+ pretty n),
        World (globals w) (advance (gen w)) (now w) (trace w))) /\
  (forall n,
     (0 <= n <= host self)%Z ->
     (hostname self (start tt (constant_rng (Z.to_N n)))).1
       = Ok ("hostname" +:+ pretty n)) /\
  (forall w, (host self < 0)%Z -> hostname self w = (Raise ValueError, w)) /\
  (forall w,
     (0 <= cpu self)%Z ->
     exists n,
       (0 <= n <= cpu self)%Z /\
       cpu_id self w =
       (Ok ("cpu" +:+ pretty n),
        World (globals w) (advance (gen w)) (now w) (trace w))) /\
  (forall w, (cpu self < 0)%Z -> cpu_id self w = (Raise ValueError, w)).
Proof.
  split; [|split; [|split; [|split]]].
  - intros w Hh. destruct (random_randint_run 0 (host self) w Hh) as (n & Hn & Hrun).
    exists n. split; [exact Hn|]. unfold hostname.
    now rewrite (bind_ok _ _ _ _ _ Hrun).
  - intros n Hn. unfold hostname.
    pose proof (random_randint_hits 0 (host self) n tt Hn) as Hrun.
    rewrite Z.sub_0_r in Hrun. now rewrite (bind_ok _ _ _ _ _ Hrun).
  - intros w Hh. unfold hostname.
    now rewrite (bind_raise _ _ _ _ _ (random_randint_empty 0 _ w Hh)).
  - intros w Hc. destruct (random_randint_run 0 (cpu self) w Hc) as (n & Hn & Hrun).
    exists n. split; [exact Hn|]. unfold cpu_id.
    now rewrite (bind_ok _ _ _ _ _ Hrun).
  - intros w Hc. unfold cpu_id.
    now rewrite (bind_raise _ _ _ _ _ (random_randint_empty 0 _ w Hc)).
Qed.

End MetricAdvancedMore.

Lemma hostname_range_is_inclusive_witness :
  let self := {| MetricAdvanced.host := 3; MetricAdvanced.cpu := -2 |} in
  (exists n,
     (0 <= n <= 3)%Z /\
     MetricAdvanced.hostname self (start tt (constant_rng 6)) =
     (Ok ("hostname" +:+ pretty n),
      World tt (advance (constant_rng 6)) 0 [])) /\
  (MetricAdvanced.hostname self (start tt (constant_rng (Z.to_N 3)))).1
    = Ok "hostname3" /\
  MetricAdvanced.cpu_id self (start tt (constant_rng 6))
    = (Raise ValueError, start tt (constant_rng 6)).
Proof.
  intros self.
  pose proof (hostname_range_is_inclusive self) as (Hin & Hhit & _ & _ & Hneg).
  split; [|split].
  - apply (Hin (start tt (constant_rng 6))). cbn. lia.
  - apply (Hhit 3%Z). cbn. lia.
  - apply (Hneg (start tt (constant_rng 6))). cbn. lia.
Defined.

(* ===================================================================== *)
(** * Further properties of the bet producer                              *)
(* ===================================================================== *)

Section BetsMore.

Import Bets.

Implicit Types (w : world unit).




Lemma valid_events_shape :
  Forall (fun ev => exists c s e, ev = bet_event c s e)
         (valid_events new_provider).
Proof. repeat constructor; eexists _, _, _; reflexivity. Qed.

(** X16: with the pools of [__init__], [produce_msg] of the bet producer
    always returns.  The user is one of [valid_usernames]; the message
    nests category, subcategory and name of one of [valid_events] under
    "event"; the key is that chosen event dict itself (its three entries,
    with the event name under "event" in the key and under "name" in the
    message); the timestamp is the clock (plus an offset of 0) in whole
    milliseconds; nothing is logged. *)
Theorem bets_render_returns_chosen_event risk_profile w :
  exists user amount c s e message key w',
    produce_msg new_provider risk_profile w = (Ok (message, key), w') /\
    user ∈ valid_usernames new_provider /\
    bet_event c s e ∈ valid_events new_provider /\
    message !! "username" = Some (VStr user) /\
    message !! "amount" = Some (VNum amount) /\
    message !! "event" =
      Some (VDict (<["name" := VStr e]>
                     (<["subcategory" := VStr s]>
                        (<["category" := VStr c]> ∅)))) /\
    message !! "timestamp" = Some (VInt (py_int ((now w + 0) * 1000))) /\
    key = bet_event c s e /\
    trace w' = trace w /\ now w' = now w.
Proof.
  destruct (random_choice_run (valid_usernames new_provider) w)
    as (user & Huser & Hu); [done|].
  set (w1 := World (globals w) (advance (gen w)) (now w) (trace w)) in *.
  set (w2 := World (globals w1) (advance (gen w1)) (now w1) (trace w1)).
  destruct (random_choice_run (valid_events new_provider) w2)
    as (ev & Hev & He); [done|].
  pose proof valid_events_shape as Hshape. rewrite Forall_forall in Hshape.
  destruct (Hshape ev Hev) as (c & s & e & ->).
  exists user. eexists. exists c, s, e. eexists _, _, _. split.
  { unfold produce_msg, username. rewrite (bind_ok _ _ _ _ _ Hu).
    unfold bet_amount at 1.
    unfold mbind at 1, M_bind at 1, bind at 1.
    unfold mbind at 1, M_bind at 1, bind at 1.
    rewrite random_uniform_run. fold w1. cbn [globals gen now trace].
    unfold mret at 1, M_ret at 1, ret at 1. fold w2.
    unfold bet_category_event. rewrite (bind_ok _ _ _ _ _ He).
    reflexivity. }
  split; [exact Huser|]. split; [exact Hev|].
  repeat (split; [reflexivity|]). split; reflexivity.
Qed.

End BetsMore.


(* ===================================================================== *)
(** * Further properties of the pizza producer                            *)
(* ===================================================================== *)

Section ChoiceMore.

Lemma random_choice_inv {G A} (seq : list A) (w : world G) x w1 :
  random_choice seq w = (Ok x, w1) ->
  x ∈ seq /\ w1 = World (globals w) (advance (gen w)) (now w) (trace w).
Proof.
  destruct seq as [|a seq]; [discriminate|].
  destruct (random_choice_run (a :: seq) w) as (y & Hy & Hrun); [done|].
  rewrite Hrun. intros [= <- <-]. split; [exact Hy|reflexivity].
Qed.

Lemma comprehension_inv {A} (P : A -> Prop) (c : M unit A) :
  (forall w x w1, c w = (Ok x, w1) -> P x) ->
  forall n w xs w1,
    Pizza.comprehension n c w = (Ok xs, w1) ->
    length xs = n /\ Forall P xs.
Proof.
  intros Hc n. induction n as [|n IH]; intros w xs w1 H.
  - injection H as <- _. split; [reflexivity|constructor].
  - cbn [Pizza.comprehension] in H.
    apply bind_inv in H as (x & w2 & Hx & H).
    apply bind_inv in H as (xs' & w3 & Hxs & H).
    injection H as <- _. destruct (IH _ _ _ Hxs) as [Hlen Hall].
    split; [simpl; now rewrite Hlen|]. constructor; [eapply Hc; eauto|exact Hall].
Qed.

Lemma comprehension_run {A} (c : M unit A) :
  (forall w, exists x w1, c w = (Ok x, w1)) ->
  forall n w, exists xs w1, Pizza.comprehension n c w = (Ok xs, w1).
Proof.
  intros Hc n. induction n as [|n IH]; intros w.
  - eexists _, _. reflexivity.
  - destruct (Hc w) as (x & w1 & Hx). destruct (IH w1) as (xs & w2 & Hxs).
    exists (x :: xs), w2. cbn [Pizza.comprehension].
    rewrite (bind_ok _ _ _ _ _ Hx). now rewrite (bind_ok _ _ _ _ _ Hxs).
Qed.

End ChoiceMore.

Section PizzaMore.

Import Pizza.

Variable unique_name : M unit string.
Variable unique_phone_number : M unit string.
Variable address : M unit string.

Implicit Types (w : world unit).

Lemma one_pizza_within max_toppings w p w1 :
  one_pizza max_toppings w = (Ok p, w1) -> pizza_within max_toppings p.
Proof.
  unfold one_pizza. intros H.
  apply bind_inv in H as (name & w2 & Hname & H).
  apply bind_inv in H as (k & w3 & Hk & H).
  apply bind_inv in H as (toppings & w4 & Htop & H).
  injection H as <- _.
  apply random_choice_inv in Hname as [Hname _].
  apply random_randint_inv in Hk as [Hk _].
  apply (comprehension_inv (fun t => t ∈ TOPPINGS)) in Htop as [Hlen Hall].
  - exists name, toppings. split; [reflexivity|]. split; [exact Hname|].
    split; [lia|exact Hall].
  - intros w5 t w6 Ht. now apply random_choice_inv in Ht as [Ht _].
Qed.

(** X17: an order returned by [produce_msg] of the pizza producer holds
    between 1 and [max_pizzas_in_order] pizzas, each with a name from
    [PIZZA_NAMES] and with between 0 and [max_toppings_in_pizza]
    toppings from [TOPPINGS]; its shop is one of [PIZZA_SHOPS] and its id
    is the given order count.  With [max_pizzas_in_order < 1] the call
    raises [ValueError] at once; with a negative [max_toppings_in_pizza]
    (and at least one pizza allowed) it raises [ValueError] too.  With
    both limits in range and a [Faker] whose generators return, the call
    returns. *)
Theorem pizza_order_within_limits order_count max_pizzas max_toppings w :
  (forall message key w',
     produce_msg unique_name unique_phone_number address
                 order_count max_pizzas max_toppings w
       = (Ok (message, key), w') ->
     exists pizzas shop,
       message !! "pizzas" = Some (VList pizzas) /\
       (1 <= Z.of_nat (length pizzas) <= max_pizzas)%Z /\
       Forall (pizza_within max_toppings) pizzas /\
       message !! "shop" = Some (VStr shop) /\
       shop ∈ PIZZA_SHOPS /\
       message !! "id" = Some (VInt order_count)) /\
  ((max_pizzas < 1)%Z ->
   produce_msg unique_name unique_phone_number address
               order_count max_pizzas max_toppings w
     = (Raise ValueError, w)) /\
  ((1 <= max_pizzas)%Z -> (max_toppings < 0)%Z ->
   exists w',
     produce_msg unique_name unique_phone_number address
                 order_count max_pizzas max_toppings w
       = (Raise ValueError, w')) /\
  ((1 <= max_pizzas)%Z -> (0 <= max_toppings)%Z ->
   (forall w1, exists s w2, unique_name w1 = (Ok s, w2)) ->
   (forall w1, exists s w2, unique_phone_number w1 = (Ok s, w2)) ->
   (forall w1, exists s w2, address w1 = (Ok s, w2)) ->
   exists message key w',
     produce_msg unique_name unique_phone_number address
                 order_count max_pizzas max_toppings w
       = (Ok (message, key), w')).
Proof.
  split; [|split; [|split]].
  - intros message key w' H. unfold produce_msg in H.
    apply bind_inv in H as (n & w1 & Hn & H).
    apply bind_inv in H as (pizzas & w2 & Hpizzas & H).
    apply bind_inv in H as (shop & w3 & Hshop & H).
    do 4 (apply bind_inv in H as (? & ? & _ & H)). cbv zeta in H.
    apply bind_inv in H as (? & ? & _ & H).
    unfold mret, M_ret, ret in H. injection H as <- _ _.
    apply random_randint_inv in Hn as [Hn _].
    apply random_choice_inv in Hshop as [Hshop _].
    apply (comprehension_inv (pizza_within max_toppings)) in Hpizzas
      as [Hlen Hall]; [|intros ? ? ?; apply one_pizza_within].
    exists pizzas, shop. split; [reflexivity|]. split; [lia|].
    split; [exact Hall|]. split; [reflexivity|]. split; [exact Hshop|].
    reflexivity.
  - intros Hlt. unfold produce_msg.
    now rewrite (bind_raise _ _ _ _ _ (random_randint_empty 1 _ w Hlt)).
  - intros Hge Hlt.
    destruct (random_randint_run 1 max_pizzas w Hge) as (n & Hn & Hrun).
    unfold produce_msg. rewrite (bind_ok _ _ _ _ _ Hrun).
    set (w1 := World (globals w) (advance (gen w)) (now w) (trace w)).
    destruct (random_choice_run PIZZA_NAMES w1) as (name & _ & Hname); [done|].
    assert (Hfirst : exists w2,
              one_pizza max_toppings w1 = (Raise ValueError, w2)).
    { eexists. unfold one_pizza, pizza_name.
      rewrite (bind_ok _ _ _ _ _ Hname).
      now rewrite (bind_raise _ _ _ _ _ (random_randint_empty 0 _ _ Hlt)). }
    destruct Hfirst as [w2 Hfirst].
    exists w2. apply bind_raise.
    destruct (Z.to_nat n) as [|k] eqn:Hk; [lia|].
    cbn [comprehension]. now apply bind_raise.
  - intros Hp Ht Hname Hphone Haddr.
    destruct (random_randint_run 1 max_pizzas w Hp) as (n & _ & Hn).
    assert (Hone : forall w1, exists p w2,
              one_pizza max_toppings w1 = (Ok p, w2)).
    { intros w1.
      destruct (random_choice_run PIZZA_NAMES w1) as (nm & _ & Hnm); [done|].
      set (w2 := World (globals w1) (advance (gen w1)) (now w1) (trace w1)) in *.
      destruct (random_randint_run 0 max_toppings w2 Ht) as (k & _ & Hk).
      destruct (comprehension_run pizza_topping) with
        (n := Z.to_nat k)
        (w := World (globals w2) (advance (gen w2)) (now w2) (trace w2))
        as (tops & w3 & Htops).
      { intros w4. destruct (random_choice_run TOPPINGS w4) as (t & _ & Ht4);
          [done|]. eauto. }
      eexists _, _. unfold one_pizza, pizza_name.
      rewrite (bind_ok _ _ _ _ _ Hnm). rewrite (bind_ok _ _ _ _ _ Hk).
      rewrite (bind_ok _ _ _ _ _ Htops). reflexivity. }
    destruct (comprehension_run (one_pizza max_toppings) Hone (Z.to_nat n)
                (World (globals w) (advance (gen w)) (now w) (trace w)))
      as (pizzas & w1 & Hpizzas).
    destruct (random_choice_run PIZZA_SHOPS w1) as (shop & _ & Hshop); [done|].
    set (w2 := World (globals w1) (advance (gen w1)) (now w1) (trace w1)) in *.
    destruct (Hname w2) as (nm & w3 & Hnm).
    destruct (Hphone w3) as (ph & w4 & Hph).
    destruct (Haddr w4) as (ad & w5 & Had).
    eexists _, _, _. unfold produce_msg, pizza_shop.
    rewrite (bind_ok _ _ _ _ _ Hn). rewrite (bind_ok _ _ _ _ _ Hpizzas).
    rewrite (bind_ok _ _ _ _ _ Hshop). rewrite (bind_ok _ _ _ _ _ Hnm).
    rewrite (bind_ok _ _ _ _ _ Hph). rewrite (bind_ok _ _ _ _ _ Had).
    reflexivity.
Qed.

End PizzaMore.

Lemma pizza_order_within_limits_witness :
  let w0 := start tt (constant_rng 7) in
  (exists pizzas shop message key w',
     Pizza.produce_msg (mret "Ada") (mret "555") (mret "1 Main St") 1 5 3 w0
       = (Ok (message, key), w') /\
     message !! "pizzas" = Some (VList pizzas) /\
     (1 <= Z.of_nat (length pizzas) <= 5)%Z /\
     Forall (pizza_within 3) pizzas /\
     message !! "shop" = Some (VStr shop) /\
     shop ∈ Pizza.PIZZA_SHOPS /\
     message !! "id" = Some (VInt 1)) /\
  Pizza.produce_msg (mret "Ada") (mret "555") (mret "1 Main St") 1 0 3 w0
    = (Raise ValueError, w0) /\
  (exists w',
     Pizza.produce_msg (mret "Ada") (mret "555") (mret "1 Main St") 1 5 (-1) w0
       = (Raise ValueError, w')).
Proof.
  intros w0.
  pose proof (pizza_order_within_limits (mret "Ada") (mret "555")
                (mret "1 Main St") 1 5 3 w0) as (Hfields & _ & _ & Hreturns).
  split; [|split].
  - destruct Hreturns as (message & key & w' & Hrun);
      [lia | lia | intros w1; eexists _, _; reflexivity ..|].
    destruct (Hfields message key w' Hrun) as (pizzas & shop & H).
    exists pizzas, shop, message, key, w'. split; [exact Hrun|exact H].
  - apply (proj1 (proj2 (pizza_order_within_limits
                           (mret "Ada") (mret "555") (mret "1 Main St")
                           1 0 3 w0))). lia.
  - apply (proj1 (proj2 (proj2 (pizza_order_within_limits
                           (mret "Ada") (mret "555") (mret "1 Main St")
                           1 5 (-1) w0)))); lia.
Defined.

(* ===================================================================== *)
(** * Further properties of the user behaviour producer                   *)
(* ===================================================================== *)

Section UserBehaviourMore.

Import UserBehaviour.

Implicit Types (w : world unit).

(** X18: [behavior()] turns one draw [r] into a behaviour by the
    cumulative weights 0.5, 0.8, 1.0: "view" for [r < 0.5], "cart" for
    [0.5 <= r < 0.8] and "buy" for [0.8 <= r]. *)
Theorem behavior_follows_weights w :
  exists b,
    behavior new_provider w =
      (Ok b, World (globals w) (advance (gen w)) (now w) (trace w)) /\
    ((unit_draw (gen w) < 5 # 10)%Q -> b = "view") /\
    ((5 # 10 <= unit_draw (gen w) < 8 # 10)%Q -> b = "cart") /\
    ((8 # 10 <= unit_draw (gen w))%Q -> b = "buy").
Proof.
  unfold behavior, random_choices1.
  cbn [accumulate behavior_names new_provider length Nat.eqb negb last].
  change (last [(0 + (5 # 10))%Q; (0 + (5 # 10) + (3 # 10))%Q;
                (0 + (5 # 10) + (3 # 10) + (2 # 10))%Q])
    with (Some (0 + (5 # 10) + (3 # 10) + (2 # 10))%Q).
  change (Qle_bool (0 + (5 # 10) + (3 # 10) + (2 # 10)) 0) with false.
  cbn iota. rewrite (bind_ok _ _ _ _ _ (random_random_run w)).
  cbn [Nat.sub bisect].
  set (r := unit_draw (gen w)).
  destruct (Qle_bool (0 + (5 # 10)) (r * (0 + (5 # 10) + (3 # 10) + (2 # 10))))
    eqn:H1.
  - destruct (Qle_bool (0 + (5 # 10) + (3 # 10))
                       (r * (0 + (5 # 10) + (3 # 10) + (2 # 10)))) eqn:H2.
    + eexists. split; [reflexivity|].
      apply Qle_bool_iff in H2. repeat split; intros; try reflexivity;
        exfalso; lra.
    + eexists. split; [reflexivity|].
      apply Qle_bool_iff in H1.
      assert (~ (0 + (5 # 10) + (3 # 10)
                 <= r * (0 + (5 # 10) + (3 # 10) + (2 # 10)))%Q)
        by (intros Hle; apply Qle_bool_iff in Hle; congruence).
      repeat split; intros; try reflexivity; exfalso; lra.
  - eexists. split; [reflexivity|].
    assert (~ (0 + (5 # 10) <= r * (0 + (5 # 10) + (3 # 10) + (2 # 10)))%Q)
      by (intros Hle; apply Qle_bool_iff in Hle; congruence).
    repeat split; intros; try reflexivity; exfalso; lra.
Qed.

Lemma behavior_follows_weights_witness :
  exists b,
    behavior new_provider (start tt (constant_rng 6755399441055744)) =
      (Ok b, World tt (advance (constant_rng 6755399441055744)) 0 []) /\
    ((unit_draw (constant_rng 6755399441055744) < 5 # 10)%Q -> b = "view") /\
    ((5 # 10 <= unit_draw (constant_rng 6755399441055744) < 8 # 10)%Q
       -> b = "cart") /\
    ((8 # 10 <= unit_draw (constant_rng 6755399441055744))%Q -> b = "buy").
Proof.
  exact (behavior_follows_weights (start tt (constant_rng 6755399441055744))).
Defined.

End UserBehaviourMore.

(* ===================================================================== *)
(** * What the loop of the advanced metric script logs                    *)
(* ===================================================================== *)

Section LoopCounts.

Context {G : Type}.
Variable produce : M G (gmap string pyval * gmap string pyval).

(** A producer that always returns, with messages that are all empty or
    all non-empty ([nonempty]), and that logs [logs lvl] lines of each
    level and never sleeps: what [n] passes of the loop add up to. *)
Lemma run_counts (logs : level -> nat) (nonempty : bool) :
  (forall w, exists message key w1,
     produce w = (Ok (message, key), w1) /\
     truthy message = nonempty /\
     (forall lvl, count_logged lvl (trace w1)
                  = (count_logged lvl (trace w) + logs lvl)%nat) /\
     count_sleeps (trace w1) = count_sleeps (trace w)) ->
  forall n (w : world G), exists w',
    Loop.run produce (log_message INFO) n w = (Ok tt, w') /\
    (forall lvl,
       count_logged lvl (trace w') =
       (count_logged lvl (trace w) +
        n * (logs lvl + if nonempty && level_eqb INFO lvl then 1 else 0))%nat) /\
    count_sleeps (trace w') = (count_sleeps (trace w) + n)%nat.
Proof.
  intros Hstep n. induction n as [|n IH]; intros w.
  - exists w. split; [reflexivity|]. split; [intros lvl|]; lia.
  - destruct (Hstep w) as (message & key & w1 & Hrun & Ht & Hlogs & Hsl).
    destruct nonempty.
    + pose proof (proj1 (quiet_pass_run produce
                           (log_message INFO) w message key w1 Hrun)
                    (record_event w1 (LogMessage INFO message)) Ht eq_refl)
        as Hpass.
      cbv zeta in Hpass. cbn [record_event globals gen now trace] in Hpass.
      set (d := (1 + (5 - 1) * unit_draw (gen w1))%Q) in *.
      destruct (IH (World (globals w1) (advance (gen w1)) (now w1 + d)%Q
                          ((trace w1 ++ [LogMessage INFO message]) ++ [Sleep d])))
        as (w' & Hmain & Hcount & Hsleeps).
      cbn [trace] in Hcount, Hsleeps.
      exists w'. split; [|split].
      * cbn [Loop.run]. now rewrite (bind_ok _ _ _ _ _ Hpass).
      * intros lvl. rewrite Hcount, !count_logged_app, Hlogs.
        unfold count_logged at 2 3. cbn [List.filter logged_at length].
        cbn [andb]. destruct (level_eqb INFO lvl); cbn [length]; lia.
      * rewrite Hsleeps, !count_sleeps_app, Hsl. cbn. lia.
    + pose proof (proj2 (quiet_pass_run produce
                           (log_message INFO) w message key w1 Hrun) Ht)
        as Hpass.
      cbv zeta in Hpass.
      set (d := (1 + (5 - 1) * unit_draw (gen w1))%Q) in *.
      destruct (IH (World (globals w1) (advance (gen w1)) (now w1 + d)%Q
                          (trace w1 ++ [Sleep d])))
        as (w' & Hmain & Hcount & Hsleeps).
      cbn [trace] in Hcount, Hsleeps.
      exists w'. split; [|split].
      * cbn [Loop.run]. now rewrite (bind_ok _ _ _ _ _ Hpass).
      * intros lvl. rewrite Hcount, !count_logged_app, Hlogs.
        cbn. lia.
      * rewrite Hsleeps, !count_sleeps_app, Hsl. cbn. lia.
Qed.

End LoopCounts.

Section MetricAdvancedLoop.

Import MetricAdvanced.

Implicit Types (w : world unit) (self : provider).

Lemma produce_msg_in_range self w :
  (0 <= host self)%Z -> (0 <= cpu self)%Z ->
  exists message key w1,
    produce_msg self w = (Ok (message, key), w1) /\
    truthy message = true /\
    trace w1 = trace w ++ [LogMessage INFO message].
Proof.
  intros Hh Hc.
  destruct (random_randint_run 0 (host self) w Hh) as (n & _ & Hn).
  set (w1 := World (globals w) (advance (gen w)) (now w) (trace w)) in *.
  destruct (random_randint_run 0 (cpu self) w1 Hc) as (c & _ & Hcpu).
  eexists _, _, _. split; [|split].
  - unfold produce_msg, try_except, produce_msg_body, hostname, cpu_id.
    erewrite (bind_ok _ _ w); [|now rewrite (bind_ok _ _ _ _ _ Hn)].
    unfold time_time at 1. unfold mbind at 1, M_bind at 1, bind at 1.
    cbv zeta.
    erewrite (bind_ok _ _ w1); [|now rewrite (bind_ok _ _ _ _ _ Hcpu)].
    reflexivity.
  - eapply (truthy_of_lookup _ "hostname"). reflexivity.
  - reflexivity.
Qed.

Lemma produce_msg_out_of_range self w :
  (host self < 0 \/ cpu self < 0)%Z ->
  exists w1,
    produce_msg self w = (Ok (∅, ∅), w1) /\
    trace w1 = trace w ++ [LogFailure ERROR ValueError].
Proof.
  intros Hneg.
  assert (Hbody : exists w0,
            produce_msg_body self w = (Raise ValueError, w0) /\
            trace w0 = trace w).
  { unfold produce_msg_body, hostname, cpu_id.
    destruct (Z.lt_ge_cases (host self) 0) as [Hh|Hh].
    - exists w. split; [|reflexivity].
      apply bind_raise.
      now rewrite (bind_raise _ _ w ValueError w (random_randint_empty 0 _ w Hh)).
    - assert (Hc : (cpu self < 0)%Z) by lia.
      destruct (random_randint_run 0 (host self) w Hh) as (n & _ & Hn).
      eexists. split.
      + erewrite (bind_ok _ _ w); [|now rewrite (bind_ok _ _ _ _ _ Hn)].
        unfold time_time at 1. unfold mbind at 1, M_bind at 1, bind at 1.
        cbv zeta. apply bind_raise.
        now rewrite (bind_raise _ _ _ ValueError _
                       (random_randint_empty 0 _ _ Hc)).
      + reflexivity. }
  destruct Hbody as (w0 & Hbody & Htr).
  eexists. split.
  - unfold produce_msg, try_except. rewrite Hbody. reflexivity.
  - cbn [trace]. now rewrite Htr.
Qed.

(** X19: the loop of the advanced metric script never reaches its
    recovery branch, whatever the two bounds are.  With bounds that are
    not negative every pass logs the message twice at level INFO (once
    in [produce_msg], once in the loop).  With a negative bound every
    pass logs one line at level ERROR and no message at all, and goes on
    with the ordinary pause: the failure never shows as CRITICAL. *)
Theorem metric_advanced_main_logging host cpu n w :
  ((0 <= host)%Z -> (0 <= cpu)%Z ->
   exists w',
     metric_advanced_main host cpu n w = (Ok tt, w') /\
     count_logged INFO (trace w') = (count_logged INFO (trace w) + 2 * n)%nat /\
     count_logged ERROR (trace w') = count_logged ERROR (trace w) /\
     count_logged CRITICAL (trace w') = count_logged CRITICAL (trace w) /\
     count_sleeps (trace w') = (count_sleeps (trace w) + n)%nat) /\
  ((host < 0 \/ cpu < 0)%Z ->
   exists w',
     metric_advanced_main host cpu n w = (Ok tt, w') /\
     count_logged INFO (trace w') = count_logged INFO (trace w) /\
     count_logged ERROR (trace w') = (count_logged ERROR (trace w) + n)%nat /\
     count_logged CRITICAL (trace w') = count_logged CRITICAL (trace w) /\
     count_sleeps (trace w') = (count_sleeps (trace w) + n)%nat).
Proof.
  split.
  - intros Hh Hc.
    destruct (run_counts (produce_msg {| host := host; cpu := cpu |})
                (fun lvl => if level_eqb INFO lvl then 1%nat else 0%nat) true)
      with (n := n) (w := w) as (w' & Hrun & Hcount & Hsleeps).
    { intros w0.
      destruct (produce_msg_in_range {| host := host; cpu := cpu |} w0 Hh Hc)
        as (message & key & w1 & Hp & Ht & Htr).
      exists message, key, w1. split; [exact Hp|]. split; [exact Ht|].
      rewrite Htr. split.
      - intros lvl. rewrite count_logged_app. unfold count_logged at 2.
        cbn [List.filter logged_at]. destruct (level_eqb INFO lvl); reflexivity.
      - rewrite count_sleeps_app. cbn. lia. }
    exists w'. split; [exact Hrun|].
    rewrite (Hcount INFO), (Hcount ERROR), (Hcount CRITICAL), Hsleeps. cbn.
    repeat split; lia.
  - intros Hneg.
    destruct (run_counts (produce_msg {| host := host; cpu := cpu |})
                (fun lvl => if level_eqb ERROR lvl then 1%nat else 0%nat) false)
      with (n := n) (w := w) as (w' & Hrun & Hcount & Hsleeps).
    { intros w0.
      destruct (produce_msg_out_of_range {| host := host; cpu := cpu |} w0 Hneg)
        as (w1 & Hp & Htr).
      exists ∅, ∅, w1. split; [exact Hp|]. split; [reflexivity|].
      rewrite Htr. split.
      - intros lvl. rewrite count_logged_app. unfold count_logged at 2.
        cbn [List.filter logged_at]. destruct (level_eqb ERROR lvl); reflexivity.
      - rewrite count_sleeps_app. cbn. lia. }
    exists w'. split; [exact Hrun|].
    rewrite (Hcount INFO), (Hcount ERROR), (Hcount CRITICAL), Hsleeps. cbn.
    repeat split; lia.
Qed.

End MetricAdvancedLoop.

Lemma metric_advanced_main_logging_witness :
  let w0 := start tt (constant_rng 5) in
  (exists w',
     metric_advanced_main 100000 30 4 w0 = (Ok tt, w') /\
     count_logged INFO (trace w') = (count_logged INFO (trace w0) + 2 * 4)%nat /\
     count_logged ERROR (trace w') = count_logged ERROR (trace w0) /\
     count_logged CRITICAL (trace w') = count_logged CRITICAL (trace w0) /\
     count_sleeps (trace w') = (count_sleeps (trace w0) + 4)%nat) /\
  (exists w',
     metric_advanced_main (-1) 30 4 w0 = (Ok tt, w') /\
     count_logged INFO (trace w') = count_logged INFO (trace w0) /\
     count_logged ERROR (trace w') = (count_logged ERROR (trace w0) + 4)%nat /\
     count_logged CRITICAL (trace w') = count_logged CRITICAL (trace w0) /\
     count_sleeps (trace w') = (count_sleeps (trace w0) + 4)%nat).
Proof.
  intros w0. split.
  - apply (proj1 (metric_advanced_main_logging 100000 30 4 w0)); lia.
  - apply (proj2 (metric_advanced_main_logging (-1) 30 4 w0)). left. lia.
Defined.

(* ===================================================================== *)
(** * Properties of read_server_config                                    *)
(* ===================================================================== *)

Section ServerConfigFacts.

Import ServerConfig.

Variable before_get : config -> string -> string -> string -> option string.
Variable interpolation_error : exn.
Variable before_set : string -> bool.

(** Interpolation errors of [configparser] are no [KeyError]s. *)
Hypothesis interpolation_error_class : is_KeyError interpolation_error = false.

Implicit Types (cfg : config) (environ : gmap string string).

Lemma has_option_raw cfg key :
  has_option cfg "kafka" key = true <-> is_Some (raw_option cfg "kafka" key).
Proof.
  unfold has_option, raw_option.
  destruct (cp_sections cfg !! "kafka") as [d|]; [|split; [discriminate|]].
  - destruct (d !! key), (cp_defaults cfg !! key); split; intros H;
      try reflexivity; try (eexists; reflexivity); try discriminate.
    destruct H as [? H]. discriminate.
  - intros [? H]. discriminate.
Qed.

(** What a successful [setdefault] did. *)
Lemma setdefault_ok cfg key value cfg1 :
  setdefault before_get interpolation_error before_set cfg key value = Ok cfg1 ->
  (is_Some (raw_option cfg "kafka" key) /\ cfg1 = cfg) \/
  (raw_option cfg "kafka" key = None /\
   exists d,
     cp_sections cfg !! "kafka" = Some d /\
     d !! key = None /\ cp_defaults cfg !! key = None /\
     cfg1 = Config (cp_defaults cfg)
                   (<["kafka" := <[key := value]> d]> (cp_sections cfg))).
Proof.
  unfold setdefault. destruct (has_option cfg "kafka" key) eqn:Hhas.
  - pose proof (proj1 (has_option_raw cfg key) Hhas) as [raw Hraw].
    unfold get_option. rewrite Hraw.
    destruct (before_get cfg "kafka" key raw).
    + intros [= <-]. left. split; [eauto|reflexivity].
    + rewrite interpolation_error_class. discriminate.
  - cbn [is_KeyError]. unfold set_option. intros H. right.
    assert (Hraw : raw_option cfg "kafka" key = None).
    { destruct (raw_option cfg "kafka" key) eqn:E; [|reflexivity].
      assert (Hs : is_Some (raw_option cfg "kafka" key)) by (rewrite E; eauto).
      apply has_option_raw in Hs. congruence. }
    split; [exact Hraw|].
    unfold raw_option in Hraw.
    destruct (cp_sections cfg !! "kafka") as [d|]; [|discriminate].
    destruct (negb (String.eqb value "") && negb (before_set value));
      [discriminate|].
    injection H as <-. exists d. split; [reflexivity|].
    destruct (d !! key); [discriminate|]. split; [reflexivity|].
    split; [exact Hraw|reflexivity].
Qed.

(** A successful [setdefault] keeps everything but the one option it may
    have added to the [kafka] section. *)
Lemma setdefault_keeps cfg key value cfg1 :
  setdefault before_get interpolation_error before_set cfg key value = Ok cfg1 ->
  cp_defaults cfg1 = cp_defaults cfg /\
  (forall s, s <> "kafka" -> cp_sections cfg1 !! s = cp_sections cfg !! s) /\
  (has_kafka cfg -> has_kafka cfg1) /\
  (forall k, k <> key -> raw_option cfg1 "kafka" k = raw_option cfg "kafka" k) /\
  (forall k v, raw_option cfg "kafka" k = Some v ->
               raw_option cfg1 "kafka" k = Some v) /\
  (raw_option cfg "kafka" key = None ->
   raw_option cfg1 "kafka" key = Some value).
Proof.
  intros H. apply setdefault_ok in H as [[Hsome ->]|(Hnone & d & Hd & Hk & Hdef & ->)].
  - repeat split; auto. intros Hnone. rewrite Hnone in Hsome.
    destruct Hsome as [? ?]. discriminate.
  - cbn [cp_defaults cp_sections]. split; [reflexivity|].
    split; [intros s Hs; now rewrite lookup_insert_ne|].
    split; [intros _; unfold has_kafka; cbn [cp_sections];
            rewrite lookup_insert_eq; eauto|].
    assert (Hother : forall k, k <> key ->
              raw_option (Config (cp_defaults cfg)
                            (<["kafka" := <[key := value]> d]> (cp_sections cfg)))
                         "kafka" k = raw_option cfg "kafka" k).
    { intros k Hne. unfold raw_option. cbn [cp_defaults cp_sections].
      rewrite lookup_insert_eq, Hd. now rewrite lookup_insert_ne. }
    split; [exact Hother|]. split.
    + intros k v Hkv. destruct (decide (k = key)) as [->|Hne].
      * congruence.
      * now rewrite Hother.
    + intros _. unfold raw_option. cbn [cp_defaults cp_sections].
      rewrite lookup_insert_eq. now rewrite lookup_insert_eq.
Qed.

(** The loop over the defaults, when it comes to its end. *)
Lemma fill_keeps environ items cfg cfg' :
  fill before_get interpolation_error before_set environ items cfg = Ok cfg' ->
  cp_defaults cfg' = cp_defaults cfg /\
  (forall s, s <> "kafka" -> cp_sections cfg' !! s = cp_sections cfg !! s) /\
  (has_kafka cfg -> has_kafka cfg') /\
  (forall k, k ∉ items.*1 ->
             raw_option cfg' "kafka" k = raw_option cfg "kafka" k) /\
  (forall k v, raw_option cfg "kafka" k = Some v ->
               raw_option cfg' "kafka" k = Some v).
Proof.
  revert cfg. induction items as [|[key env_var] rest IH]; intros cfg H.
  - injection H as <-. repeat split; auto.
  - cbn [fill] in H. destruct (dict_item key defaults) as [fallback|];
      [|discriminate].
    destruct (setdefault before_get interpolation_error before_set cfg key _)
      as [cfg1|e] eqn:Hstep; [|discriminate].
    apply setdefault_keeps in Hstep as (Hd1 & Hs1 & Hk1 & Ho1 & Hp1 & _).
    apply IH in H as (Hd & Hs & Hk & Ho & Hp).
    split; [congruence|].
    split; [intros s Hne; rewrite Hs, Hs1; auto|].
    split; [auto|]. split.
    + intros k Hout. cbn [fmap list_fmap fst] in Hout.
      apply not_elem_of_cons in Hout as [Hne Hout].
      rewrite Ho, Ho1; auto.
    + intros k v Hkv. auto.
Qed.


Lemma defaults_items :
  Forall (fun item => dict_item item.1 defaults = Some item.2) defaults.
Proof. repeat constructor. Qed.


(** What [read_server_config] computes when it returns. *)
Lemma read_server_config_ok parsed environ (w : world unit) cfg' w' :
  read_server_config before_get interpolation_error before_set parsed environ w
    = (Ok cfg', w') ->
  exists cfg,
    parsed = Ok cfg /\ w' = w /\
    fill before_get interpolation_error before_set environ defaults
         (if contains cfg "kafka" then cfg else add_empty_section cfg "kafka")
      = Ok cfg'.
Proof.
  unfold read_server_config, try_except, lift, mbind, M_bind, bind.
  destruct parsed as [cfg|e]; cbv zeta.
  - destruct (fill _ _ _ environ defaults _) as [cfg1|e] eqn:Hfill.
    + intros [= <- <-]. exists cfg. repeat split. exact Hfill.
    + destruct (is_Exception e); [|discriminate].
      unfold log_failure, emit_event, raise. discriminate.
  - destruct (is_Exception e); [|discriminate].
    unfold log_failure, emit_event, raise. discriminate.
Qed.

Lemma raw_option_after_section cfg key :
  raw_option (if contains cfg "kafka" then cfg
              else add_empty_section cfg "kafka") "kafka" key =
  match cp_sections cfg !! "kafka" with
  | Some d => match d !! key with
              | Some v => Some v
              | None => cp_defaults cfg !! key
              end
  | None => cp_defaults cfg !! key
  end.
Proof.
  unfold contains, raw_option. cbn [String.eqb Ascii.eqb Bool.eqb orb].
  destruct (cp_sections cfg !! "kafka") as [d|] eqn:Hd.
  - now rewrite Hd.
  - unfold add_empty_section. cbn [cp_sections cp_defaults].
    rewrite lookup_insert_eq. now rewrite lookup_empty.
Qed.

(** X20: what the file says is never overwritten.  When
    [read_server_config] returns, nothing was logged, the DEFAULT
    section and every section other than [kafka] are as parsed, every
    option that could be read from the [kafka] section before still has
    the same text, and only the nine options of [defaults] can have been
    added. *)
Theorem read_server_config_keeps_file_options parsed environ
    (w : world unit) cfg' w' :
  read_server_config before_get interpolation_error before_set parsed environ w
    = (Ok cfg', w') ->
  exists cfg,
    parsed = Ok cfg /\
    w' = w /\
    cp_defaults cfg' = cp_defaults cfg /\
    (forall s, s <> "kafka" -> cp_sections cfg' !! s = cp_sections cfg !! s) /\
    has_kafka cfg' /\
    (forall k v, raw_option cfg "kafka" k = Some v ->
                 raw_option cfg' "kafka" k = Some v) /\
    (forall k, k ∉ defaults.*1 ->
       raw_option cfg' "kafka" k =
       raw_option (if contains cfg "kafka" then cfg
                   else add_empty_section cfg "kafka") "kafka" k).
Proof.
  intros H. apply read_server_config_ok in H as (cfg & -> & -> & Hfill).
  exists cfg. split; [reflexivity|]. split; [reflexivity|].
  apply fill_keeps in Hfill as (Hd & Hs & Hk & Ho & Hp).
  assert (Hsec : forall s, s <> "kafka" ->
            cp_sections (if contains cfg "kafka" then cfg
                         else add_empty_section cfg "kafka") !! s
            = cp_sections cfg !! s).
  { intros s Hne. destruct (contains cfg "kafka"); [reflexivity|].
    unfold add_empty_section. cbn [cp_sections]. now rewrite lookup_insert_ne. }
  split; [rewrite Hd; now destruct (contains cfg "kafka")|].
  split; [intros s Hne; rewrite Hs, Hsec; auto|].
  split.
  { apply Hk. unfold has_kafka, contains.
    cbn [String.eqb Ascii.eqb Bool.eqb orb].
    destruct (cp_sections cfg !! "kafka") as [d|] eqn:Hd0.
    - rewrite Hd0. eauto.
    - unfold add_empty_section. cbn [cp_sections].
      rewrite lookup_insert_eq. eauto. }
  split; [|exact Ho].
  intros k v Hkv. apply Hp. rewrite raw_option_after_section.
  unfold raw_option in Hkv.
  destruct (cp_sections cfg !! "kafka") as [d|]; [exact Hkv|discriminate].
Qed.


(** X22: [read_server_config] swallows nothing.  An [Exception] raised
    while the file is parsed or while the defaults are filled in is
    logged once at level ERROR and raised again; anything else that is
    raised passes without a log line. *)
Theorem read_server_config_logs_and_reraises parsed environ (w : world unit) :
  (forall e,
     parsed = Raise e -> is_Exception e = true ->
     read_server_config before_get interpolation_error before_set
                        parsed environ w
       = (Raise e, record_event w (LogFailure ERROR e))) /\
  (forall e w',
     read_server_config before_get interpolation_error before_set
                        parsed environ w = (Raise e, w') ->
     (is_Exception e = true /\ w' = record_event w (LogFailure ERROR e)) \/
     (is_Exception e = false /\ w' = w)).
Proof.
  split.
  - intros e -> He. unfold read_server_config, try_except, lift.
    unfold mbind, M_bind, bind. rewrite He. reflexivity.
  - intros e w'. unfold read_server_config, try_except, lift.
    unfold mbind, M_bind, bind. cbv zeta.
    destruct parsed as [cfg|e0].
    + destruct (fill _ _ _ environ defaults _) as [cfg1|e1]; [discriminate|].
      destruct (is_Exception e1) eqn:He1.
      * intros [= <- <-]. left. split; [exact He1|reflexivity].
      * intros [= <- <-]. right. split; [exact He1|reflexivity].
    + destruct (is_Exception e0) eqn:He0.
      * intros [= <- <-]. left. split; [exact He0|reflexivity].
      * intros [= <- <-]. right. split; [exact He0|reflexivity].
Qed.





Lemma fill_total environ items cfg :
  has_kafka cfg ->
  Forall (fun item => dict_item item.1 defaults = Some item.2) items ->
  (forall c s o raw, is_Some (before_get c s o raw)) ->
  (forall key env_var, (key, env_var) ∈ items ->
     before_set (default env_var (environ !! env_var)) = true) ->
  exists cfg',
    fill before_get interpolation_error before_set environ items cfg = Ok cfg'.
Proof.
  revert cfg. induction items as [|[k0 e0] rest IH];
    intros cfg Hk Hall Hget Hacc.
  - eexists. reflexivity.
  - cbn [fill]. inversion Hall as [|? ? Hitem Hall']; subst.
    cbn [fst snd] in Hitem. rewrite Hitem.
    assert (Hstep : exists cfg1,
      setdefault before_get interpolation_error before_set cfg k0
                 (default e0 (environ !! e0)) = Ok cfg1).
    { unfold setdefault. destruct (has_option cfg "kafka" k0) eqn:Hhas.
      - apply has_option_raw in Hhas as [raw Hraw].
        unfold get_option. rewrite Hraw.
        destruct (Hget cfg "kafka" k0 raw) as [v ->]. eauto.
      - cbn [is_KeyError]. unfold set_option.
        destruct Hk as [d Hd]. rewrite Hd.
        rewrite (Hacc k0 e0) by left. rewrite andb_false_r. eauto. }
    destruct Hstep as [cfg1 Hstep]. rewrite Hstep.
    pose proof (setdefault_keeps _ _ _ _ Hstep) as (_ & _ & Hk1 & _).
    apply IH; auto.
    intros key env_var Hin. apply (Hacc key env_var). now right.
Qed.

Lemma read_server_config_returns cfg environ (w : world unit) :
  (forall c s o raw, is_Some (before_get c s o raw)) ->
  (forall key env_var, (key, env_var) ∈ defaults ->
     before_set (default env_var (environ !! env_var)) = true) ->
  exists cfg',
    read_server_config before_get interpolation_error before_set
                       (Ok cfg) environ w = (Ok cfg', w).
Proof.
  intros Hget Hacc.
  destruct (fill_total environ defaults
              (if contains cfg "kafka" then cfg
               else add_empty_section cfg "kafka")) as [cfg' Hfill];
    [|exact defaults_items|exact Hget|exact Hacc|].
  - unfold has_kafka, contains. cbn [String.eqb Ascii.eqb Bool.eqb orb].
    destruct (cp_sections cfg !! "kafka") as [d|] eqn:Hd0.
    + rewrite Hd0. eauto.
    + unfold add_empty_section. cbn [cp_sections].
      rewrite lookup_insert_eq. eauto.
  - exists cfg'. unfold read_server_config, try_except, lift.
    unfold mbind, M_bind, bind. cbv zeta. now rewrite Hfill.
Qed.

End ServerConfigFacts.

Section ServerConfigWitnesses.

Import ServerConfig.

Lemma read_server_config_keeps_file_options_witness :
  exists cfg' w',
    read_server_config sample_get ValueError sample_set (Ok sample_file) sample_environ
                       (start tt (constant_rng 0)) = (Ok cfg', w') /\
    w' = start tt (constant_rng 0) /\
    cp_defaults cfg' = cp_defaults sample_file /\
    raw_option cfg' "kafka" "topic" = Some "orders".
Proof.
  destruct (read_server_config_returns sample_get ValueError sample_set eq_refl
              sample_file sample_environ (start tt (constant_rng 0)))
    as [cfg' Hrun]; [intros; eexists; reflexivity|reflexivity|].
  exists cfg', (start tt (constant_rng 0)). split; [exact Hrun|].
  destruct (read_server_config_keeps_file_options sample_get ValueError
              sample_set eq_refl _ _ _ _ _ Hrun)
    as (cfg & Hparsed & Hw & Hd & _ & _ & Hkeep & _).
  injection Hparsed as <-. split; [reflexivity|]. split; [exact Hd|].
  apply Hkeep. reflexivity.
Defined.


Lemma read_server_config_logs_and_reraises_witness :
  read_server_config sample_get ValueError sample_set (Raise TypeError) sample_environ
                     (start tt (constant_rng 0))
  = (Raise TypeError,
     record_event (start tt (constant_rng 0)) (LogFailure ERROR TypeError)).
Proof.
  apply (proj1 (read_server_config_logs_and_reraises sample_get ValueError
                  sample_set (Raise TypeError) sample_environ
                  (start tt (constant_rng 0))) TypeError); reflexivity.
Defined.


End ServerConfigWitnesses.

(* ===================================================================== *)
(** * Properties of version()                                             *)
(* ===================================================================== *)

Section UseVersionFacts.

Import UseVersion.

Implicit Types (s t piece : string) (drop : ascii -> bool) (sep : ascii).

Lemma app_nil t : "" +:+ t = t.
Proof. reflexivity. Qed.

Lemma app_cons a s t : String a s +:+ t = String a (s +:+ t).
Proof. reflexivity. Qed.

Lemma chars_app s t : chars (s +:+ t) = chars s ++ chars t.
Proof.
  induction s as [|a s IH]; [reflexivity|]. rewrite app_cons. cbn.
  now rewrite IH.
Qed.

Lemma string_app_assoc s t u : (s +:+ t) +:+ u = s +:+ (t +:+ u).
Proof.
  induction s as [|a s IH]; [reflexivity|]. rewrite !app_cons. now rewrite IH.
Qed.

Lemma string_app_empty s : s +:+ "" = s.
Proof.
  induction s as [|a s IH]; [reflexivity|]. rewrite app_cons. now rewrite IH.
Qed.

(** ** [split] *)

Lemma split_not_nil sep s : split sep s <> [].
Proof.
  destruct s as [|a s]; cbn; [discriminate|].
  destruct (Ascii.eqb a sep); [discriminate|].
  destruct (split sep s); discriminate.
Qed.

Lemma split_without_sep sep s : sep ∉ chars s -> split sep s = [s].
Proof.
  induction s as [|a s IH]; intros Hout; [reflexivity|].
  cbn in *. apply not_elem_of_cons in Hout as [Hne Hout].
  destruct (Ascii.eqb a sep) eqn:E; [apply Ascii.eqb_eq in E; congruence|].
  now rewrite IH.
Qed.

Lemma split_at_first_sep sep s t :
  sep ∉ chars s -> split sep (s +:+ String sep t) = s :: split sep t.
Proof.
  induction s as [|a s IH]; intros Hout.
  - rewrite app_nil. cbn. now rewrite Ascii.eqb_refl.
  - rewrite app_cons. cbn in *. apply not_elem_of_cons in Hout as [Hne Hout].
    destruct (Ascii.eqb a sep) eqn:E; [apply Ascii.eqb_eq in E; congruence|].
    now rewrite IH.
Qed.

Lemma split_pieces_without_sep sep s :
  Forall (fun piece => sep ∉ chars piece) (split sep s).
Proof.
  induction s as [|a s IH]; cbn.
  - repeat constructor. apply not_elem_of_nil.
  - destruct (Ascii.eqb a sep) eqn:E.
    + constructor; [apply not_elem_of_nil|exact IH].
    + destruct (split sep s) as [|piece pieces].
      * repeat constructor. cbn. apply not_elem_of_cons. split.
        -- intros ->. now rewrite Ascii.eqb_refl in E.
        -- apply not_elem_of_nil.
      * inversion IH as [|? ? Hp Hps]; subst. constructor; [|exact Hps].
        cbn. apply not_elem_of_cons. split; [|exact Hp].
        intros ->. now rewrite Ascii.eqb_refl in E.
Qed.

(** ** [strip] *)

Lemma lstrip_chars drop s a : a ∈ chars (lstrip_by drop s) -> a ∈ chars s.
Proof.
  induction s as [|b s IH]; cbn; [auto|].
  destruct (drop b); [intros H; right; auto|auto].
Qed.

Lemma rstrip_chars drop s a : a ∈ chars (rstrip_by drop s) -> a ∈ chars s.
Proof.
  induction s as [|b s IH]; cbn; [auto|].
  destruct (is_empty (rstrip_by drop s) && drop b); cbn.
  - intros H. inversion H.
  - intros H. apply elem_of_cons in H as [->|H]; [left|right; auto].
Qed.

Lemma lstrip_idem drop s : lstrip_by drop (lstrip_by drop s) = lstrip_by drop s.
Proof.
  induction s as [|a s IH]; [reflexivity|]. cbn.
  destruct (drop a) eqn:E; [exact IH|]. cbn. now rewrite E.
Qed.

Lemma rstrip_lstrip drop s :
  rstrip_by drop s = s -> rstrip_by drop (lstrip_by drop s) = lstrip_by drop s.
Proof.
  induction s as [|a s IH]; [reflexivity|]. intros H.
  assert (Hs : rstrip_by drop s = s).
  { cbn in H. destruct (is_empty (rstrip_by drop s) && drop a);
      [discriminate|now injection H]. }
  cbn [lstrip_by]. destruct (drop a); [auto|exact H].
Qed.

Lemma rstrip_idem drop s : rstrip_by drop (rstrip_by drop s) = rstrip_by drop s.
Proof.
  induction s as [|a s IH]; [reflexivity|]. cbn.
  destruct (is_empty (rstrip_by drop s) && drop a) eqn:E; [reflexivity|].
  cbn. now rewrite IH, E.
Qed.

Lemma strip_trimmed drop s : trimmed drop (strip_by drop s).
Proof.
  unfold trimmed, strip_by. split; [apply lstrip_idem|].
  apply rstrip_lstrip, rstrip_idem.
Qed.

Lemma rstrip_all drop s : Forall (fun a => drop a = true) (chars s) ->
  rstrip_by drop s = "".
Proof.
  induction s as [|a s IH]; [reflexivity|]. cbn. intros H.
  inversion H as [|? ? Ha Hs]; subst. now rewrite (IH Hs), Ha.
Qed.

Lemma rstrip_app_dropped drop s t :
  Forall (fun a => drop a = true) (chars t) ->
  rstrip_by drop (s +:+ t) = rstrip_by drop s.
Proof.
  intros Ht. induction s as [|a s IH].
  - rewrite app_nil. now apply rstrip_all.
  - rewrite app_cons. cbn. now rewrite IH.
Qed.

Lemma rstrip_app_kept drop s t :
  rstrip_by drop t = t -> t <> "" -> rstrip_by drop (s +:+ t) = s +:+ t.
Proof.
  intros Ht Hne. induction s as [|a s IH]; [exact Ht|].
  rewrite app_cons. cbn. rewrite IH. destruct (s +:+ t) eqn:E; [|reflexivity].
  destruct s; [rewrite app_nil in E; congruence|discriminate].
Qed.

Lemma lstrip_app_dropped drop s t :
  Forall (fun a => drop a = true) (chars s) ->
  lstrip_by drop (s +:+ t) = lstrip_by drop t.
Proof.
  induction s as [|a s IH]; [reflexivity|]. rewrite app_cons. cbn. intros H.
  inversion H as [|? ? Ha Hs]; subst. rewrite Ha. auto.
Qed.

(** Stripping gives back a trimmed text from between dropped ones. *)
Lemma strip_between drop l v r :
  Forall (fun a => drop a = true) (chars l) ->
  Forall (fun a => drop a = true) (chars r) ->
  trimmed drop v ->
  strip_by drop (l +:+ v +:+ r) = v.
Proof.
  intros Hl Hr [Hvl Hvr]. unfold strip_by.
  rewrite <- string_app_assoc, (rstrip_app_dropped _ _ _ Hr).
  destruct v as [|a v].
  - rewrite string_app_empty, (rstrip_all _ _ Hl). reflexivity.
  - rewrite (rstrip_app_kept _ _ _ Hvr) by discriminate.
    now rewrite (lstrip_app_dropped _ _ _ Hl).
Qed.

Lemma scan_skips before rest :
  Forall (fun line => startswith "__version__" line = false) before ->
  scan (before ++ rest) = scan rest.
Proof.
  induction 1 as [|line before Hline _ IH]; [reflexivity|].
  cbn [app scan]. now rewrite Hline.
Qed.

Lemma startswith_app p s : startswith p (p +:+ s) = true.
Proof.
  induction p as [|a p IH]; [reflexivity|]. rewrite app_cons. cbn.
  now rewrite Ascii.eqb_refl, IH.
Qed.

Lemma spaces_without_equals s :
  Forall (fun a => is_space a = true) (chars s) -> "="%char ∉ chars s.
Proof.
  intros H Hin. rewrite Forall_forall in H. specialize (H _ Hin). discriminate.
Qed.

Lemma quoted_is_space_trimmed v : trimmed is_space ("'" +:+ v +:+ "'").
Proof.
  split; [reflexivity|].
  rewrite <- string_app_assoc.
  apply rstrip_app_kept; [reflexivity|discriminate].
Qed.

(** X24: a version file is read back.  If the first line that starts
    with [__version__] has the form [__version__ = 'v'] (with any white
    space, or none, around the equals sign and after the closing quote,
    the line feed included), where [v] has no equals sign and neither
    starts nor ends with a single quote, then [version()] returns [v],
    whatever lines come before and after. *)
Theorem version_reads_quoted_text before after ws1 ws2 ws3 v stamp :
  Forall (fun line => startswith "__version__" line = false) before ->
  Forall (fun a => is_space a = true) (chars ws1) ->
  Forall (fun a => is_space a = true) (chars ws2) ->
  Forall (fun a => is_space a = true) (chars ws3) ->
  "="%char ∉ chars v ->
  trimmed is_quote v ->
  version
    (Lines (before ++
            ("__version__" +:+ ws1 +:+ "=" +:+ ws2 +:+ "'" +:+ v +:+ "'" +:+ ws3)
            :: after)) stamp
  = FromFile v.
Proof.
  intros Hbefore H1 H2 H3 Hv Htrim. unfold version.
  rewrite (scan_skips _ _ Hbefore). cbn [scan].
  rewrite startswith_app. unfold version_of_line.
  rewrite <- (string_app_assoc "__version__" ws1).
  change ("=" +:+ ws2 +:+ "'" +:+ v +:+ "'" +:+ ws3)
    with (String "="%char (ws2 +:+ "'" +:+ v +:+ "'" +:+ ws3)).
  rewrite split_at_first_sep.
  2:{ rewrite chars_app. apply not_elem_of_app. split.
      - cbn. rewrite !not_elem_of_cons. repeat split; try discriminate.
        apply not_elem_of_nil.
      - now apply spaces_without_equals. }
  rewrite split_without_sep.
  2:{ rewrite !chars_app. rewrite !not_elem_of_app.
      split; [now apply spaces_without_equals|].
      split; [cbn; rewrite not_elem_of_cons; split;
              [discriminate|apply not_elem_of_nil]|].
      split; [exact Hv|].
      split; [cbn; rewrite not_elem_of_cons; split;
              [discriminate|apply not_elem_of_nil]|].
      now apply spaces_without_equals. }
  cbn [lookup list_lookup].
  assert (Hinner : strip_by is_space (ws2 +:+ "'" +:+ v +:+ "'" +:+ ws3)
                   = "'" +:+ v +:+ "'").
  { rewrite <- (string_app_assoc "'" v ("'" +:+ ws3)).
    rewrite <- (string_app_assoc ("'" +:+ v) "'" ws3).
    rewrite (string_app_assoc "'" v "'").
    apply strip_between; [exact H2|exact H3|apply quoted_is_space_trimmed]. }
  rewrite Hinner.
  rewrite (strip_between is_quote "'" v "'"); [reflexivity| | |exact Htrim];
    repeat constructor.
Qed.

Lemma scan_text_is_clean lines text :
  scan lines = Ok text -> ("="%char ∉ chars text) /\ trimmed is_quote text.
Proof.
  induction lines as [|line lines IH]; [discriminate|]. cbn [scan].
  destruct (startswith "__version__" line); [|exact IH].
  unfold version_of_line.
  destruct (split "=" line !! 1%nat) as [piece|] eqn:Hpiece; [|discriminate].
  intros [= <-]. split; [|apply strip_trimmed].
  pose proof (split_pieces_without_sep "="%char line) as Hall.
  rewrite Forall_forall in Hall.
  pose proof (Hall piece (list_elem_of_lookup_2 _ _ _ Hpiece)) as Hclean.
  intros Hin. apply Hclean. unfold strip_by in Hin.
  apply lstrip_chars in Hin. apply rstrip_chars in Hin.
  apply lstrip_chars in Hin. now apply rstrip_chars in Hin.
Qed.

(** X25: whatever the file holds, a text that [version()] takes from it
    contains no equals sign and neither starts nor ends with a single
    quote (stripping quotes from it again changes nothing): a version
    such as [1.0=rc1] is cut at the second equals sign. *)
Theorem version_text_is_clean file stamp text :
  version file stamp = FromFile text ->
  ("="%char ∉ chars text) /\ trimmed is_quote text /\
  exists lines, file = Lines lines.
Proof.
  unfold version. destruct file as [lines| |e].
  - destruct (scan lines) as [t|e] eqn:Hscan.
    + intros [= <-]. destruct (scan_text_is_clean _ _ Hscan) as [H1 H2].
      split; [exact H1|]. split; [exact H2|]. eauto.
    + destruct (is_caught e); discriminate.
  - discriminate.
  - destruct (is_caught e); discriminate.
Qed.

(** X26: when [version()] does not find a version it falls back to the
    time stamp instead of failing: for a missing file, for a file
    without a line that starts with [__version__] (the [ValueError] of
    the function itself), and for a file whose first such line has no
    equals sign (the [IndexError] of [split('=')[1]]), even if a later
    line is well formed: only the first line that starts with
    [__version__] is looked at.  [IndexError] and [ValueError] never
    leave the function; another error met while reading does. *)
Theorem version_falls_back_to_time_stamp stamp :
  version FileNotFound stamp = TimeStamp FileNotFoundError stamp /\
  (forall lines,
     Forall (fun line => startswith "__version__" line = false) lines ->
     version (Lines lines) stamp = TimeStamp (Caught ValueError) stamp) /\
  (forall before line after,
     Forall (fun line => startswith "__version__" line = false) before ->
     startswith "__version__" line = true ->
     version (Lines (before ++ line :: after)) stamp
       = version (Lines [line]) stamp /\
     ("="%char ∉ chars line ->
      version (Lines (before ++ line :: after)) stamp
        = TimeStamp (Caught IndexError) stamp)) /\
  (forall file e,
     version file stamp = Passes e ->
     file = ReadFails e /\ is_caught e = false).
Proof.
  split; [reflexivity|]. split; [|split].
  - intros lines Hall. unfold version.
    assert (Hscan : scan lines = Raise ValueError).
    { induction Hall as [|line lines Hline _ IH]; [reflexivity|].
      cbn [scan]. now rewrite Hline. }
    now rewrite Hscan.
  - intros before line after Hbefore Hline.
    assert (Hsame : version (Lines (before ++ line :: after)) stamp
                    = version (Lines [line]) stamp).
    { unfold version. rewrite (scan_skips _ _ Hbefore). cbn [scan].
      now rewrite Hline. }
    split; [exact Hsame|]. intros Hno. rewrite Hsame. unfold version.
    cbn [scan]. rewrite Hline. unfold version_of_line.
    now rewrite (split_without_sep _ _ Hno).
  - intros file e. unfold version. destruct file as [lines| |e0].
    + destruct (scan lines) as [t|e1] eqn:Hscan; [discriminate|].
      assert (Hc : is_caught e1 = true).
      { clear -Hscan. induction lines as [|line lines IH]; cbn [scan] in Hscan.
        - now injection Hscan as <-.
        - destruct (startswith "__version__" line); [|auto].
          unfold version_of_line in Hscan.
          destruct (split "=" line !! 1%nat); [discriminate|].
          now injection Hscan as <-. }
      rewrite Hc. discriminate.
    + discriminate.
    + destruct (is_caught e0) eqn:Hc; [discriminate|].
      intros [= <-]. split; [reflexivity|exact Hc].
Qed.

End UseVersionFacts.

Lemma version_reads_quoted_text_witness :
  UseVersion.version
    (UseVersion.Lines
       (["# generated" +:+ LF] ++
        ("__version__" +:+ " " +:+ "=" +:+ " " +:+ "'" +:+ "1.4.2" +:+ "'" +:+ LF)
        :: ["__version__ = '9.9'" +:+ LF])) "20261103120000"
  = UseVersion.FromFile "1.4.2".
Proof.
  apply (version_reads_quoted_text ["# generated" +:+ LF]
           ["__version__ = '9.9'" +:+ LF] " " " " LF "1.4.2" "20261103120000").
  - repeat constructor.
  - repeat constructor.
  - repeat constructor.
  - repeat constructor.
  - cbn. rewrite !not_elem_of_cons. repeat split; try discriminate.
    apply not_elem_of_nil.
  - split; reflexivity.
Defined.

Lemma version_text_is_clean_witness :
  ("="%char ∉ chars "1.0") /\ trimmed UseVersion.is_quote "1.0" /\
  exists lines,
    UseVersion.Lines ["__version__ = '1.0=rc1'" +:+ LF] = UseVersion.Lines lines.
Proof.
  apply (version_text_is_clean
           (UseVersion.Lines ["__version__ = '1.0=rc1'" +:+ LF])
           "20261103120000" "1.0").
  reflexivity.
Defined.

Lemma version_falls_back_to_time_stamp_witness :
  UseVersion.version
    (UseVersion.Lines ["import os" +:+ LF; "x = 1" +:+ LF]) "20261103120000"
    = UseVersion.TimeStamp (UseVersion.Caught ValueError) "20261103120000" /\
  UseVersion.version
    (UseVersion.Lines (["import os" +:+ LF] ++
                       "__version__: str"
                       :: ["__version__ = '2.0'" +:+ LF])) "20261103120000"
    = UseVersion.TimeStamp (UseVersion.Caught IndexError) "20261103120000".
Proof.
  pose proof (version_falls_back_to_time_stamp "20261103120000")
    as (_ & Hnone & Hfirst & _).
  split.
  - apply Hnone. repeat constructor.
  - apply (Hfirst ["import os" +:+ LF] "__version__: str"
             ["__version__ = '2.0'" +:+ LF]).
    + repeat constructor.
    + reflexivity.
    + cbn. rewrite !not_elem_of_cons. repeat split; try discriminate.
      apply not_elem_of_nil.
Defined.
